(** * Multi-camera texture mapper: face selection, UV projection, driver

    A shallow embedding of [blender_bash2_V2.py].

    Numbers.  Python [float] values (and the single-precision components of
    [mathutils] vectors and matrices) are idealised as real numbers: [float]
    is [R], comparisons are the real order, and [/] raises
    [ZeroDivisionError] on a zero divisor as Python does.  Rounding, NaN and
    infinities are outside this model.

    Effects.  The script edits one shared mesh object in place and calls host
    operators ([bpy.ops], [bpy.data]).  Mutation is explicit state passing;
    an exception leaves the state as it was when it was raised. *)

From Stdlib Require Import Reals Lra Lia ZArith List String Bool.
Import ListNotations.
Open Scope R_scope.

(** ** Python layer *)

Abbreviation float := R (only parsing).

Inductive Exn : Type :=
| ValueError
| IndexError
| ZeroDivisionError
| AttributeError
| RuntimeError.

Inductive Result (A : Type) : Type :=
| Ok (a : A)
| Raise (e : Exn).
Arguments Ok {A} a.
Arguments Raise {A} e.

Definition Rleb (a b : float) : bool := if Rle_dec a b then true else false.
Definition Rltb (a b : float) : bool := if Rlt_dec a b then true else false.
Definition Reqb (a b : float) : bool := if Req_dec_T a b then true else false.

(** [a / b] on floats. *)
Definition truediv (a b : float) : Result float :=
  if Reqb b 0 then Raise ZeroDivisionError else Ok (a / b).

(** Position denoted by the subscript [i] in a sequence of length [n]:
    negative subscripts count from the end, anything else out of range is
    [IndexError]. *)
Definition py_position (n : nat) (i : Z) : Result nat :=
  let len := Z.of_nat n in
  if ((0 <=? i) && (i <? len))%Z then Ok (Z.to_nat i)
  else if ((- len <=? i) && (i <? 0))%Z then Ok (Z.to_nat (i + len))
  else Raise IndexError.

(** [max(iterable)]: keeps the first item and replaces it by every later
    item that is strictly greater. *)
Definition py_max (l : list float) : Result float :=
  match l with
  | [] => Raise ValueError
  | first :: rest =>
      Ok (fold_left (fun maxval item => if Rltb maxval item then item else maxval)
                    rest first)
  end.

(** [min(iterable)]. *)
Definition py_min (l : list float) : Result float :=
  match l with
  | [] => Raise ValueError
  | first :: rest =>
      Ok (fold_left (fun minval item => if Rltb item minval then item else minval)
                    rest first)
  end.

(** ** mathutils: vectors and matrices *)

Record Vector : Type := mkVector { vx : float; vy : float; vz : float }.

(** Component of a 3D vector at a position already reduced to 0, 1 or 2. *)
Definition vec_get (v : Vector) (k : nat) : float :=
  match k with
  | O => vx v
  | S O => vy v
  | _ => vz v
  end.

Record Row4 : Type := mkRow4 { c0 : float; c1 : float; c2 : float; c3 : float }.
Record Matrix : Type := mkMatrix { r0 : Row4; r1 : Row4; r2 : Row4; r3 : Row4 }.
Record Matrix3 : Type := mkMatrix3 { q0 : Vector; q1 : Vector; q2 : Vector }.

(** [M @ v] for a 4x4 matrix and a 3D vector: the vector is extended by
    [w = 1] and the first three rows give the result. *)
Definition affine_row (r : Row4) (v : Vector) : float :=
  c0 r * vx v + c1 r * vy v + c2 r * vz v + c3 r.

Definition mat_vec (m : Matrix) (v : Vector) : Vector :=
  mkVector (affine_row (r0 m) v) (affine_row (r1 m) v) (affine_row (r2 m) v).

Definition to_3x3 (m : Matrix) : Matrix3 :=
  mkMatrix3 (mkVector (c0 (r0 m)) (c1 (r0 m)) (c2 (r0 m)))
            (mkVector (c0 (r1 m)) (c1 (r1 m)) (c2 (r1 m)))
            (mkVector (c0 (r2 m)) (c1 (r2 m)) (c2 (r2 m))).

Definition dot (a b : Vector) : float := vx a * vx b + vy a * vy b + vz a * vz b.

Definition mat3_vec (m : Matrix3) (v : Vector) : Vector :=
  mkVector (dot (q0 m) v) (dot (q1 m) v) (dot (q2 m) v).

(** ** bmesh: the editable mesh *)

Inductive Mode : Type := OBJECT | EDIT.

Definition Mode_eqb (a b : Mode) : bool :=
  match a, b with
  | OBJECT, OBJECT | EDIT, EDIT => true
  | _, _ => false
  end.

Record BMVert : Type := mkVert { co : Vector }.

(** A loop is one corner of a face: the vertex it sits on and the UV pair
    stored for that corner. *)
Record BMLoop : Type := mkLoop { vert : BMVert; uv : float * float }.

Record BMFace : Type := mkFace {
  loops : list BMLoop;
  normal : Vector;
  select : bool;
  face_material_index : Z
}.

(** [face.verts] *)
Definition face_verts (face : BMFace) : list BMVert := map vert (loops face).

Record BMesh : Type := mkBMesh { verts : list BMVert; faces : list BMFace }.

Record Material : Type := mkMaterial { mat_name : string; mat_image : option string }.

Record Object : Type := mkObject {
  mode : Mode;
  matrix_world : Matrix;
  data : BMesh;
  uv_layers : list string;
  material_slots : list (option Material);
  active_material_index : Z
}.

Definition set_select (b : bool) (face : BMFace) : BMFace :=
  mkFace (loops face) (normal face) b (face_material_index face).

Definition set_faces (obj : Object) (fs : list BMFace) : Object :=
  mkObject (mode obj) (matrix_world obj) (mkBMesh (verts (data obj)) fs)
           (uv_layers obj) (material_slots obj) (active_material_index obj).

(** [bmesh.from_edit_mesh(obj.data)] needs the object in edit mode. *)
Definition from_edit_mesh (obj : Object) : Result BMesh :=
  if Mode_eqb (mode obj) EDIT then Ok (data obj) else Raise ValueError.

(** ** SelectionParams *)

Record SelectionParams : Type := mkSelectionParams {
  type : string;
  coord : Z;
  epsilon : float;
  normal_direction : Z
}.

(** ** FaceSelector *)

Definition axis_names : list string := ["X"; "Y"; "Z"]%string.

(** World coordinate of a vertex on axis [k]: [(matrix_world @ v.co)[k]]. *)
Definition world_coord (matrix_world : Matrix) (k : nat) (v : BMVert) : float :=
  vec_get (mat_vec matrix_world (co v)) k.

(** The normal test of lines 347-356 / 372-381. *)
Definition normal_passes (matrix_world : Matrix) (k : nat) (normal_direction : Z)
                         (face : BMFace) : bool :=
  if negb (normal_direction =? 0)%Z then
    let normal_world := mat3_vec (to_3x3 matrix_world) (normal face) in
    ((0 <? normal_direction)%Z && Rltb 0 (vec_get normal_world k))
    || ((normal_direction <? 0)%Z && Rltb (vec_get normal_world k) 0)
  else true.

Definition near_max (matrix_world : Matrix) (k : nat) (max_coord epsilon : float)
                    (face : BMFace) : bool :=
  forallb (fun coord => Rleb (max_coord - epsilon) coord)
          (map (world_coord matrix_world k) (face_verts face)).

Definition near_min (matrix_world : Matrix) (k : nat) (min_coord epsilon : float)
                    (face : BMFace) : bool :=
  forallb (fun coord => Rleb coord (min_coord + epsilon))
          (map (world_coord matrix_world k) (face_verts face)).

(** The loop over [bm.faces]: a face that passes is marked and counted. *)
Fixpoint mark_faces (passes : BMFace -> bool) (fs : list BMFace) (selected_count : Z)
  : list BMFace * Z :=
  match fs with
  | [] => ([], selected_count)
  | face :: rest =>
      if passes face then
        let '(rest', n) := mark_faces passes rest (selected_count + 1)%Z in
        (set_select true face :: rest', n)
      else
        let '(rest', n) := mark_faces passes rest selected_count in
        (face :: rest', n)
  end.

(** [FaceSelector.select_faces_by_criteria].  The result pairs the object as
    the call leaves it with the returned count or the exception raised.  The
    subscript [coord_index] is checked once, by the lookup of the axis name;
    the vector subscripts after it use the same position. *)
Definition select_faces_by_criteria (obj : Object) (selection_params : SelectionParams)
  : Object * Result Z :=
  match from_edit_mesh obj with
  | Raise e => (obj, Raise e)
  | Ok bm =>
      let matrix_world := matrix_world obj in
      let cleared := map (set_select false) (faces bm) in
      let selection_type := type selection_params in
      let coord_index := coord selection_params in
      let epsilon := epsilon selection_params in
      let normal_direction := normal_direction selection_params in
      match py_position (List.length axis_names) coord_index with
      | Raise e => (set_faces obj cleared, Raise e)
      | Ok k =>
          if (selection_type =? "max_coord")%string then
            match py_max (map (world_coord matrix_world k) (verts bm)) with
            | Raise e => (set_faces obj cleared, Raise e)
            | Ok max_coord =>
                let '(fs, selected_count) :=
                  mark_faces (fun face => near_max matrix_world k max_coord epsilon face
                                          && normal_passes matrix_world k normal_direction face)
                             cleared 0%Z in
                (set_faces obj fs, Ok selected_count)
            end
          else if (selection_type =? "min_coord")%string then
            match py_min (map (world_coord matrix_world k) (verts bm)) with
            | Raise e => (set_faces obj cleared, Raise e)
            | Ok min_coord =>
                let '(fs, selected_count) :=
                  mark_faces (fun face => near_min matrix_world k min_coord epsilon face
                                          && normal_passes matrix_world k normal_direction face)
                             cleared 0%Z in
                (set_faces obj fs, Ok selected_count)
            end
          else
            (set_faces obj cleared, Ok 0%Z)
      end
  end.

(** ** Matrix inverse

    [Matrix.inverted()]: the adjugate divided by the determinant, and
    [ValueError] for a matrix without inverse. *)

Section Inverse.
Variable m : Matrix.

Let m00 := c0 (r0 m).
Let m01 := c1 (r0 m).
Let m02 := c2 (r0 m).
Let m03 := c3 (r0 m).
Let m10 := c0 (r1 m).
Let m11 := c1 (r1 m).
Let m12 := c2 (r1 m).
Let m13 := c3 (r1 m).
Let m20 := c0 (r2 m).
Let m21 := c1 (r2 m).
Let m22 := c2 (r2 m).
Let m23 := c3 (r2 m).
Let m30 := c0 (r3 m).
Let m31 := c1 (r3 m).
Let m32 := c2 (r3 m).
Let m33 := c3 (r3 m).

Let s0 := m00 * m11 - m10 * m01.
Let s1 := m00 * m12 - m10 * m02.
Let s2 := m00 * m13 - m10 * m03.
Let s3 := m01 * m12 - m11 * m02.
Let s4 := m01 * m13 - m11 * m03.
Let s5 := m02 * m13 - m12 * m03.
Let t5 := m22 * m33 - m32 * m23.
Let t4 := m21 * m33 - m31 * m23.
Let t3 := m21 * m32 - m31 * m22.
Let t2 := m20 * m33 - m30 * m23.
Let t1 := m20 * m32 - m30 * m22.
Let t0 := m20 * m31 - m30 * m21.

Definition determinant : float :=
  s0 * t5 - s1 * t4 + s2 * t3 + s3 * t2 - s4 * t1 + s5 * t0.

Definition adjugate : Matrix :=
  mkMatrix
    (mkRow4 (m11 * t5 - m12 * t4 + m13 * t3) (- m01 * t5 + m02 * t4 - m03 * t3)
            (m31 * s5 - m32 * s4 + m33 * s3) (- m21 * s5 + m22 * s4 - m23 * s3))
    (mkRow4 (- m10 * t5 + m12 * t2 - m13 * t1) (m00 * t5 - m02 * t2 + m03 * t1)
            (- m30 * s5 + m32 * s2 - m33 * s1) (m20 * s5 - m22 * s2 + m23 * s1))
    (mkRow4 (m10 * t4 - m11 * t2 + m13 * t0) (- m00 * t4 + m01 * t2 - m03 * t0)
            (m30 * s4 - m31 * s2 + m33 * s0) (- m20 * s4 + m21 * s2 - m23 * s0))
    (mkRow4 (- m10 * t3 + m11 * t1 - m12 * t0) (m00 * t3 - m01 * t1 + m02 * t0)
            (- m30 * s3 + m31 * s1 - m32 * s0) (m20 * s3 - m21 * s1 + m22 * s0)).
End Inverse.

Definition scale_row (k : float) (r : Row4) : Row4 :=
  mkRow4 (c0 r * k) (c1 r * k) (c2 r * k) (c3 r * k).

Definition inverted (m : Matrix) : Result Matrix :=
  if Reqb (determinant m) 0 then Raise ValueError
  else
    let k := / determinant m in
    let a := adjugate m in
    Ok (mkMatrix (scale_row k (r0 a)) (scale_row k (r1 a))
                 (scale_row k (r2 a)) (scale_row k (r3 a))).

Definition row_col (r : Row4) (m : Matrix) : Row4 :=
  mkRow4 (c0 r * c0 (r0 m) + c1 r * c0 (r1 m) + c2 r * c0 (r2 m) + c3 r * c0 (r3 m))
         (c0 r * c1 (r0 m) + c1 r * c1 (r1 m) + c2 r * c1 (r2 m) + c3 r * c1 (r3 m))
         (c0 r * c2 (r0 m) + c1 r * c2 (r1 m) + c2 r * c2 (r2 m) + c3 r * c2 (r3 m))
         (c0 r * c3 (r0 m) + c1 r * c3 (r1 m) + c2 r * c3 (r2 m) + c3 r * c3 (r3 m)).

Definition mat_mul (a b : Matrix) : Matrix :=
  mkMatrix (row_col (r0 a) b) (row_col (r1 a) b) (row_col (r2 a) b) (row_col (r3 a) b).

Definition identity : Matrix :=
  mkMatrix (mkRow4 1 0 0 0) (mkRow4 0 1 0 0) (mkRow4 0 0 1 0) (mkRow4 0 0 0 1).

(** ** Cameras *)

Inductive CameraType : Type := PERSP | ORTHO | PANO.

Definition CameraType_eqb (a b : CameraType) : bool :=
  match a, b with
  | PERSP, PERSP | ORTHO, ORTHO | PANO, PANO => true
  | _, _ => false
  end.

Record CameraData : Type := mkCameraData {
  cam_type : CameraType;
  sensor_width : float;
  sensor_height : float;
  lens : float
}.

Record Camera : Type := mkCamera {
  cam_name : string;
  cam_matrix_world : Matrix;
  cam_data : CameraData
}.

(** ** UVProjector: the per-corner computation *)

Definition bindR {A B : Type} (r : Result A) (k : A -> Result B) : Result B :=
  match r with
  | Ok a => k a
  | Raise e => Raise e
  end.

Notation "x <-- r ;; k" := (bindR r (fun x => k))
  (at level 61, r at next level, right associativity).

(** Lines 252-259: field of view and aspect ratio, computed for a
    perspective camera only. *)
Definition view_params (cam : CameraData) : Result (option (float * float)) :=
  if CameraType_eqb (cam_type cam) PERSP then
    q <-- truediv (sensor_width cam) (2 * lens cam) ;;
    let fov := 2 * atan q in
    aspect_ratio <-- truediv (sensor_width cam) (sensor_height cam) ;;
    Ok (Some (fov, aspect_ratio))
  else Ok None.

(** Camera-space position of a corner (lines 267-270). *)
Definition vert_view (matrix_world cam_matrix_world_inv : Matrix) (loop : BMLoop) : Vector :=
  let vert_global := mat_vec matrix_world (co (vert loop)) in
  mat_vec cam_matrix_world_inv vert_global.

(** Lines 273-291: the UV pair of one corner from its camera-space position. *)
Definition compute_uv (persp : option (float * float)) (vert_view : Vector)
  : Result (float * float) :=
  match persp with
  | Some (fov, aspect_ratio) =>
      if Rltb (vz vert_view) 0 then
        screen_x <-- truediv (vx vert_view) (- vz vert_view) ;;
        screen_y <-- truediv (vy vert_view) (- vz vert_view) ;;
        let fov_factor := tan (fov / 2) in
        du <-- truediv screen_x (2 * fov_factor * aspect_ratio) ;;
        dv <-- truediv screen_y (2 * fov_factor) ;;
        Ok (0.5 + du, 0.5 + dv)
      else Ok (0.5, 0.5)
  | None =>
      Ok (0.5 + vx vert_view / 10.0, 0.5 + vy vert_view / 10.0)
  end.

Definition set_uv (p : float * float) (loop : BMLoop) : BMLoop := mkLoop (vert loop) p.

Definition set_loops (ls : list BMLoop) (face : BMFace) : BMFace :=
  mkFace ls (normal face) (select face) (face_material_index face).

(** An in-place loop over a list whose body may raise: the items already
    visited keep their new value, the item that raised keeps what its body
    had written, the rest is untouched. *)
Fixpoint for_each {A : Type} (body : A -> A * Result unit) (l : list A)
  : list A * Result unit :=
  match l with
  | [] => ([], Ok tt)
  | a :: rest =>
      match body a with
      | (a', Ok _) => let '(rest', r) := for_each body rest in (a' :: rest', r)
      | (a', Raise e) => (a' :: rest, Raise e)
      end
  end.

Definition project_loop (matrix_world cam_matrix_world_inv : Matrix)
                        (persp : option (float * float)) (loop : BMLoop)
  : BMLoop * Result unit :=
  match compute_uv persp (vert_view matrix_world cam_matrix_world_inv loop) with
  | Ok p => (set_uv p loop, Ok tt)
  | Raise e => (loop, Raise e)
  end.

(** The body of [for face in selected_faces]; faces that are not selected
    are not in that list and stay as they are. *)
Definition project_face (matrix_world cam_matrix_world_inv : Matrix)
                        (persp : option (float * float)) (face : BMFace)
  : BMFace * Result unit :=
  if select face then
    let '(ls, r) :=
      for_each (project_loop matrix_world cam_matrix_world_inv persp) (loops face) in
    (set_loops ls face, r)
  else (face, Ok tt).

(** ** The host, the state and the script's monad *)

Inductive Event : Type :=
| OpSelectAll
| OpDelete
| OpPlyImport (filepath : string)
| OpCameraAdd (name : string)
| UVLayersNew
| SetSceneCamera (name : string)
| OpModeSet (m : Mode)
| SelectFaces
| MaterialsAppend
| MaterialsNew (name : string)
| MaterialNodes (name : string)
| ImagesLoad (filepath : string)
| SetActiveMaterialIndex (i : Z)
| OpMaterialSlotAssign
| UVProject
| OpExportGltf (filepath : string).

(** What the script cannot decide by itself: the file system, what the
    importer and the camera operator create, and which host calls raise.
    [raises e n] tells whether the host call [e] raises when [n] steps have
    been taken before it.  [uv_layer_name] is the name the host gives to a
    UV layer that it creates by itself. *)
Record Host : Type := mkHost {
  path_exists : string -> bool;
  ply_mesh : string -> option Object;
  new_camera : string -> Vector -> Vector -> Camera;
  raises : Event -> nat -> bool;
  uv_layer_name : string
}.

(** [scene_mesh] is the mesh object of the scene; the script's [mesh_obj]
    and [obj] are references to it, so the functions below read and write it
    in the state.  [trace] lists the host calls and mesh-editing steps in the
    order they were taken. *)
Record State : Type := mkState {
  scene_mesh : option Object;
  scene_camera : option Camera;
  images : list string;
  cameras : list (string * Camera);
  trace : list Event
}.

Definition M (A : Type) : Type := State -> State * Result A.

Definition ret {A : Type} (a : A) : M A := fun s => (s, Ok a).

Definition bind {A B : Type} (m : M A) (k : A -> M B) : M B :=
  fun s => match m s with
           | (s', Ok a) => k a s'
           | (s', Raise e) => (s', Raise e)
           end.

Definition raise {A : Type} (e : Exn) : M A := fun s => (s, Raise e).

(** [try: m except Exception: handler] *)
Definition try_except {A : Type} (m : M A) (handler : Exn -> M A) : M A :=
  fun s => match m s with
           | (s', Ok a) => (s', Ok a)
           | (s', Raise e) => handler e s'
           end.

Definition lift {A : Type} (r : Result A) : M A := fun s => (s, r).

Notation "x <- m ;; k" := (bind m (fun x => k))
  (at level 61, m at next level, right associativity).
Notation "m ;;; k" := (bind m (fun _ => k))
  (at level 61, right associativity).

Definition record (e : Event) : M unit :=
  fun s => (mkState (scene_mesh s) (scene_camera s) (images s) (cameras s)
                    (trace s ++ [e]), Ok tt).

Definition get_obj : M Object :=
  fun s => match scene_mesh s with
           | Some obj => (s, Ok obj)
           | None => (s, Raise AttributeError)
           end.

Definition put_mesh (o : option Object) : M unit :=
  fun s => (mkState o (scene_camera s) (images s) (cameras s) (trace s), Ok tt).

Definition put_obj (obj : Object) : M unit := put_mesh (Some obj).

Definition get_images : M (list string) := fun s => (s, Ok (images s)).

Definition put_images (l : list string) : M unit :=
  fun s => (mkState (scene_mesh s) (scene_camera s) l (cameras s) (trace s), Ok tt).

Definition get_cameras : M (list (string * Camera)) := fun s => (s, Ok (cameras s)).

Definition put_cameras (d : list (string * Camera)) : M unit :=
  fun s => (mkState (scene_mesh s) (scene_camera s) (images s) d (trace s), Ok tt).

Definition put_scene_camera (c : Camera) : M unit :=
  fun s => (mkState (scene_mesh s) (Some c) (images s) (cameras s) (trace s), Ok tt).

(** [d[key] = value] and [d.get(key)] on a dict kept in insertion order. *)
Fixpoint dict_set {V : Type} (key : string) (value : V) (d : list (string * V))
  : list (string * V) :=
  match d with
  | [] => [(key, value)]
  | (k, v) :: rest =>
      if (k =? key)%string then (k, value) :: rest
      else (k, v) :: dict_set key value rest
  end.

Fixpoint dict_get {V : Type} (key : string) (d : list (string * V)) : option V :=
  match d with
  | [] => None
  | (k, v) :: rest => if (k =? key)%string then Some v else dict_get key rest
  end.

(** ** Configuration *)

Record CameraConfig : Type := mkCameraConfig {
  name : string;
  location : Vector;
  rotation : Vector;
  selection_params : SelectionParams;
  material_index : Z;
  texture_path : string
}.

Definition DEFAULT_MATERIAL_BASENAME : string := "Material".
Definition DEFAULT_UV_MAP_NAME : string := "UVMap".

Record TextureMapper : Type := mkTextureMapper {
  input_ply : string;
  configs : list CameraConfig;
  output_glb : string
}.

Section Script.
Variable host : Host.

(** A host call: it either raises and changes nothing, or is taken. *)
Definition host_call (e : Event) : M unit :=
  fun s => if raises host e (List.length (trace s))
           then (s, Raise RuntimeError)
           else record e s.

Definition set_mode (m : Mode) (obj : Object) : Object :=
  mkObject m (matrix_world obj) (data obj) (uv_layers obj)
           (material_slots obj) (active_material_index obj).

(** [bpy.ops.object.mode_set(mode=m)] on the active object; without one
    the operator cannot run. *)
Definition mode_set (m : Mode) : M unit :=
  fun s =>
    match scene_mesh s with
    | None => (s, Raise RuntimeError)
    | Some obj => (host_call (OpModeSet m) ;;; put_obj (set_mode m obj)) s
    end.

(** *** CameraConfig.validate, TextureMapper.validate_configs *)

Definition validate (config : CameraConfig) : bool :=
  if negb (path_exists host (texture_path config)) then false else true.

Fixpoint validate_each (cs : list CameraConfig) : bool :=
  match cs with
  | [] => true
  | config :: rest => if negb (validate config) then false else validate_each rest
  end.

Definition validate_configs (self : TextureMapper) : bool :=
  if negb (path_exists host (input_ply self)) then false
  else validate_each (configs self).

(** *** BlenderHelper *)

Definition add_camera (name : string) (location rotation : Vector) : M Camera :=
  host_call (OpCameraAdd name) ;;;
  ret (new_camera host name location rotation).

(** [while len(obj.material_slots) <= material_index: append(None)], with
    the number of rounds left as the decreasing argument. *)
Fixpoint grow_slots (rounds : nat) (slots : list (option Material)) (material_index : Z)
  : M (list (option Material)) :=
  match rounds with
  | O => ret slots
  | S rounds' =>
      if (Z.of_nat (List.length slots) <=? material_index)%Z then
        record MaterialsAppend ;;;
        grow_slots rounds' (slots ++ [None]) material_index
      else ret slots
  end.

Definition set_slots (slots : list (option Material)) (obj : Object) : Object :=
  mkObject (mode obj) (matrix_world obj) (data obj) (uv_layers obj)
           slots (active_material_index obj).

Fixpoint replace_nth {A : Type} (k : nat) (a : A) (l : list A) : list A :=
  match l, k with
  | [], _ => []
  | _ :: rest, O => a :: rest
  | b :: rest, S k' => b :: replace_nth k' a rest
  end.

Definition set_slot_material (k : nat) (mat : Material) : M unit :=
  obj <- get_obj ;;
  put_obj (set_slots (replace_nth k (Some mat) (material_slots obj)) obj).

Definition setup_material_with_texture (material_index : Z) (texture_path : string)
                                       (material_name : string) : M Material :=
  obj <- get_obj ;;
  slots <- grow_slots (Z.to_nat (material_index + 1 - Z.of_nat (List.length (material_slots obj))))
                      (material_slots obj) material_index ;;
  put_obj (set_slots slots obj) ;;;
  k <- lift (py_position (List.length slots) material_index) ;;
  (match nth k slots None with
   | Some mat => set_slot_material k (mkMaterial material_name (mat_image mat))
   | None =>
       host_call (MaterialsNew material_name) ;;;
       set_slot_material k (mkMaterial material_name None)
   end) ;;;
  record (MaterialNodes material_name) ;;;
  set_slot_material k (mkMaterial material_name None) ;;;
  try_except
    (imgs <- get_images ;;
     (if existsb (fun filepath => (filepath =? texture_path)%string) imgs then ret tt
      else
        host_call (ImagesLoad texture_path) ;;;
        put_images (imgs ++ [texture_path])) ;;;
     set_slot_material k (mkMaterial material_name (Some texture_path)))
    (fun _ => ret tt) ;;;
  obj <- get_obj ;;
  match nth k (material_slots obj) None with
  | Some mat => ret mat
  | None => ret (mkMaterial material_name None)
  end.

(** *** UVProjector.project_from_view_manual *)

Definition write_uvs (cam_matrix_world_inv : Matrix) (persp : option (float * float))
  : M unit :=
  fun s =>
    match scene_mesh s with
    | None => (s, Raise AttributeError)
    | Some obj =>
        let '(fs, r) :=
          for_each (project_face (matrix_world obj) cam_matrix_world_inv persp)
                   (faces (data obj)) in
        (mkState (Some (set_faces obj fs)) (scene_camera s) (images s) (cameras s)
                 (trace s), r)
    end.

(** [bm.loops.layers.uv.verify()]: the mesh gets a UV layer when it has
    none; the layers it has are left alone. *)
Definition verify (obj : Object) : Object :=
  mkObject (mode obj) (matrix_world obj) (data obj)
           (match uv_layers obj with
            | [] => [uv_layer_name host]
            | _ :: _ => uv_layers obj
            end)
           (material_slots obj) (active_material_index obj).

Definition project_from_view_manual (camera : Camera) : M bool :=
  obj <- get_obj ;;
  (if negb (Mode_eqb (mode obj) EDIT) then mode_set EDIT else ret tt) ;;;
  obj <- get_obj ;;
  bm <- lift (from_edit_mesh obj) ;;
  put_obj (verify obj) ;;;
  let cam_data := cam_data camera in
  let cam_matrix_world := cam_matrix_world camera in
  cam_matrix_world_inv <- lift (inverted cam_matrix_world) ;;
  let selected_faces := filter select (faces bm) in
  match selected_faces with
  | [] => ret false
  | _ :: _ =>
      persp <- lift (view_params cam_data) ;;
      record UVProject ;;;
      write_uvs cam_matrix_world_inv persp ;;;
      ret true
  end.

(** *** FaceSelector, on the scene's mesh object *)

Definition select_faces (selection_params : SelectionParams) : M Z :=
  obj <- get_obj ;;
  record SelectFaces ;;;
  let '(obj', r) := select_faces_by_criteria obj selection_params in
  put_obj obj' ;;;
  lift r.

(** *** TextureMapper *)

Definition assign_material (obj : Object) : Object :=
  set_faces obj
    (map (fun face =>
            if select face
            then mkFace (loops face) (normal face) (select face) (active_material_index obj)
            else face)
         (faces (data obj))).

(** [bpy.ops.object.material_slot_assign()] *)
Definition material_slot_assign : M unit :=
  obj <- get_obj ;;
  host_call OpMaterialSlotAssign ;;;
  put_obj (assign_material obj).

Definition set_active (i : Z) (obj : Object) : Object :=
  mkObject (mode obj) (matrix_world obj) (data obj) (uv_layers obj)
           (material_slots obj) i.

(** [obj.active_material_index = i] *)
Definition set_active_material_index (i : Z) : M unit :=
  obj <- get_obj ;;
  record (SetActiveMaterialIndex i) ;;;
  put_obj (set_active i obj).

Definition add_uv_layer (layer : string) (obj : Object) : Object :=
  mkObject (mode obj) (matrix_world obj) (data obj) (uv_layers obj ++ [layer])
           (material_slots obj) (active_material_index obj).

Fixpoint add_cameras (cs : list CameraConfig) : M unit :=
  match cs with
  | [] => ret tt
  | config :: rest =>
      camera <- add_camera (name config) (location config) (rotation config) ;;
      d <- get_cameras ;;
      put_cameras (dict_set (name config) camera d) ;;;
      add_cameras rest
  end.

Definition setup_scene (self : TextureMapper) : M (option Object) :=
  try_except
    (host_call OpSelectAll ;;;
     host_call OpDelete ;;;
     put_mesh None ;;;
     host_call (OpPlyImport (input_ply self)) ;;;
     put_mesh (ply_mesh host (input_ply self)) ;;;
     add_cameras (configs self) ;;;
     fun s =>
       match scene_mesh s with
       | None => (s, Ok None)
       | Some mesh_obj =>
           match uv_layers mesh_obj with
           | [] =>
               (host_call UVLayersNew ;;;
                put_obj (add_uv_layer DEFAULT_UV_MAP_NAME mesh_obj) ;;;
                ret (Some (add_uv_layer DEFAULT_UV_MAP_NAME mesh_obj))) s
           | _ :: _ => (s, Ok (Some mesh_obj))
           end
       end)
    (fun _ => ret None).

Definition process_camera_view (config : CameraConfig) : M bool :=
  try_except
    (d <- get_cameras ;;
     match dict_get (name config) d with
     | None => ret false
     | Some camera =>
         record (SetSceneCamera (name config)) ;;;
         put_scene_camera camera ;;;
         mode_set EDIT ;;;
         selected_count <- select_faces (selection_params config) ;;
         if (selected_count =? 0)%Z then ret false
         else
           let material_name :=
             (DEFAULT_MATERIAL_BASENAME ++ "_" ++ name config)%string in
           setup_material_with_texture (material_index config) (texture_path config)
                                       material_name ;;;
           set_active_material_index (material_index config) ;;;
           material_slot_assign ;;;
           project_from_view_manual camera ;;;
           ret true
     end)
    (fun _ => ret false).

Fixpoint process_cameras (cs : list CameraConfig) : M unit :=
  match cs with
  | [] => ret tt
  | config :: rest => process_camera_view config ;;; process_cameras rest
  end.

Definition process (self : TextureMapper) : M bool :=
  try_except
    (if negb (validate_configs self) then ret false
     else
       mesh_obj <- setup_scene self ;;
       match mesh_obj with
       | None => ret false
       | Some _ =>
           process_cameras (configs self) ;;;
           mode_set OBJECT ;;;
           host_call (OpExportGltf (output_glb self)) ;;;
           ret true
       end)
    (fun _ => ret false).

(** [main] from the point where the configuration has been loaded: the
    exit code handed to [sys.exit]. *)
Definition main (self : TextureMapper) (s : State) : State * Z :=
  match process self s with
  | (s', Ok success) => (s', if success then 0%Z else 1%Z)
  | (s', Raise _) => (s', 1%Z)
  end.
End Script.

(** * Vocabulary of the properties, and example data *)

(** ** Extrema and the selection criteria *)

(** [top] is a greatest element of [l]. *)
Definition is_maximum (top : float) (l : list float) : Prop :=
  In top l /\ forall c, In c l -> c <= top.

Definition is_minimum (bottom : float) (l : list float) : Prop :=
  In bottom l /\ forall c, In c l -> bottom <= c.

Definition selection_of (passes : BMFace -> bool) (fs : list BMFace) : list BMFace :=
  map (fun face => set_select (passes face) face) fs.

Definition count_passing (passes : BMFace -> bool) (fs : list BMFace) : Z :=
  Z.of_nat (List.length (filter passes fs)).

(** A test that does not look at the selection flag. *)
Definition flag_blind (passes : BMFace -> bool) : Prop :=
  forall b face, passes (set_select b face) = passes face.

(** The test applied by the call, when there is one. *)
Definition criterion (obj : Object) (p : SelectionParams) : Result (BMFace -> bool) :=
  match py_position (List.length axis_names) (coord p) with
  | Raise e => Raise e
  | Ok k =>
      if (type p =? "max_coord")%string then
        match py_max (map (world_coord (matrix_world obj) k) (verts (data obj))) with
        | Raise e => Raise e
        | Ok max_coord =>
            Ok (fun face => near_max (matrix_world obj) k max_coord (epsilon p) face
                            && normal_passes (matrix_world obj) k (normal_direction p) face)
        end
      else if (type p =? "min_coord")%string then
        match py_min (map (world_coord (matrix_world obj) k) (verts (data obj))) with
        | Raise e => Raise e
        | Ok min_coord =>
            Ok (fun face => near_min (matrix_world obj) k min_coord (epsilon p) face
                            && normal_passes (matrix_world obj) k (normal_direction p) face)
        end
      else Ok (fun _ => false)
  end.

(** Face [i] is marked selected once the call has returned. *)
Definition selected_after (r : Object * Result Z) (i : nat) : Prop :=
  exists n face,
    snd r = Ok n /\ nth_error (faces (data (fst r))) i = Some face /\ select face = true.

(** World coordinates of all vertices of the mesh on axis [k]. *)
Definition axis_coords (obj : Object) (k : nat) : list float :=
  map (world_coord (matrix_world obj) k) (verts (data obj)).

Definition all_near_max (mw : Matrix) (k : nat) (top eps : float) (face : BMFace) : Prop :=
  forall v, In v (face_verts face) -> world_coord mw k v >= top - eps.

Definition all_near_min (mw : Matrix) (k : nat) (bottom eps : float) (face : BMFace) : Prop :=
  forall v, In v (face_verts face) -> world_coord mw k v <= bottom + eps.

(** Component of the face's world-space normal on axis [k]. *)
Definition normal_component (mw : Matrix) (k : nat) (face : BMFace) : float :=
  vec_get (mat3_vec (to_3x3 mw) (normal face)) k.

(** The normal filter: off for 0, strictly positive component for a positive
    direction, strictly negative component for a negative one. *)
Definition normal_filter (mw : Matrix) (k : nat) (nd : Z) (face : BMFace) : Prop :=
  nd = 0%Z
  \/ ((0 < nd)%Z /\ 0 < normal_component mw k face)
  \/ ((nd < 0)%Z /\ normal_component mw k face < 0).

Definition with_epsilon (t : float) (p : SelectionParams) : SelectionParams :=
  mkSelectionParams (type p) (coord p) t (normal_direction p).

Definition with_normal_direction (nd : Z) (p : SelectionParams) : SelectionParams :=
  mkSelectionParams (type p) (coord p) (epsilon p) nd.

(** The coordinate part of the criteria, for either extremum. *)
Definition coordinate_predicate (obj : Object) (p : SelectionParams) (face : BMFace) : Prop :=
  let k := Z.to_nat (coord p) in
  (type p = "max_coord"%string
   /\ exists top, is_maximum top (axis_coords obj k)
                  /\ all_near_max (matrix_world obj) k top (epsilon p) face)
  \/ (type p = "min_coord"%string
      /\ exists bottom, is_minimum bottom (axis_coords obj k)
                        /\ all_near_min (matrix_world obj) k bottom (epsilon p) face).

(** ** Example mesh

    Three triangles under the identity transform: one in the plane [z = 0]
    facing up, one in the plane [z = -2] facing down, and an upright one
    between the two planes whose normal has no [z] component. *)

Definition vtx (a b c : float) : BMVert := mkVert (mkVector a b c).

Definition corner (a b c : float) : BMLoop := mkLoop (vtx a b c) (0, 0).

Definition ex_top : BMFace :=
  mkFace [corner 0 0 0; corner 1 0 0; corner 0 1 0] (mkVector 0 0 1) false 0.

Definition ex_bottom : BMFace :=
  mkFace [corner 0 0 (-2); corner 0 1 (-2); corner 1 0 (-2)] (mkVector 0 0 (-1)) true 0.

Definition ex_side : BMFace :=
  mkFace [corner 0 0 0; corner 0 0 (-2); corner 1 0 0] (mkVector 0 (-1) 0) true 0.

Definition ex_mesh : BMesh :=
  mkBMesh [vtx 0 0 0; vtx 1 0 0; vtx 0 1 0; vtx 0 0 (-2); vtx 0 1 (-2); vtx 1 0 (-2)]
          [ex_top; ex_bottom; ex_side].

Definition ex_obj : Object := mkObject EDIT identity ex_mesh [] [] 0.

Definition ex_params (sel : string) (eps : float) (nd : Z) : SelectionParams :=
  mkSelectionParams sel 2 eps nd.

(** Unfolds the vector arithmetic on concrete data. *)
Ltac geom :=
  cbv [Z.to_nat Pos.to_nat Pos.iter_op Nat.add] in *;
  repeat (cbn in *;
          unfold affine_row, dot, normal_component, world_coord, axis_coords in *).

Definition ex_empty : Object := mkObject EDIT identity (mkBMesh [] []) [] [] 0.

(** ** The projection formula *)

(** Field of view and aspect ratio as the projection formula names them. *)
Definition fov_of (cam : CameraData) : float :=
  2 * atan (sensor_width cam / (2 * lens cam)).

Definition aspect_of (cam : CameraData) : float := sensor_width cam / sensor_height cam.

(** The perspective formula as the specification words it, for a
    camera-space position; the theorems compare [compute_uv] with it. *)
Definition projected_uv (cam : CameraData) (view_pos : Vector) : float * float :=
  (0.5 + (vx view_pos / - vz view_pos) / (2 * tan (fov_of cam / 2) * aspect_of cam),
   0.5 + (vy view_pos / - vz view_pos) / (2 * tan (fov_of cam / 2))).

(** What a perspective camera assigns to a corner: the formula in front of
    the camera, the fallback otherwise. *)
Definition persp_uv (cam : CameraData) (view_pos : Vector) : float * float :=
  if Rltb (vz view_pos) 0 then projected_uv cam view_pos else (0.5, 0.5).

Definition face_projected (cam : CameraData) (mw inv : Matrix) (face : BMFace) : BMFace :=
  if select face
  then set_loops (map (fun l => set_uv (persp_uv cam (vert_view mw inv l)) l) (loops face))
                 face
  else face.

(** The perspective cameras of the data model: positive sensor and focal
    length. *)
Definition perspective_camera (cam : CameraData) : Prop :=
  cam_type cam = PERSP /\ 0 < sensor_width cam /\ 0 < sensor_height cam /\ 0 < lens cam.

(** ** Example camera, host and scene *)

Definition translation (a b c : float) : Matrix :=
  mkMatrix (mkRow4 1 0 0 a) (mkRow4 0 1 0 b) (mkRow4 0 0 1 c) (mkRow4 0 0 0 1).

Definition default_camera_data : CameraData := mkCameraData PERSP 36 24 50.

Definition ex_camera : Camera :=
  mkCamera "Camera_Top" (translation 0 0 10) default_camera_data.

(** A selected triangle with one corner on the optical axis, one far to the
    side and one behind the camera. *)
Definition ex_wide : BMFace :=
  mkFace [corner 0 0 0; corner 100 0 0; corner 0 0 20] (mkVector 0 (-1) 0) true 0.

Definition ex_wide_obj : Object :=
  mkObject EDIT identity
           (mkBMesh [vtx 0 0 0; vtx 100 0 0; vtx 0 0 20] [ex_wide]) [] [] 0.

Definition ex_host : Host :=
  mkHost (fun _ => true)
         (fun _ => Some (set_mode OBJECT ex_obj))
         (fun name location _ =>
            mkCamera name (translation (vx location) (vy location) (vz location))
                     default_camera_data)
         (fun _ _ => false)
         "UVMap".

Definition ex_wide_state : State := mkState (Some ex_wide_obj) None [] [] [].

(** ** Invariants of the script's steps, and traces *)

(** What the steps between selection and projection leave alone: the mode,
    the transform and the geometry with its flags. *)
Definition obj_view (obj : Object) : Mode * Matrix * BMesh :=
  (mode obj, matrix_world obj, data obj).

Definition mesh_view (s : State) : option (Mode * Matrix * BMesh) :=
  option_map obj_view (scene_mesh s).

(** [m], started where the mesh looks like [v], leaves it looking like [v]
    and adds only events in [Q] to the trace. *)
Definition keeps (v : option (Mode * Matrix * BMesh)) (Q : Event -> Prop)
                 {A : Type} (m : M A) : Prop :=
  forall s s' r,
    mesh_view s = v -> m s = (s', r) ->
    mesh_view s' = v /\ exists l, trace s' = trace s ++ l /\ Forall Q l.

Definition material_event (e : Event) : Prop :=
  match e with
  | MaterialsAppend | MaterialsNew _ | MaterialNodes _ | ImagesLoad _ => True
  | _ => False
  end.

(** [m] never removes the scene's mesh object. *)
Definition stays {A : Type} (m : M A) : Prop :=
  forall s s' r, m s = (s', r) -> scene_mesh s <> None -> scene_mesh s' <> None.

(** The state after every camera has been processed in turn, whatever each
    one returned. *)
Fixpoint after_cameras (host : Host) (cs : list CameraConfig) (s : State) : State :=
  match cs with
  | [] => s
  | config :: rest => after_cameras host rest (fst (process_camera_view host config s))
  end.

(** The events added to the trace between two states. *)
Definition new_events (s s' : State) : list Event :=
  skipn (List.length (trace s)) (trace s').

(** [a] is taken at some point and [b] at a later one. *)
Definition before (a b : Event) (t : list Event) : Prop :=
  exists i j, nth_error t i = Some a /\ nth_error t j = Some b /\ (i < j)%nat.

(** The order of the claim: selection, then projection, then binding. *)
Definition select_project_bind (t : list Event) : Prop :=
  before SelectFaces UVProject t /\ before UVProject OpMaterialSlotAssign t.

(** ** Example run: one camera above the example mesh *)

Definition ex_config : CameraConfig :=
  mkCameraConfig "Camera_Top" (mkVector 0 0 10) (mkVector 0 0 0)
                 (ex_params "max_coord" 1.5 1) 0 "top.png".

Definition ex_mapper : TextureMapper :=
  mkTextureMapper "input.ply" [ex_config] "output.glb".

Definition ex_state0 : State := mkState None None [] [] [].

Definition ex_imported : Object :=
  mkObject OBJECT identity ex_mesh [DEFAULT_UV_MAP_NAME] [] 0.

(** The scene once [setup_scene] has run. *)
Definition ex_state1 : State :=
  mkState (Some ex_imported) None [] [("Camera_Top"%string, ex_camera)]
          [OpSelectAll; OpDelete; OpPlyImport "input.ply"; OpCameraAdd "Camera_Top";
           UVLayersNew].

Definition ex_selected_faces : list BMFace :=
  [set_select true ex_top; set_select false ex_bottom; set_select false ex_side].

(** A host like [ex_host] whose exporter raises. *)
Definition ex_host_export_fails : Host :=
  mkHost (path_exists ex_host) (ply_mesh ex_host) (new_camera ex_host)
         (fun e _ => match e with OpExportGltf _ => true | _ => false end)
         (uv_layer_name ex_host).

(** A host on which the texture of the example camera is missing. *)
Definition ex_host_no_texture : Host :=
  mkHost (fun path => negb (path =? "top.png")%string)
         (ply_mesh ex_host) (new_camera ex_host) (raises ex_host)
         (uv_layer_name ex_host).

(** ** Example run: two cameras that both fail *)

(** A camera whose selection type the script does not know: it selects no
    face. *)
Definition ex_skipped_config : CameraConfig :=
  mkCameraConfig "Camera_Side" (mkVector 10 0 0) (mkVector 0 0 0)
                 (ex_params "custom" 1.5 1) 1 "side.png".

Definition ex_side_camera : Camera :=
  mkCamera "Camera_Side" (translation 10 0 0) default_camera_data.

Definition ex_two_mapper : TextureMapper :=
  mkTextureMapper "input.ply" [ex_skipped_config; ex_config] "output.glb".

(** A host like [ex_host] on which the assignment of the material slot
    raises. *)
Definition ex_host_assign_fails : Host :=
  mkHost (path_exists ex_host) (ply_mesh ex_host) (new_camera ex_host)
         (fun e _ => match e with OpMaterialSlotAssign => true | _ => false end)
         (uv_layer_name ex_host).

(** The scene once [setup_scene] has run for the two cameras. *)
Definition ex_state2 : State :=
  mkState (Some ex_imported) None []
          [("Camera_Side"%string, ex_side_camera); ("Camera_Top"%string, ex_camera)]
          [OpSelectAll; OpDelete; OpPlyImport "input.ply"; OpCameraAdd "Camera_Side";
           OpCameraAdd "Camera_Top"; UVLayersNew].

(** * Further vocabulary *)

(** Every corner of the face sits on a vertex of the mesh. *)
Definition face_in_mesh (obj : Object) (face : BMFace) : Prop :=
  forall v, In v (face_verts face) -> In v (verts (data obj)).

(** The orthographic values of lines 289-291. *)
Definition ortho_uv (view_pos : Vector) : float * float :=
  (0.5 + vx view_pos / 10.0, 0.5 + vy view_pos / 10.0).

(** A face whose selected corners got the UV pair [g] gives for their
    camera-space position. *)
Definition face_with_uv (g : Vector -> float * float) (mw inv : Matrix) (face : BMFace)
  : BMFace :=
  if select face
  then set_loops (map (fun l => set_uv (g (vert_view mw inv l)) l) (loops face)) face
  else face.

(** [face'] is [face] up to the UV pairs of its corners, and is [face]
    itself when [face] is not selected. *)
Definition uv_only (face face' : BMFace) : Prop :=
  normal face' = normal face
  /\ select face' = select face
  /\ face_material_index face' = face_material_index face
  /\ map vert (loops face') = map vert (loops face)
  /\ (select face = false -> face' = face).

(** An object in edit mode with nothing selected: the example mesh once a
    [custom] selection has cleared it. *)
Definition ex_cleared_obj : Object :=
  set_faces ex_obj (map (set_select false) (faces (data ex_obj))).

Definition ex_cleared_state : State := mkState (Some ex_cleared_obj) None [] [] [].

(** The state with more steps in its trace. *)
Definition add_events (l : list Event) (s : State) : State :=
  mkState (scene_mesh s) (scene_camera s) (images s) (cameras s) (trace s ++ l).

(** Number of slots [setup_material_with_texture] has to append. *)
Definition missing_slots (slots : list (option Material)) (material_index : Z) : nat :=
  Z.to_nat (material_index + 1 - Z.of_nat (List.length slots)).

(** A host like [ex_host] on which no image can be loaded. *)
Definition ex_host_no_image : Host :=
  mkHost (path_exists ex_host) (ply_mesh ex_host) (new_camera ex_host)
         (fun e _ => match e with ImagesLoad _ => true | _ => false end)
         (uv_layer_name ex_host).

Definition ex_stone : Material := mkMaterial "Stone" (Some "stone.png"%string).

(** The example mesh with two material slots, the second one filled, and
    its image already loaded. *)
Definition ex_slots_obj : Object :=
  mkObject EDIT identity ex_mesh [DEFAULT_UV_MAP_NAME] [None; Some ex_stone] 0.

Definition ex_slots_state : State :=
  mkState (Some ex_slots_obj) None ["stone.png"%string] [] [].

(** [self.cameras] once the cameras of [cs] have been added to [d], in
    order. *)
Definition registered (host : Host) (cs : list CameraConfig) (d : list (string * Camera))
  : list (string * Camera) :=
  fold_left (fun d config =>
               dict_set (name config)
                        (new_camera host (name config) (location config) (rotation config))
                        d)
            cs d.

(** [m] adds only events in [Q] to the trace, whatever its outcome. *)
Definition emits (Q : Event -> Prop) {A : Type} (m : M A) : Prop :=
  forall s s' r, m s = (s', r) -> exists l, trace s' = trace s ++ l /\ Forall Q l.

(** The host calls of [setup_scene]. *)
Definition setup_event (e : Event) : Prop :=
  match e with
  | OpSelectAll | OpDelete | OpPlyImport _ | OpCameraAdd _ | UVLayersNew => True
  | _ => False
  end.

(** What one camera leaves on a face: the geometry is the same; a face it
    selected carries the camera's material index; a face it did not select
    keeps its material index and its UVs. *)
Definition camera_claims (material_index : Z) (face face' : BMFace) : Prop :=
  normal face' = normal face
  /\ map vert (loops face') = map vert (loops face)
  /\ (select face' = true -> face_material_index face' = material_index)
  /\ (select face' = false ->
      face_material_index face' = face_material_index face
      /\ loops face' = loops face).

(** A host like [ex_host] whose importer yields no mesh. *)
Definition ex_host_no_mesh : Host :=
  mkHost (path_exists ex_host) (fun _ => None) (new_camera ex_host) (raises ex_host)
         (uv_layer_name ex_host).

(** ** LoggerSetup.setup *)

(** The logger "blender_mapper" is one object shared by the whole process:
    [logging.getLogger] hands out the same logger at every call.  It is
    modelled by the part of it that [setup] reads and writes, and passed
    explicitly. *)
Inductive HandlerKind : Type :=
| StreamHandler
| FileHandler (filename : string).

Record Handler : Type := mkHandler {
  kind : HandlerKind;
  handler_level : Z;
  formatter : string
}.

Record Logger : Type := mkLogger {
  level : Z;
  propagate : bool;
  handlers : list Handler
}.

Definition DEBUG : Z := 10.
Definition INFO : Z := 20.

(** [setup] returns the logger, or the opening of the log file raises. *)
Inductive SetupOutcome : Type :=
| Returns
| RaisesOSError.

(** Truth value of an optional string: [None] and the empty string are
    false. *)
Definition truthy (log_file : option string) : bool :=
  match log_file with
  | None => false
  | Some EmptyString => false
  | Some _ => true
  end.

(** [can_open] says whether [logging.FileHandler] can open the file.  The
    logger is changed in place, so that the changes made before an
    exception stay. *)
Definition setup (can_open : string -> bool) (lvl : Z) (log_file : option string)
           (logger : Logger) : Logger * SetupOutcome :=
  match handlers logger with
  | _ :: _ => (logger, Returns)
  | [] =>
      let console_handler :=
        mkHandler StreamHandler lvl "%(asctime)s - %(levelname)s - %(message)s" in
      let logger1 := mkLogger lvl false (handlers logger ++ [console_handler]) in
      match log_file with
      | Some filename =>
          if truthy log_file then
            if can_open filename then
              let file_handler :=
                mkHandler (FileHandler filename) lvl
                          "%(asctime)s - %(levelname)s - %(name)s - %(message)s" in
              (mkLogger lvl false (handlers logger1 ++ [file_handler]), Returns)
            else (logger1, RaisesOSError)
          else (logger1, Returns)
      | None => (logger1, Returns)
      end
  end.

(** The module-level [logger = LoggerSetup.setup()], run when the script is
    loaded. *)
Definition module_logger (can_open : string -> bool) (logger : Logger) : Logger :=
  fst (setup can_open INFO None logger).

(** The call in [main], from the parsed [--verbose] and [--log]. *)
Definition main_logger (can_open : string -> bool) (verbose : bool)
           (log : option string) (logger : Logger) : Logger * SetupOutcome :=
  let log_level := if verbose then DEBUG else INFO in
  setup can_open log_level log logger.

(** A logger nobody has configured: level NOTSET, propagating, no handler. *)
Definition ex_fresh_logger : Logger := mkLogger 0 true [].

(** * Properties *)

(** ** The inverse is a left inverse *)


Lemma Reqb_false (a b : float) : a <> b -> Reqb a b = false.
Proof. intros H. unfold Reqb. destruct (Req_dec_T a b); [contradiction | reflexivity]. Qed.

Lemma inverted_left (m m' : Matrix) :
  inverted m = Ok m' -> mat_mul m' m = identity.
Proof.
  unfold inverted. destruct m as [[a00 a01 a02 a03] [a10 a11 a12 a13]
                                  [a20 a21 a22 a23] [a30 a31 a32 a33]].
  unfold Reqb. destruct (Req_dec_T _ _) as [E | N]; [discriminate |].
  intros H. injection H as <-.
  unfold mat_mul, row_col, identity, scale_row, adjugate, determinant in *.
  cbn in *. f_equal; f_equal; field; exact N.
Qed.

(** ** Comparisons and extrema *)

Lemma Rleb_true_iff (a b : float) : Rleb a b = true <-> a <= b.
Proof. unfold Rleb. destruct (Rle_dec a b); split; intros; (discriminate || tauto). Qed.

Lemma Rltb_true_iff (a b : float) : Rltb a b = true <-> a < b.
Proof. unfold Rltb. destruct (Rlt_dec a b); split; intros; (discriminate || tauto). Qed.

Lemma Rltb_false_iff (a b : float) : Rltb a b = false <-> b <= a.
Proof.
  unfold Rltb. destruct (Rlt_dec a b); split; intros; try discriminate; lra || reflexivity.
Qed.

Lemma fold_max_spec (rest : list float) (first : float) :
  is_maximum (fold_left (fun maxval item => if Rltb maxval item then item else maxval)
                        rest first)
             (first :: rest).
Proof.
  revert first. induction rest as [| item rest IH]; intros first; cbn [fold_left].
  - split; [now left | intros c [<- | []]; lra].
  - destruct (Rltb first item) eqn:E.
    + apply Rltb_true_iff in E. destruct (IH item) as [Hin Hub]. split.
      * destruct Hin as [<- | Hin]; [right; now left | right; now right].
      * intros c [<- | [<- | Hc]].
        -- specialize (Hub item (or_introl eq_refl)). lra.
        -- apply Hub. now left.
        -- apply Hub. now right.
    + apply Rltb_false_iff in E. destruct (IH first) as [Hin Hub]. split.
      * destruct Hin as [<- | Hin]; [now left | right; now right].
      * intros c [<- | [<- | Hc]].
        -- apply Hub. now left.
        -- specialize (Hub first (or_introl eq_refl)). lra.
        -- apply Hub. now right.
Qed.

Lemma fold_min_spec (rest : list float) (first : float) :
  is_minimum (fold_left (fun minval item => if Rltb item minval then item else minval)
                        rest first)
             (first :: rest).
Proof.
  revert first. induction rest as [| item rest IH]; intros first; cbn [fold_left].
  - split; [now left | intros c [<- | []]; lra].
  - destruct (Rltb item first) eqn:E.
    + apply Rltb_true_iff in E. destruct (IH item) as [Hin Hlb]. split.
      * destruct Hin as [<- | Hin]; [right; now left | right; now right].
      * intros c [<- | [<- | Hc]].
        -- specialize (Hlb item (or_introl eq_refl)). lra.
        -- apply Hlb. now left.
        -- apply Hlb. now right.
    + apply Rltb_false_iff in E. destruct (IH first) as [Hin Hlb]. split.
      * destruct Hin as [<- | Hin]; [now left | right; now right].
      * intros c [<- | [<- | Hc]].
        -- apply Hlb. now left.
        -- specialize (Hlb first (or_introl eq_refl)). lra.
        -- apply Hlb. now right.
Qed.

Lemma py_max_spec (l : list float) (top : float) :
  py_max l = Ok top -> is_maximum top l.
Proof.
  destruct l as [| first rest]; cbn; [discriminate |].
  intros H. injection H as <-. apply fold_max_spec.
Qed.

Lemma py_min_spec (l : list float) (bottom : float) :
  py_min l = Ok bottom -> is_minimum bottom l.
Proof.
  destruct l as [| first rest]; cbn; [discriminate |].
  intros H. injection H as <-. apply fold_min_spec.
Qed.

Lemma is_maximum_unique (a b : float) (l : list float) :
  is_maximum a l -> is_maximum b l -> a = b.
Proof. intros [Ha Ua] [Hb Ub]. apply Rle_antisym; auto. Qed.

Lemma is_minimum_unique (a b : float) (l : list float) :
  is_minimum a l -> is_minimum b l -> a = b.
Proof. intros [Ha Ua] [Hb Ub]. apply Rle_antisym; auto. Qed.

Lemma py_max_nonempty (l : list float) : l <> [] -> exists top, py_max l = Ok top.
Proof. destruct l; [congruence | intros _; cbn; eauto]. Qed.

Lemma py_min_nonempty (l : list float) : l <> [] -> exists bottom, py_min l = Ok bottom.
Proof. destruct l; [congruence | intros _; cbn; eauto]. Qed.

Lemma py_position_axis (i : Z) :
  (0 <= i <= 2)%Z -> py_position (List.length axis_names) i = Ok (Z.to_nat i).
Proof.
  intros H. unfold py_position. cbn [axis_names List.length].
  replace ((0 <=? i) && (i <? Z.of_nat 3))%Z with true; [reflexivity |].
  symmetry. apply andb_true_iff. split; [apply Z.leb_le | apply Z.ltb_lt]; lia.
Qed.

(** ** The selection loop in closed form *)

Lemma mark_faces_spec (passes : BMFace -> bool) (fs : list BMFace) (n : Z) :
  mark_faces passes fs n
  = (map (fun face => if passes face then set_select true face else face) fs,
     (n + count_passing passes fs)%Z).
Proof.
  unfold count_passing. revert n. induction fs as [| face rest IH]; intros n; cbn.
  - f_equal. lia.
  - destruct (passes face); rewrite IH; cbn [List.length]; f_equal; lia.
Qed.

Lemma mark_cleared (passes : BMFace -> bool) (fs : list BMFace) :
  flag_blind passes ->
  mark_faces passes (map (set_select false) fs) 0
  = (selection_of passes fs, count_passing passes fs).
Proof.
  intros Hb. rewrite mark_faces_spec. unfold selection_of, count_passing. f_equal.
  - rewrite map_map. apply map_ext. intros face. rewrite Hb.
    destruct (passes face); reflexivity.
  - cbn. f_equal. induction fs as [| face rest IH]; cbn; [reflexivity |].
    rewrite Hb. destruct (passes face); cbn; congruence.
Qed.

Lemma count_selection_of (passes : BMFace -> bool) (fs : list BMFace) :
  Z.of_nat (List.length (filter select (selection_of passes fs))) = count_passing passes fs.
Proof.
  unfold count_passing, selection_of. f_equal.
  induction fs as [| face rest IH]; cbn; [reflexivity |].
  destruct (passes face); cbn; congruence.
Qed.

Lemma nth_error_selection_of (passes : BMFace -> bool) (fs : list BMFace) (i : nat) :
  nth_error (selection_of passes fs) i
  = option_map (fun face => set_select (passes face) face) (nth_error fs i).
Proof. unfold selection_of. apply nth_error_map. Qed.

Lemma selection_of_none (fs : list BMFace) :
  selection_of (fun _ => false) fs = map (set_select false) fs.
Proof. reflexivity. Qed.

Lemma count_passing_none (fs : list BMFace) : count_passing (fun _ => false) fs = 0%Z.
Proof. unfold count_passing. induction fs; cbn; auto. Qed.

Lemma select_faces_by_criteria_eq (obj : Object) (p : SelectionParams) :
  select_faces_by_criteria obj p =
  match mode obj with
  | OBJECT => (obj, Raise ValueError)
  | EDIT =>
      match criterion obj p with
      | Ok passes => (set_faces obj (selection_of passes (faces (data obj))),
                      Ok (count_passing passes (faces (data obj))))
      | Raise e => (set_faces obj (map (set_select false) (faces (data obj))), Raise e)
      end
  end.
Proof.
  unfold select_faces_by_criteria, from_edit_mesh, criterion.
  destruct (mode obj); cbn [Mode_eqb]; [reflexivity |].
  destruct (py_position _ _) as [k | e]; [| reflexivity].
  destruct (type p =? "max_coord")%string.
  - destruct (py_max _) as [top | e]; [| reflexivity].
    rewrite mark_cleared; [reflexivity | intros b face; reflexivity].
  - destruct (type p =? "min_coord")%string.
    + destruct (py_min _) as [bottom | e]; [| reflexivity].
      rewrite mark_cleared; [reflexivity | intros b face; reflexivity].
    + rewrite selection_of_none, count_passing_none. reflexivity.
Qed.

(** ** What the selection claims speak about *)

Lemma near_max_iff mw k top eps face :
  near_max mw k top eps face = true <-> all_near_max mw k top eps face.
Proof.
  unfold near_max, all_near_max. rewrite forallb_forall. split.
  - intros H v Hv. specialize (H _ (in_map _ _ _ Hv)). apply Rleb_true_iff in H. lra.
  - intros H c Hc. apply in_map_iff in Hc as [v [<- Hv]].
    apply Rleb_true_iff. specialize (H v Hv). lra.
Qed.

Lemma near_min_iff mw k bottom eps face :
  near_min mw k bottom eps face = true <-> all_near_min mw k bottom eps face.
Proof.
  unfold near_min, all_near_min. rewrite forallb_forall. split.
  - intros H v Hv. specialize (H _ (in_map _ _ _ Hv)). now apply Rleb_true_iff in H.
  - intros H c Hc. apply in_map_iff in Hc as [v [<- Hv]].
    apply Rleb_true_iff. exact (H v Hv).
Qed.

Lemma normal_passes_iff mw k nd face :
  normal_passes mw k nd face = true <-> normal_filter mw k nd face.
Proof.
  unfold normal_passes, normal_filter, normal_component.
  destruct (Z.eqb_spec nd 0) as [-> | Hnd]; cbn [negb].
  - split; [now left | reflexivity].
  - rewrite orb_true_iff, !andb_true_iff, !Z.ltb_lt, !Rltb_true_iff. tauto.
Qed.

Lemma selected_after_iff (obj : Object) (p : SelectionParams) (i : nat) :
  selected_after (select_faces_by_criteria obj p) i
  <-> mode obj = EDIT
      /\ exists passes face,
           criterion obj p = Ok passes
           /\ nth_error (faces (data obj)) i = Some face
           /\ passes face = true.
Proof.
  rewrite select_faces_by_criteria_eq. unfold selected_after. split.
  - intros (n & face' & Hr & Hnth & Hsel).
    destruct (mode obj); cbn in Hr; [discriminate |].
    split; [reflexivity |].
    destruct (criterion obj p) as [passes | e]; cbn in Hr, Hnth; [| discriminate].
    rewrite nth_error_selection_of in Hnth.
    destruct (nth_error (faces (data obj)) i) as [face |]; cbn in Hnth; [| discriminate].
    injection Hnth as <-. cbn in Hsel. eauto.
  - intros (-> & passes & face & -> & Hnth & Hp). cbn.
    exists (count_passing passes (faces (data obj))), (set_select (passes face) face).
    rewrite nth_error_selection_of, Hnth. cbn. auto.
Qed.

Lemma criterion_max (obj : Object) (p : SelectionParams) (top : float) :
  (0 <= coord p <= 2)%Z -> type p = "max_coord"%string ->
  is_maximum top (axis_coords obj (Z.to_nat (coord p))) ->
  criterion obj p
  = Ok (fun face =>
          near_max (matrix_world obj) (Z.to_nat (coord p)) top (epsilon p) face
          && normal_passes (matrix_world obj) (Z.to_nat (coord p)) (normal_direction p) face).
Proof.
  intros Hc Ht Hmax. unfold criterion. rewrite py_position_axis by assumption.
  rewrite Ht. cbn [String.eqb Ascii.eqb Bool.eqb].
  fold (axis_coords obj (Z.to_nat (coord p))).
  destruct (py_max_nonempty (axis_coords obj (Z.to_nat (coord p)))) as [top' E].
  - destruct Hmax as [Hin _]. intros Hnil. rewrite Hnil in Hin. exact Hin.
  - rewrite E. apply py_max_spec in E.
    rewrite (is_maximum_unique _ _ _ E Hmax). reflexivity.
Qed.

Lemma criterion_min (obj : Object) (p : SelectionParams) (bottom : float) :
  (0 <= coord p <= 2)%Z -> type p = "min_coord"%string ->
  is_minimum bottom (axis_coords obj (Z.to_nat (coord p))) ->
  criterion obj p
  = Ok (fun face =>
          near_min (matrix_world obj) (Z.to_nat (coord p)) bottom (epsilon p) face
          && normal_passes (matrix_world obj) (Z.to_nat (coord p)) (normal_direction p) face).
Proof.
  intros Hc Ht Hmin. unfold criterion. rewrite py_position_axis by assumption.
  rewrite Ht. cbn [String.eqb Ascii.eqb Bool.eqb].
  fold (axis_coords obj (Z.to_nat (coord p))).
  destruct (py_min_nonempty (axis_coords obj (Z.to_nat (coord p)))) as [bottom' E].
  - destruct Hmin as [Hin _]. intros Hnil. rewrite Hnil in Hin. exact Hin.
  - rewrite E. apply py_min_spec in E.
    rewrite (is_minimum_unique _ _ _ E Hmin). reflexivity.
Qed.

(** Selection by maximum, as a predicate on the faces before the call. *)
Lemma selected_after_max (obj : Object) (p : SelectionParams) (top : float) (i : nat) :
  mode obj = EDIT -> (0 <= coord p <= 2)%Z -> type p = "max_coord"%string ->
  is_maximum top (axis_coords obj (Z.to_nat (coord p))) ->
  (selected_after (select_faces_by_criteria obj p) i
   <-> exists face,
         nth_error (faces (data obj)) i = Some face
         /\ all_near_max (matrix_world obj) (Z.to_nat (coord p)) top (epsilon p) face
         /\ normal_filter (matrix_world obj) (Z.to_nat (coord p)) (normal_direction p) face).
Proof.
  intros Hm Hc Ht Hmax. rewrite selected_after_iff.
  rewrite (criterion_max obj p top Hc Ht Hmax). split.
  - intros (_ & passes & face & E & Hnth & Hp). injection E as <-.
    apply andb_true_iff in Hp as [H1 H2].
    exists face. rewrite <- near_max_iff, <- normal_passes_iff. auto.
  - intros (face & Hnth & H1 & H2). split; [assumption |].
    eexists. exists face. split; [reflexivity |]. split; [assumption |].
    apply andb_true_iff. rewrite near_max_iff, normal_passes_iff. auto.
Qed.

Lemma selected_after_min (obj : Object) (p : SelectionParams) (bottom : float) (i : nat) :
  mode obj = EDIT -> (0 <= coord p <= 2)%Z -> type p = "min_coord"%string ->
  is_minimum bottom (axis_coords obj (Z.to_nat (coord p))) ->
  (selected_after (select_faces_by_criteria obj p) i
   <-> exists face,
         nth_error (faces (data obj)) i = Some face
         /\ all_near_min (matrix_world obj) (Z.to_nat (coord p)) bottom (epsilon p) face
         /\ normal_filter (matrix_world obj) (Z.to_nat (coord p)) (normal_direction p) face).
Proof.
  intros Hm Hc Ht Hmin. rewrite selected_after_iff.
  rewrite (criterion_min obj p bottom Hc Ht Hmin). split.
  - intros (_ & passes & face & E & Hnth & Hp). injection E as <-.
    apply andb_true_iff in Hp as [H1 H2].
    exists face. rewrite <- near_min_iff, <- normal_passes_iff. auto.
  - intros (face & Hnth & H1 & H2). split; [assumption |].
    eexists. exists face. split; [reflexivity |]. split; [assumption |].
    apply andb_true_iff. rewrite near_min_iff, normal_passes_iff. auto.
Qed.

(** The call returns whenever the mesh is in edit mode, the axis is one of
    0, 1, 2 and, for the two extremum types, the mesh has a vertex. *)
Lemma select_returns (obj : Object) (p : SelectionParams) :
  mode obj = EDIT -> (0 <= coord p <= 2)%Z ->
  (verts (data obj) <> []
   \/ (type p <> "max_coord"%string /\ type p <> "min_coord"%string)) ->
  exists passes,
    criterion obj p = Ok passes
    /\ select_faces_by_criteria obj p
       = (set_faces obj (selection_of passes (faces (data obj))),
          Ok (count_passing passes (faces (data obj)))).
Proof.
  intros Hm Hc Hv. rewrite select_faces_by_criteria_eq, Hm.
  assert (exists passes, criterion obj p = Ok passes) as [passes E].
  { unfold criterion. rewrite py_position_axis by assumption.
    destruct (String.eqb_spec (type p) "max_coord") as [E1 | N1].
    - destruct Hv as [Hv | [Hv _]]; [| contradiction].
      destruct (py_max_nonempty (map (world_coord (matrix_world obj) (Z.to_nat (coord p)))
                                     (verts (data obj)))) as [top ->]; eauto.
      intros H. apply map_eq_nil in H. contradiction.
    - destruct (String.eqb_spec (type p) "min_coord") as [E2 | N2]; eauto.
      destruct Hv as [Hv | [_ Hv]]; [| contradiction].
      destruct (py_min_nonempty (map (world_coord (matrix_world obj) (Z.to_nat (coord p)))
                                     (verts (data obj)))) as [bottom ->]; eauto.
      intros H. apply map_eq_nil in H. contradiction. }
  exists passes. rewrite E. auto.
Qed.

Lemma selection_of_flags (passes : BMFace -> bool) (fs : list BMFace) :
  map (set_select false) (selection_of passes fs) = map (set_select false) fs.
Proof. unfold selection_of. rewrite map_map. reflexivity. Qed.

(** ** Facts about the example mesh *)

Lemma ex_maximum : is_maximum 0 (axis_coords ex_obj 2).
Proof.
  split; geom.
  - left. lra.
  - intros c H. repeat (destruct H as [<- | H]; [lra |]). destruct H.
Qed.

Lemma ex_minimum : is_minimum (-2) (axis_coords ex_obj 2).
Proof.
  split; geom.
  - do 3 right. left. lra.
  - intros c H. repeat (destruct H as [<- | H]; [lra |]). destruct H.
Qed.

Lemma ex_top_near_max (eps : float) :
  0 <= eps -> all_near_max (matrix_world ex_obj) 2 0 eps ex_top.
Proof.
  intros He v H. cbn in H.
  repeat (destruct H as [<- | H]; [geom; lra |]). destruct H.
Qed.

Lemma ex_side_near_max (eps : float) :
  2 <= eps -> all_near_max (matrix_world ex_obj) 2 0 eps ex_side.
Proof.
  intros He v H. cbn in H.
  repeat (destruct H as [<- | H]; [geom; lra |]). destruct H.
Qed.

Lemma ex_top_selected (eps : float) (nd : Z) :
  0 <= eps -> (0 <= nd)%Z ->
  selected_after (select_faces_by_criteria ex_obj (ex_params "max_coord" eps nd)) 0.
Proof.
  intros He Hnd.
  apply (selected_after_max ex_obj (ex_params "max_coord" eps nd) 0 0);
    try reflexivity; [cbn; lia | exact ex_maximum |].
  exists ex_top. split; [reflexivity |]. split; [now apply ex_top_near_max |].
  unfold normal_filter. geom.
  destruct (Z.eq_dec nd 0); [now left | right; left; split; [lia | lra]].
Qed.

(** ** Claims on face selection *)

(** C1. After [select_faces_by_criteria] returns for a [max_coord] criteria,
    the selected faces are exactly the faces all of whose vertices have their
    world coordinate on the chosen axis at least the maximum of that
    coordinate over all vertices of the mesh minus epsilon, and which pass
    the normal filter; the flags the faces had before play no part, and
    nothing but the flags changes.  The same with the minimum plus epsilon
    for [min_coord]. *)
Theorem select_faces_extremum_exact (obj : Object) (p : SelectionParams) :
  mode obj = EDIT -> (0 <= coord p <= 2)%Z -> verts (data obj) <> [] ->
  let k := Z.to_nat (coord p) in
  let mw := matrix_world obj in
  (type p = "max_coord"%string ->
   exists top obj' n,
     is_maximum top (axis_coords obj k)
     /\ select_faces_by_criteria obj p = (obj', Ok n)
     /\ map (set_select false) (faces (data obj')) = map (set_select false) (faces (data obj))
     /\ forall i,
          selected_after (obj', Ok n) i
          <-> exists face,
                nth_error (faces (data obj)) i = Some face
                /\ all_near_max mw k top (epsilon p) face
                /\ normal_filter mw k (normal_direction p) face)
  /\ (type p = "min_coord"%string ->
      exists bottom obj' n,
        is_minimum bottom (axis_coords obj k)
        /\ select_faces_by_criteria obj p = (obj', Ok n)
        /\ map (set_select false) (faces (data obj')) = map (set_select false) (faces (data obj))
        /\ forall i,
             selected_after (obj', Ok n) i
             <-> exists face,
                   nth_error (faces (data obj)) i = Some face
                   /\ all_near_min mw k bottom (epsilon p) face
                   /\ normal_filter mw k (normal_direction p) face).
Proof.
  intros Hm Hc Hv k mw.
  destruct (select_returns obj p Hm Hc (or_introl Hv)) as (passes & Hcrit & Hsel).
  assert (Hne : axis_coords obj k <> []).
  { unfold axis_coords. intros H. apply map_eq_nil in H. contradiction. }
  split; intros Ht.
  - destruct (py_max_nonempty _ Hne) as [top Htop]. apply py_max_spec in Htop.
    exists top. do 2 eexists. split; [exact Htop |]. split; [exact Hsel |].
    split; [cbn; apply selection_of_flags |].
    intros i. rewrite <- Hsel. apply selected_after_max; assumption.
  - destruct (py_min_nonempty _ Hne) as [bottom Hbot]. apply py_min_spec in Hbot.
    exists bottom. do 2 eexists. split; [exact Hbot |]. split; [exact Hsel |].
    split; [cbn; apply selection_of_flags |].
    intros i. rewrite <- Hsel. apply selected_after_min; assumption.
Qed.

Lemma select_faces_extremum_exact_witness :
  (exists obj' n,
     select_faces_by_criteria ex_obj (ex_params "max_coord" 1 1) = (obj', Ok n)
     /\ selected_after (obj', Ok n) 0
     /\ ~ selected_after (obj', Ok n) 1)
  /\ (exists obj' n,
        select_faces_by_criteria ex_obj (ex_params "min_coord" 1 (-1)) = (obj', Ok n)
        /\ selected_after (obj', Ok n) 1
        /\ ~ selected_after (obj', Ok n) 0).
Proof.
  split.
  - destruct (select_faces_extremum_exact ex_obj (ex_params "max_coord" 1 1))
      as [Hmax _]; [reflexivity | cbn; lia | discriminate |].
    destruct (Hmax eq_refl) as (top & obj' & n & Htop & Hsel & _ & Hiff).
    assert (top = 0) as -> by exact (is_maximum_unique _ _ _ Htop ex_maximum).
    exists obj', n. split; [exact Hsel |]. split.
    + apply Hiff. exists ex_top. split; [reflexivity |].
      split; [apply ex_top_near_max; cbn; lra |].
      right; left. geom. split; [lia | lra].
    + intros H. apply Hiff in H as (face & Hnth & Hnear & _).
      injection Hnth as <-.
      specialize (Hnear (vtx 0 0 (-2)) (or_introl eq_refl)). geom. lra.
  - destruct (select_faces_extremum_exact ex_obj (ex_params "min_coord" 1 (-1)))
      as [_ Hmin]; [reflexivity | cbn; lia | discriminate |].
    destruct (Hmin eq_refl) as (bottom & obj' & n & Hbot & Hsel & _ & Hiff).
    assert (bottom = -2) as -> by exact (is_minimum_unique _ _ _ Hbot ex_minimum).
    exists obj', n. split; [exact Hsel |]. split.
    + apply Hiff. exists ex_bottom. split; [reflexivity |]. split.
      * intros v H. cbn in H.
        repeat (destruct H as [<- | H]; [geom; lra |]). destruct H.
      * right; right. geom. split; [lia | lra].
    + intros H. apply Hiff in H as (face & Hnth & Hnear & _).
      injection Hnth as <-.
      specialize (Hnear (vtx 0 0 0) (or_introl eq_refl)). geom. lra.
Defined.

(** C7. Selection is monotone in the tolerance: a face selected with
    tolerance [t1] is selected with any tolerance [t2 >= t1], the criteria
    being otherwise the same. *)
Theorem selection_monotone_in_tolerance
        (obj : Object) (p : SelectionParams) (t1 t2 : float) (i : nat) :
  t1 <= t2 ->
  selected_after (select_faces_by_criteria obj (with_epsilon t1 p)) i ->
  selected_after (select_faces_by_criteria obj (with_epsilon t2 p)) i.
Proof.
  intros Ht. rewrite !selected_after_iff.
  intros (Hm & passes & face & Hcrit & Hnth & Hp). split; [assumption |].
  unfold criterion in *. cbn [with_epsilon coord type epsilon normal_direction] in *.
  destruct (py_position _ _) as [k | e]; [| discriminate].
  destruct (type p =? "max_coord")%string.
  - destruct (py_max _) as [top | e]; [| discriminate].
    injection Hcrit as <-. eexists. exists face.
    split; [reflexivity |]. split; [assumption |].
    apply andb_true_iff in Hp as [H1 H2]. apply andb_true_iff. split; [| assumption].
    apply near_max_iff. apply near_max_iff in H1.
    intros v Hv. specialize (H1 v Hv). lra.
  - destruct (type p =? "min_coord")%string.
    + destruct (py_min _) as [bottom | e]; [| discriminate].
      injection Hcrit as <-. eexists. exists face.
      split; [reflexivity |]. split; [assumption |].
      apply andb_true_iff in Hp as [H1 H2]. apply andb_true_iff. split; [| assumption].
      apply near_min_iff. apply near_min_iff in H1.
      intros v Hv. specialize (H1 v Hv). lra.
    + injection Hcrit as <-. discriminate.
Qed.

Lemma selection_monotone_in_tolerance_witness :
  0 <= 3
  /\ selected_after (select_faces_by_criteria ex_obj (ex_params "max_coord" 0 1)) 0
  /\ selected_after (select_faces_by_criteria ex_obj (ex_params "max_coord" 3 1)) 0.
Proof.
  assert (H0 : selected_after
                 (select_faces_by_criteria ex_obj (ex_params "max_coord" 0 1)) 0)
    by (apply ex_top_selected; [lra | lia]).
  split; [lra |]. split; [exact H0 |].
  apply (selection_monotone_in_tolerance ex_obj (ex_params "max_coord" 0 1) 0 3 0);
    [lra | exact H0].
Defined.

(** C8. With the normal filter off ([normal_direction = 0]) the call selects
    every face it selects with the filter on, whichever sign the filter asks
    for.  A face whose world-space normal has component exactly zero on the
    chosen axis is selected under no non-zero [normal_direction], and is
    selected with the filter off as soon as the coordinate predicate holds. *)
Theorem ignore_selects_superset (obj : Object) (p : SelectionParams) (i : nat) :
  let ignore := with_normal_direction 0 p in
  let k := Z.to_nat (coord p) in
  (selected_after (select_faces_by_criteria obj p) i ->
   selected_after (select_faces_by_criteria obj ignore) i)
  /\ (forall face,
        (0 <= coord p <= 2)%Z ->
        nth_error (faces (data obj)) i = Some face ->
        normal_component (matrix_world obj) k face = 0 ->
        (normal_direction p <> 0%Z ->
         ~ selected_after (select_faces_by_criteria obj p) i)
        /\ (mode obj = EDIT -> coordinate_predicate obj p face ->
            selected_after (select_faces_by_criteria obj ignore) i)).
Proof.
  intros ignore k. split.
  - rewrite !selected_after_iff.
    intros (Hm & passes & face & Hcrit & Hnth & Hp). split; [assumption |].
    unfold criterion in *. subst ignore.
    cbn [with_normal_direction coord type epsilon normal_direction] in *.
    destruct (py_position _ _) as [k' | e]; [| discriminate].
    destruct (type p =? "max_coord")%string.
    + destruct (py_max _) as [top | e]; [| discriminate].
      injection Hcrit as <-. eexists. exists face.
      split; [reflexivity |]. split; [assumption |].
      apply andb_true_iff in Hp as [H1 _]. rewrite H1. reflexivity.
    + destruct (type p =? "min_coord")%string.
      * destruct (py_min _) as [bottom | e]; [| discriminate].
        injection Hcrit as <-. eexists. exists face.
        split; [reflexivity |]. split; [assumption |].
        apply andb_true_iff in Hp as [H1 _]. rewrite H1. reflexivity.
      * injection Hcrit as <-. discriminate.
  - intros face Hc Hnth Hzero. split.
    + intros Hnd Hsel. apply selected_after_iff in Hsel
        as (_ & passes & face' & Hcrit & Hnth' & Hp).
      rewrite Hnth in Hnth'. injection Hnth' as <-.
      assert (Hn : normal_passes (matrix_world obj) k (normal_direction p) face = false).
      { apply not_true_is_false. intros H. apply normal_passes_iff in H.
        destruct H as [H | [[_ H] | [_ H]]]; [contradiction | |];
          rewrite Hzero in H; lra. }
      unfold criterion in Hcrit. rewrite py_position_axis in Hcrit by assumption.
      fold k in Hcrit.
      destruct (type p =? "max_coord")%string.
      * destruct (py_max _) as [top | e]; [| discriminate].
        injection Hcrit as <-. rewrite Hn, andb_false_r in Hp. discriminate.
      * destruct (type p =? "min_coord")%string.
        -- destruct (py_min _) as [bottom | e]; [| discriminate].
           injection Hcrit as <-. rewrite Hn, andb_false_r in Hp. discriminate.
        -- injection Hcrit as <-. discriminate.
    + intros Hm [[Ht (top & Htop & Hnear)] | [Ht (bottom & Hbot & Hnear)]].
      * apply (selected_after_max obj ignore top i Hm Hc Ht Htop).
        exists face. split; [assumption |]. split; [exact Hnear | now left].
      * apply (selected_after_min obj ignore bottom i Hm Hc Ht Hbot).
        exists face. split; [assumption |]. split; [exact Hnear | now left].
Qed.

Lemma ignore_selects_superset_witness :
  ~ selected_after (select_faces_by_criteria ex_obj (ex_params "max_coord" 3 1)) 2
  /\ ~ selected_after (select_faces_by_criteria ex_obj (ex_params "max_coord" 3 (-1))) 2
  /\ selected_after (select_faces_by_criteria ex_obj (ex_params "max_coord" 3 0)) 2
  /\ selected_after (select_faces_by_criteria ex_obj (ex_params "max_coord" 3 0)) 0.
Proof.
  assert (Hz : normal_component (matrix_world ex_obj) 2 ex_side = 0) by (geom; lra).
  assert (Hcp : forall nd, coordinate_predicate ex_obj (ex_params "max_coord" 3 nd) ex_side).
  { intros nd. left. split; [reflexivity |]. exists 0.
    split; [exact ex_maximum | apply ex_side_near_max; cbn; lra]. }
  destruct (ignore_selects_superset ex_obj (ex_params "max_coord" 3 1) 2) as [_ Hpos].
  destruct (ignore_selects_superset ex_obj (ex_params "max_coord" 3 (-1)) 2) as [_ Hneg].
  destruct (ignore_selects_superset ex_obj (ex_params "max_coord" 3 1) 0) as [Hsup _].
  destruct (Hpos ex_side) as [Hrej1 Hacc]; [cbn; lia | reflexivity | exact Hz |].
  destruct (Hneg ex_side) as [Hrej2 _]; [cbn; lia | reflexivity | exact Hz |].
  split; [apply Hrej1; discriminate |].
  split; [apply Hrej2; discriminate |].
  split; [exact (Hacc eq_refl (Hcp 1%Z)) |].
  apply Hsup. apply ex_top_selected; [lra | lia].
Defined.

(** C9. On a mesh without vertices, a [max_coord] or [min_coord] selection
    does not return: it raises, and with the mesh in edit mode and an axis
    among 0, 1, 2 what it raises is the [ValueError] of [max]/[min] on an
    empty sequence. *)
Theorem select_on_empty_mesh_raises (obj : Object) (p : SelectionParams) :
  verts (data obj) = [] ->
  type p = "max_coord"%string \/ type p = "min_coord"%string ->
  exists e,
    snd (select_faces_by_criteria obj p) = Raise e
    /\ (mode obj = EDIT -> (0 <= coord p <= 2)%Z -> e = ValueError).
Proof.
  intros Hv Ht. rewrite select_faces_by_criteria_eq.
  destruct (mode obj) eqn:Hm.
  - exists ValueError. split; [reflexivity | discriminate].
  - unfold criterion. rewrite Hv. cbn [map].
    destruct (py_position _ _) as [k | e] eqn:Hk.
    + exists ValueError. split; [| reflexivity].
      destruct Ht as [-> | ->]; reflexivity.
    + exists e. split; [reflexivity |].
      intros _ Hc. rewrite py_position_axis in Hk by assumption. discriminate.
Qed.

Lemma select_on_empty_mesh_raises_witness :
  snd (select_faces_by_criteria ex_empty (ex_params "max_coord" 1.5 1)) = Raise ValueError
  /\ snd (select_faces_by_criteria ex_empty (ex_params "min_coord" 1.5 1)) = Raise ValueError.
Proof.
  split.
  - destruct (select_on_empty_mesh_raises ex_empty (ex_params "max_coord" 1.5 1))
      as (e & Hr & He); [reflexivity | now left |].
    rewrite Hr, He; [reflexivity | reflexivity | cbn; lia].
  - destruct (select_on_empty_mesh_raises ex_empty (ex_params "min_coord" 1.5 1))
      as (e & Hr & He); [reflexivity | now right |].
    rewrite Hr, He; [reflexivity | reflexivity | cbn; lia].
Defined.

(** C10. The integer returned by [select_faces_by_criteria] is the number of
    faces marked selected when it returns.  For the type [custom], and for
    any type other than [max_coord] and [min_coord], the call (mesh in edit
    mode, axis among 0, 1, 2) returns 0 and leaves every face deselected. *)
Theorem returned_count_is_number_selected (obj : Object) (p : SelectionParams) :
  (forall obj' n,
     select_faces_by_criteria obj p = (obj', Ok n) ->
     n = Z.of_nat (List.length (filter select (faces (data obj')))))
  /\ (type p <> "max_coord"%string -> type p <> "min_coord"%string ->
      mode obj = EDIT -> (0 <= coord p <= 2)%Z ->
      exists obj',
        select_faces_by_criteria obj p = (obj', Ok 0%Z)
        /\ Forall (fun face => select face = false) (faces (data obj'))
        /\ List.length (faces (data obj')) = List.length (faces (data obj))).
Proof.
  split.
  - intros obj' n. rewrite select_faces_by_criteria_eq.
    destruct (mode obj); [discriminate |].
    destruct (criterion obj p) as [passes | e]; [| discriminate].
    intros H. injection H as <- <-. cbn. symmetry. apply count_selection_of.
  - intros N1 N2 Hm Hc. rewrite select_faces_by_criteria_eq, Hm.
    unfold criterion. rewrite py_position_axis by assumption.
    apply String.eqb_neq in N1, N2. rewrite N1, N2.
    eexists. split; [rewrite count_passing_none; reflexivity |]. cbn. split.
    + apply Forall_forall. intros face Hin. apply in_map_iff in Hin as [f [<- _]].
      reflexivity.
    + apply length_map.
Qed.

Lemma returned_count_is_number_selected_witness :
  (exists obj',
     select_faces_by_criteria ex_obj (ex_params "custom" 1.5 1) = (obj', Ok 0%Z)
     /\ Forall (fun face => select face = false) (faces (data obj')))
  /\ (forall obj' n,
        select_faces_by_criteria ex_obj (ex_params "max_coord" 1.5 1) = (obj', Ok n) ->
        n = Z.of_nat (List.length (filter select (faces (data obj'))))).
Proof.
  split.
  - destruct (returned_count_is_number_selected ex_obj (ex_params "custom" 1.5 1))
      as [_ H].
    destruct H as (obj' & Hsel & Hall & _);
      [discriminate | discriminate | reflexivity | cbn; lia |].
    exists obj'. auto.
  - exact (proj1 (returned_count_is_number_selected ex_obj (ex_params "max_coord" 1.5 1))).
Defined.

(** ** UV projection *)

Lemma truediv_ok (a b : float) : b <> 0 -> truediv a b = Ok (a / b).
Proof. intros H. unfold truediv. now rewrite Reqb_false. Qed.

Lemma tan_half_fov (cam : CameraData) :
  tan (fov_of cam / 2) = sensor_width cam / (2 * lens cam).
Proof.
  unfold fov_of.
  replace (2 * atan (sensor_width cam / (2 * lens cam)) / 2)
    with (atan (sensor_width cam / (2 * lens cam))) by lra.
  apply tan_atan.
Qed.

Lemma tan_half_fov_pos (cam : CameraData) :
  perspective_camera cam -> 0 < tan (fov_of cam / 2).
Proof.
  intros (_ & Hw & _ & Hl). rewrite tan_half_fov.
  apply Rdiv_lt_0_compat; lra.
Qed.

Lemma aspect_pos (cam : CameraData) : perspective_camera cam -> 0 < aspect_of cam.
Proof. intros (_ & Hw & Hh & _). apply Rdiv_lt_0_compat; lra. Qed.

Lemma view_params_persp (cam : CameraData) :
  perspective_camera cam -> view_params cam = Ok (Some (fov_of cam, aspect_of cam)).
Proof.
  intros (Ht & Hw & Hh & Hl). unfold view_params. rewrite Ht. cbn [CameraType_eqb].
  rewrite !truediv_ok by lra. reflexivity.
Qed.

Lemma compute_uv_persp (cam : CameraData) (view_pos : Vector) :
  perspective_camera cam ->
  compute_uv (Some (fov_of cam, aspect_of cam)) view_pos = Ok (persp_uv cam view_pos).
Proof.
  intros Hcam. unfold compute_uv, persp_uv.
  destruct (Rltb (vz view_pos) 0) eqn:Hz; [| reflexivity].
  apply Rltb_true_iff in Hz.
  pose proof (tan_half_fov_pos cam Hcam) as Ht.
  pose proof (aspect_pos cam Hcam) as Ha.
  rewrite !truediv_ok by lra. cbn [bindR].
  rewrite !truediv_ok; [reflexivity | lra |].
  apply Rgt_not_eq. apply Rmult_lt_0_compat; lra.
Qed.

Lemma for_each_total {A : Type} (body : A -> A * Result unit) (g : A -> A) (l : list A) :
  (forall a, In a l -> body a = (g a, Ok tt)) ->
  for_each body l = (map g l, Ok tt).
Proof.
  induction l as [| a rest IH]; intros H; cbn; [reflexivity |].
  rewrite (H a (or_introl eq_refl)), IH; [reflexivity |].
  intros b Hb. apply H. now right.
Qed.

Lemma project_face_persp (cam : CameraData) (mw inv : Matrix) (face : BMFace) :
  perspective_camera cam ->
  project_face mw inv (Some (fov_of cam, aspect_of cam)) face
  = (face_projected cam mw inv face, Ok tt).
Proof.
  intros Hcam. unfold project_face, face_projected.
  destruct (select face); [| reflexivity].
  rewrite (for_each_total _ (fun l => set_uv (persp_uv cam (vert_view mw inv l)) l)).
  - reflexivity.
  - intros l _. unfold project_loop. now rewrite compute_uv_persp.
Qed.

(** The call in closed form, for a perspective camera with an invertible
    world matrix and a mesh in edit mode with at least one selected face. *)
Lemma project_from_view_manual_persp
      (host : Host) (camera : Camera) (s : State) (obj : Object) (inv : Matrix) :
  scene_mesh s = Some obj -> mode obj = EDIT ->
  perspective_camera (cam_data camera) ->
  inverted (cam_matrix_world camera) = Ok inv ->
  (exists face, In face (faces (data obj)) /\ select face = true) ->
  project_from_view_manual host camera s
  = (mkState (Some (set_faces (verify host obj)
                      (map (face_projected (cam_data camera) (matrix_world obj) inv)
                           (faces (data obj)))))
             (scene_camera s) (images s) (cameras s) (trace s ++ [UVProject]),
     Ok true).
Proof.
  intros Hmesh Hmode Hcam Hinv (face & Hin & Hsel).
  destruct s as [m sc im cams tr]. cbn in Hmesh. subst m.
  unfold project_from_view_manual, bind, get_obj, lift, from_edit_mesh. cbn.
  rewrite Hmode. cbn. rewrite Hinv. rewrite ?Hmode. cbn.
  destruct (filter select (faces (data obj))) as [| f0 fs] eqn:Hf.
  - assert (In face (filter select (faces (data obj)))) as Hc
        by (apply filter_In; auto).
    rewrite Hf in Hc. destruct Hc.
  - rewrite (view_params_persp _ Hcam). unfold write_uvs. cbn.
    rewrite (for_each_total _ (face_projected (cam_data camera) (matrix_world obj) inv)).
    + reflexivity.
    + intros a _. now apply project_face_persp.
Qed.

Lemma nth_error_face_projected cam mw inv (fs : list BMFace) (i j : nat)
      (face : BMFace) (loop : BMLoop) :
  nth_error fs i = Some face -> select face = true ->
  nth_error (loops face) j = Some loop ->
  exists face' loop',
    nth_error (map (face_projected cam mw inv) fs) i = Some face'
    /\ nth_error (loops face') j = Some loop'
    /\ vert loop' = vert loop
    /\ uv loop' = persp_uv cam (vert_view mw inv loop).
Proof.
  intros Hi Hsel Hj.
  exists (face_projected cam mw inv face),
         (set_uv (persp_uv cam (vert_view mw inv loop)) loop).
  split; [rewrite nth_error_map, Hi; reflexivity |].
  unfold face_projected. rewrite Hsel. cbn.
  rewrite nth_error_map, Hj. auto.
Qed.

(** The same when the mesh is still in object mode and the switch to edit
    mode goes through. *)
Lemma project_from_view_manual_persp_object
      (host : Host) (camera : Camera) (s : State) (obj : Object) (inv : Matrix) :
  scene_mesh s = Some obj -> mode obj = OBJECT ->
  raises host (OpModeSet EDIT) (List.length (trace s)) = false ->
  perspective_camera (cam_data camera) ->
  inverted (cam_matrix_world camera) = Ok inv ->
  (exists face, In face (faces (data obj)) /\ select face = true) ->
  project_from_view_manual host camera s
  = (mkState (Some (set_faces (verify host (set_mode EDIT obj))
                      (map (face_projected (cam_data camera) (matrix_world obj) inv)
                           (faces (data obj)))))
             (scene_camera s) (images s) (cameras s)
             (trace s ++ [OpModeSet EDIT; UVProject]),
     Ok true).
Proof.
  intros Hmesh Hmode Hr Hcam Hinv (face & Hin & Hsel).
  destruct s as [m sc im cams tr]. cbn in Hmesh, Hr. subst m.
  unfold project_from_view_manual, bind, get_obj, lift, from_edit_mesh. cbn.
  rewrite Hmode. cbn. unfold mode_set, host_call, bind. cbn. rewrite Hr. cbn.
  rewrite Hinv.
  destruct (filter select (faces (data obj))) as [| f0 fs] eqn:Hf.
  - assert (In face (filter select (faces (data obj)))) as Hc
        by (apply filter_In; auto).
    rewrite Hf in Hc. destruct Hc.
  - rewrite (view_params_persp _ Hcam). unfold write_uvs. cbn.
    rewrite (for_each_total _ (face_projected (cam_data camera) (matrix_world obj) inv)).
    + cbn. rewrite <- app_assoc. reflexivity.
    + intros a _. now apply project_face_persp.
Qed.

(** Either way the call returns [True] and every face is as
    [face_projected] says. *)
Lemma project_from_view_manual_faces
      (host : Host) (camera : Camera) (s : State) (obj : Object) (inv : Matrix) :
  scene_mesh s = Some obj ->
  mode obj = EDIT \/ raises host (OpModeSet EDIT) (List.length (trace s)) = false ->
  perspective_camera (cam_data camera) ->
  inverted (cam_matrix_world camera) = Ok inv ->
  (exists face, In face (faces (data obj)) /\ select face = true) ->
  exists s' obj',
    project_from_view_manual host camera s = (s', Ok true)
    /\ scene_mesh s' = Some obj'
    /\ faces (data obj')
       = map (face_projected (cam_data camera) (matrix_world obj) inv) (faces (data obj)).
Proof.
  intros Hmesh Hmode Hcam Hinv Hsel.
  destruct (mode obj) eqn:Hm.
  - destruct Hmode as [Hmode | Hr]; [discriminate |].
    rewrite (project_from_view_manual_persp_object host camera s obj inv) by assumption.
    do 2 eexists. split; [reflexivity |]. split; reflexivity.
  - rewrite (project_from_view_manual_persp host camera s obj inv) by assumption.
    do 2 eexists. split; [reflexivity |]. split; reflexivity.
Qed.

(** *** The example camera *)

Lemma inverted_translation (a b c : float) :
  inverted (translation a b c) = Ok (translation (- a) (- b) (- c)).
Proof.
  unfold inverted.
  assert (Hd : determinant (translation a b c) = 1) by (unfold determinant; cbn; ring).
  rewrite Hd, Reqb_false by lra.
  unfold translation, adjugate, scale_row; cbn.
  do 2 f_equal; f_equal; field.
Qed.

Lemma default_camera_perspective : perspective_camera default_camera_data.
Proof. unfold perspective_camera; cbn. repeat split; lra. Qed.

(** ** Claims on UV projection *)

(** C2. Under a perspective camera, a corner of a selected face whose
    camera-space position has [z < 0] is assigned
    [u = 0.5 + (x / -z) / (2 * tan (fov / 2) * aspect)] and
    [v = 0.5 + (y / -z) / (2 * tan (fov / 2))], with
    [fov = 2 * atan (sensor_width / (2 * lens))] and
    [aspect = sensor_width / sensor_height]; on the optical axis that is
    [(0.5, 0.5)].  The value is stored as computed, without clamping. *)
Theorem perspective_uv_in_front
        (host : Host) (camera : Camera) (s : State) (obj : Object) (inv : Matrix)
        (i j : nat) (face : BMFace) (loop : BMLoop) :
  scene_mesh s = Some obj ->
  mode obj = EDIT \/ raises host (OpModeSet EDIT) (List.length (trace s)) = false ->
  perspective_camera (cam_data camera) ->
  inverted (cam_matrix_world camera) = Ok inv ->
  nth_error (faces (data obj)) i = Some face -> select face = true ->
  nth_error (loops face) j = Some loop ->
  let view_pos := vert_view (matrix_world obj) inv loop in
  vz view_pos < 0 ->
  exists s' obj' face' loop',
    project_from_view_manual host camera s = (s', Ok true)
    /\ scene_mesh s' = Some obj'
    /\ nth_error (faces (data obj')) i = Some face'
    /\ nth_error (loops face') j = Some loop'
    /\ vert loop' = vert loop
    /\ uv loop' = projected_uv (cam_data camera) view_pos
    /\ (vx view_pos = 0 -> vy view_pos = 0 -> uv loop' = (0.5, 0.5)).
Proof.
  intros Hmesh Hmode Hcam Hinv Hi Hsel Hj view_pos Hz.
  destruct (nth_error_face_projected (cam_data camera) (matrix_world obj) inv
              (faces (data obj)) i j face loop Hi Hsel Hj)
    as (face' & loop' & Hi' & Hj' & Hv & Huv).
  fold view_pos in Huv. unfold persp_uv in Huv.
  rewrite (proj2 (Rltb_true_iff _ _) Hz) in Huv.
  destruct (project_from_view_manual_faces host camera s obj inv)
    as (s' & obj' & Hrun & Hm' & Hfaces); try assumption.
  { exists face. split; [eapply nth_error_In; eassumption | assumption]. }
  exists s', obj', face', loop'. rewrite Hfaces.
  repeat (split; [first [reflexivity | assumption] |]).
  intros Hx Hy. rewrite Huv. unfold projected_uv. rewrite Hx, Hy.
  rewrite !Rdiv_0_l. f_equal; lra.
Qed.

Lemma perspective_uv_in_front_witness :
  (exists s' obj' face' loop',
     project_from_view_manual ex_host ex_camera ex_wide_state = (s', Ok true)
     /\ scene_mesh s' = Some obj'
     /\ nth_error (faces (data obj')) 0 = Some face'
     /\ nth_error (loops face') 0 = Some loop'
     /\ uv loop' = (0.5, 0.5))
  /\ (exists s' obj' face' loop',
        project_from_view_manual ex_host ex_camera ex_wide_state = (s', Ok true)
        /\ scene_mesh s' = Some obj'
        /\ nth_error (faces (data obj')) 0 = Some face'
        /\ nth_error (loops face') 1 = Some loop'
        /\ fst (uv loop') = 527 / 54).
Proof.
  split.
  - destruct (perspective_uv_in_front ex_host ex_camera ex_wide_state ex_wide_obj
                (translation (- 0) (- 0) (- 10)) 0 0 ex_wide (corner 0 0 0))
      as (s' & obj' & face' & loop' & Hrun & Hm & Hi & Hj & _ & _ & Haxis);
      try reflexivity.
    + now left.
    + exact default_camera_perspective.
    + apply inverted_translation.
    + geom. lra.
    + exists s', obj', face', loop'. repeat (split; [assumption |]).
      apply Haxis; geom; lra.
  - destruct (perspective_uv_in_front ex_host ex_camera ex_wide_state ex_wide_obj
                (translation (- 0) (- 0) (- 10)) 0 1 ex_wide (corner 100 0 0))
      as (s' & obj' & face' & loop' & Hrun & Hm & Hi & Hj & _ & Huv & _);
      try reflexivity.
    + now left.
    + exact default_camera_perspective.
    + apply inverted_translation.
    + geom. lra.
    + exists s', obj', face', loop'. repeat (split; [assumption |]).
      rewrite Huv. unfold projected_uv. rewrite tan_half_fov. unfold aspect_of. geom.
      replace 0.5 with (1 / 2) by lra. field.
Defined.

(** C3. Under a perspective camera, a corner of a selected face whose
    camera-space position has [z >= 0] is assigned exactly the fallback
    [(0.5, 0.5)]; the call goes on, and every corner of the same face gets
    its own value: the formula where [z < 0], the fallback elsewhere. *)
Theorem perspective_uv_behind_camera
        (host : Host) (camera : Camera) (s : State) (obj : Object) (inv : Matrix)
        (i j : nat) (face : BMFace) (loop : BMLoop) :
  scene_mesh s = Some obj ->
  mode obj = EDIT \/ raises host (OpModeSet EDIT) (List.length (trace s)) = false ->
  perspective_camera (cam_data camera) ->
  inverted (cam_matrix_world camera) = Ok inv ->
  nth_error (faces (data obj)) i = Some face -> select face = true ->
  nth_error (loops face) j = Some loop ->
  vz (vert_view (matrix_world obj) inv loop) >= 0 ->
  exists s' obj' face' loop',
    project_from_view_manual host camera s = (s', Ok true)
    /\ scene_mesh s' = Some obj'
    /\ nth_error (faces (data obj')) i = Some face'
    /\ nth_error (loops face') j = Some loop'
    /\ vert loop' = vert loop
    /\ uv loop' = (0.5, 0.5)
    /\ Forall2 (fun l l' =>
                  vert l' = vert l
                  /\ let view_pos := vert_view (matrix_world obj) inv l in
                     (vz view_pos < 0 -> uv l' = projected_uv (cam_data camera) view_pos)
                     /\ (vz view_pos >= 0 -> uv l' = (0.5, 0.5)))
               (loops face) (loops face').
Proof.
  intros Hmesh Hmode Hcam Hinv Hi Hsel Hj Hz.
  destruct (nth_error_face_projected (cam_data camera) (matrix_world obj) inv
              (faces (data obj)) i j face loop Hi Hsel Hj)
    as (face' & loop' & Hi' & Hj' & Hv & Huv).
  unfold persp_uv in Huv.
  rewrite (proj2 (Rltb_false_iff _ _)) in Huv by lra.
  destruct (project_from_view_manual_faces host camera s obj inv)
    as (s' & obj' & Hrun & Hm' & Hfaces); try assumption.
  { exists face. split; [eapply nth_error_In; eassumption | assumption]. }
  exists s', obj', face', loop'. rewrite Hfaces.
  repeat (split; [first [reflexivity | assumption] |]).
  rewrite nth_error_map, Hi in Hi'. injection Hi' as <-.
  unfold face_projected. rewrite Hsel. cbn [loops set_loops].
  clear Hj. induction (loops face) as [| l rest IH]; cbn [map]; constructor; [| exact IH].
  split; [reflexivity |]. cbn zeta. cbn [uv set_uv].
  unfold persp_uv.
  destruct (Rltb (vz (vert_view (matrix_world obj) inv l)) 0) eqn:E;
    [apply Rltb_true_iff in E | apply Rltb_false_iff in E];
    split; intros H; first [reflexivity | exfalso; lra].
Qed.

Lemma perspective_uv_behind_camera_witness :
  exists s' obj' face' loop',
    project_from_view_manual ex_host ex_camera ex_wide_state = (s', Ok true)
    /\ scene_mesh s' = Some obj'
    /\ nth_error (faces (data obj')) 0 = Some face'
    /\ nth_error (loops face') 2 = Some loop'
    /\ uv loop' = (0.5, 0.5)
    /\ List.length (loops face') = 3%nat.
Proof.
  destruct (perspective_uv_behind_camera ex_host ex_camera ex_wide_state ex_wide_obj
              (translation (- 0) (- 0) (- 10)) 0 2 ex_wide (corner 0 0 20))
    as (s' & obj' & face' & loop' & Hrun & Hm & Hi & Hj & _ & Huv & Hall);
    try reflexivity.
  - now left.
  - exact default_camera_perspective.
  - apply inverted_translation.
  - geom. lra.
  - exists s', obj', face', loop'. repeat (split; [assumption |]).
    apply Forall2_length in Hall. rewrite <- Hall. reflexivity.
Defined.

(** ** The script's monad: inversion and invariants *)

Lemma bind_ok_inv {A B : Type} (m : M A) (k : A -> M B) (s s' : State) (b : B) :
  bind m k s = (s', Ok b) -> exists s1 a, m s = (s1, Ok a) /\ k a s1 = (s', Ok b).
Proof.
  unfold bind. destruct (m s) as [s1 [a | e]]; [eauto | discriminate].
Qed.

Lemma bind_ok {A B : Type} (m : M A) (k : A -> M B) (s s1 : State) (a : A) :
  m s = (s1, Ok a) -> bind m k s = k a s1.
Proof. intros H. unfold bind. now rewrite H. Qed.

(** A handler that returns makes the whole [try] return. *)
Lemma try_except_returns {A : Type} (m : M A) (a0 : A) (s : State) :
  exists s' a, try_except m (fun _ => ret a0) s = (s', Ok a).
Proof.
  unfold try_except. destruct (m s) as [s1 [a | e]]; cbn; do 2 eexists; reflexivity.
Qed.

Lemma try_except_false_true (m : M bool) (s s' : State) :
  try_except m (fun _ => ret false) s = (s', Ok true) -> m s = (s', Ok true).
Proof.
  unfold try_except. destruct (m s) as [s1 [a | e]]; cbn; [auto | discriminate].
Qed.

Section Keeps.
Variable host : Host.
Variable v : option (Mode * Matrix * BMesh).
Variable Q : Event -> Prop.

Lemma keeps_same {A : Type} (f : State -> Result A) : keeps v Q (fun s => (s, f s)).
Proof.
  intros s s' r Hv H. injection H as <- <-. split; [assumption |].
  exists []. rewrite app_nil_r. auto.
Qed.

Lemma keeps_ret {A : Type} (a : A) : keeps v Q (ret a).
Proof. exact (keeps_same (fun _ => Ok a)). Qed.

Lemma keeps_lift {A : Type} (r0 : Result A) : keeps v Q (lift r0).
Proof. exact (keeps_same (fun _ => r0)). Qed.

Lemma keeps_bind {A B : Type} (m : M A) (k : A -> M B) :
  keeps v Q m -> (forall a, keeps v Q (k a)) -> keeps v Q (bind m k).
Proof.
  intros Hm Hk s s' r Hv H. unfold bind in H.
  destruct (m s) as [s1 [a | e]] eqn:E.
  - destruct (Hm _ _ _ Hv E) as (Hv1 & l1 & Ht1 & Hq1).
    destruct (Hk a _ _ _ Hv1 H) as (Hv2 & l2 & Ht2 & Hq2).
    split; [assumption |]. exists (l1 ++ l2).
    rewrite Ht2, Ht1, app_assoc. split; [reflexivity | now apply Forall_app].
  - injection H as <- <-. exact (Hm _ _ _ Hv E).
Qed.

Lemma keeps_try {A : Type} (m : M A) (handler : Exn -> M A) :
  keeps v Q m -> (forall e, keeps v Q (handler e)) -> keeps v Q (try_except m handler).
Proof.
  intros Hm Hh s s' r Hv H. unfold try_except in H.
  destruct (m s) as [s1 [a | e]] eqn:E.
  - injection H as <- <-. exact (Hm _ _ _ Hv E).
  - destruct (Hm _ _ _ Hv E) as (Hv1 & l1 & Ht1 & Hq1).
    destruct (Hh e _ _ _ Hv1 H) as (Hv2 & l2 & Ht2 & Hq2).
    split; [assumption |]. exists (l1 ++ l2).
    rewrite Ht2, Ht1, app_assoc. split; [reflexivity | now apply Forall_app].
Qed.

Lemma keeps_record (e : Event) : Q e -> keeps v Q (record e).
Proof.
  intros He s s' r Hv H. injection H as <- <-. split; [assumption |].
  exists [e]. cbn. auto.
Qed.

Lemma keeps_host_call (e : Event) : Q e -> keeps v Q (host_call host e).
Proof.
  intros He s s' r Hv H. unfold host_call in H.
  destruct (raises host e _).
  - exact (keeps_same (fun _ => Raise RuntimeError) _ _ _ Hv H).
  - exact (keeps_record e He _ _ _ Hv H).
Qed.

Lemma keeps_get_images {B : Type} (k : list string -> M B) :
  (forall imgs, keeps v Q (k imgs)) -> keeps v Q (bind get_images k).
Proof.
  intros Hk. apply keeps_bind; [| assumption].
  exact (keeps_same (fun s => Ok (images s))).
Qed.

Lemma keeps_put_images (l : list string) : keeps v Q (put_images l).
Proof.
  intros s s' r Hv H. injection H as <- <-. split; [assumption |].
  exists []. cbn. rewrite app_nil_r. auto.
Qed.

(** Reading the object: the continuation may rely on what it looks like. *)
Lemma keeps_get_obj {B : Type} (k : Object -> M B) :
  (forall obj, v = Some (obj_view obj) -> keeps v Q (k obj)) ->
  keeps v Q (bind get_obj k).
Proof.
  intros Hk s s' r Hv H. unfold bind, get_obj in H.
  destruct (scene_mesh s) as [obj |] eqn:E.
  - assert (Hv' : v = Some (obj_view obj))
      by (rewrite <- Hv; unfold mesh_view; now rewrite E).
    exact (Hk obj Hv' s s' r Hv H).
  - exact (keeps_same (fun _ => Raise AttributeError) _ _ _ Hv H).
Qed.

Lemma keeps_put_obj (obj : Object) : v = Some (obj_view obj) -> keeps v Q (put_obj obj).
Proof.
  intros Ho s s' r Hv H. injection H as <- <-. split; [now rewrite Ho |].
  exists []. cbn. rewrite app_nil_r. auto.
Qed.
End Keeps.

Lemma keeps_set_slot_material v (k : nat) (mat : Material) :
  keeps v material_event (set_slot_material k mat).
Proof.
  unfold set_slot_material. apply keeps_get_obj. intros obj Hv.
  apply keeps_put_obj. exact Hv.
Qed.

Lemma keeps_grow_slots v (rounds : nat) (slots : list (option Material)) (i : Z) :
  keeps v material_event (grow_slots rounds slots i).
Proof.
  revert slots. induction rounds as [| rounds IH]; intros slots; cbn.
  - apply keeps_ret.
  - destruct (Z.of_nat (List.length slots) <=? i)%Z; [| apply keeps_ret].
    apply keeps_bind; [apply keeps_record; exact I | intros _; apply IH].
Qed.

Lemma keeps_setup_material (host : Host) v (i : Z) (path mname : string) :
  keeps v material_event (setup_material_with_texture host i path mname).
Proof.
  unfold setup_material_with_texture.
  apply keeps_get_obj. intros obj Hv.
  apply keeps_bind; [apply keeps_grow_slots |]. intros slots.
  apply keeps_bind; [apply keeps_put_obj; exact Hv |]. intros _.
  apply keeps_bind; [apply keeps_lift |]. intros k.
  apply keeps_bind.
  { destruct (nth k slots None).
    - apply keeps_set_slot_material.
    - apply keeps_bind; [apply keeps_host_call; exact I |].
      intros _. apply keeps_set_slot_material. }
  intros _. apply keeps_bind; [apply keeps_record; exact I |]. intros _.
  apply keeps_bind; [apply keeps_set_slot_material |]. intros _.
  apply keeps_bind.
  { apply keeps_try; [| intros _; apply keeps_ret].
    apply keeps_get_images. intros imgs.
    apply keeps_bind.
    - destruct (existsb _ imgs); [apply keeps_ret |].
      apply keeps_bind; [apply keeps_host_call; exact I |].
      intros _. apply keeps_put_images.
    - intros _. apply keeps_set_slot_material. }
  intros _. apply keeps_get_obj. intros obj' _.
  destruct (nth k (material_slots obj') None); apply keeps_ret.
Qed.

(** ** The steps of one camera, one by one *)

Lemma host_call_inv (host : Host) (e : Event) (s s1 : State) (a : unit) :
  host_call host e s = (s1, Ok a) ->
  raises host e (List.length (trace s)) = false
  /\ s1 = mkState (scene_mesh s) (scene_camera s) (images s) (cameras s) (trace s ++ [e]).
Proof.
  unfold host_call. destruct (raises host e _); [discriminate |].
  intros H. injection H as <- _. auto.
Qed.

Lemma mode_set_inv (host : Host) (m : Mode) (s s1 : State) (a : unit) :
  mode_set host m s = (s1, Ok a) ->
  exists obj,
    scene_mesh s = Some obj
    /\ scene_mesh s1 = Some (set_mode m obj)
    /\ trace s1 = trace s ++ [OpModeSet m]
    /\ raises host (OpModeSet m) (List.length (trace s)) = false.
Proof.
  unfold mode_set. destruct (scene_mesh s) as [obj |]; [| discriminate].
  intros H. apply bind_ok_inv in H as (s2 & u & H1 & H2).
  apply host_call_inv in H1 as [Hr ->]. injection H2 as <- _.
  exists obj. cbn. auto.
Qed.

Lemma select_faces_inv (p : SelectionParams) (s s1 : State) (n : Z) :
  select_faces p s = (s1, Ok n) ->
  exists obj obj',
    scene_mesh s = Some obj
    /\ select_faces_by_criteria obj p = (obj', Ok n)
    /\ scene_mesh s1 = Some obj'
    /\ trace s1 = trace s ++ [SelectFaces].
Proof.
  unfold select_faces, bind, get_obj.
  destruct (scene_mesh s) as [obj |]; [| discriminate]. cbn.
  destruct (select_faces_by_criteria obj p) as [obj' r] eqn:E. cbn.
  intros H. injection H as <- ->. exists obj, obj'. cbn. auto.
Qed.

Lemma set_active_material_index_inv (i : Z) (s s1 : State) (a : unit) :
  set_active_material_index i s = (s1, Ok a) ->
  exists obj,
    scene_mesh s = Some obj
    /\ scene_mesh s1 = Some (set_active i obj)
    /\ trace s1 = trace s ++ [SetActiveMaterialIndex i].
Proof.
  unfold set_active_material_index, bind, get_obj.
  destruct (scene_mesh s) as [obj |]; [| discriminate]. cbn.
  intros H. injection H as <- _. exists obj. cbn. auto.
Qed.

Lemma material_slot_assign_inv (host : Host) (s s1 : State) (a : unit) :
  material_slot_assign host s = (s1, Ok a) ->
  exists obj,
    scene_mesh s = Some obj
    /\ scene_mesh s1 = Some (assign_material obj)
    /\ trace s1 = trace s ++ [OpMaterialSlotAssign].
Proof.
  unfold material_slot_assign. intros H.
  apply bind_ok_inv in H as (s2 & obj & H1 & H).
  unfold get_obj in H1. destruct (scene_mesh s) as [obj0 |] eqn:E; [| discriminate].
  injection H1 as <- <-.
  apply bind_ok_inv in H as (s3 & u & H2 & H).
  apply host_call_inv in H2 as [_ ->]. injection H as <- _.
  exists obj0. cbn. auto.
Qed.

(** With the mesh in edit mode and a face selected, the projection either
    raises or writes UVs; it does not come back empty-handed. *)
Lemma project_from_view_manual_trace
      (host : Host) (camera : Camera) (s s1 : State) (obj : Object) (b : bool) :
  scene_mesh s = Some obj -> mode obj = EDIT ->
  filter select (faces (data obj)) <> [] ->
  project_from_view_manual host camera s = (s1, Ok b) ->
  b = true /\ trace s1 = trace s ++ [UVProject].
Proof.
  intros Hmesh Hmode Hsel.
  destruct s as [m sc im cams tr]. cbn in Hmesh. subst m.
  unfold project_from_view_manual, bind, get_obj, lift, from_edit_mesh. cbn.
  rewrite Hmode. cbn. rewrite ?Hmode. cbn.
  destruct (inverted (cam_matrix_world camera)) as [inv | e]; [| discriminate].
  rewrite ?Hmode. cbn.
  destruct (filter select (faces (data obj))) as [| f0 fs]; [contradiction |].
  destruct (view_params (cam_data camera)) as [persp | e]; [| discriminate].
  unfold write_uvs. cbn.
  destruct (for_each _ _) as [fs' [u | e]]; cbn; [| discriminate].
  intros H. injection H as <- <-. cbn. auto.
Qed.

Lemma filter_select_assign (obj : Object) :
  filter select (faces (data (assign_material obj))) = []
  -> filter select (faces (data obj)) = [].
Proof.
  unfold assign_material. cbn. induction (faces (data obj)) as [| face rest IH]; cbn.
  - auto.
  - destruct (select face) eqn:E; cbn; [discriminate |]. rewrite E. exact IH.
Qed.

Lemma selected_count_nonzero (obj obj' : Object) (p : SelectionParams) (n : Z) :
  select_faces_by_criteria obj p = (obj', Ok n) -> n <> 0%Z ->
  mode obj' = EDIT /\ filter select (faces (data obj')) <> [].
Proof.
  rewrite select_faces_by_criteria_eq. destruct (mode obj) eqn:Hm; [discriminate |].
  destruct (criterion obj p) as [passes | e]; [| discriminate].
  intros H Hn. injection H as <- <-. split; [exact Hm |].
  cbn. intros Hnil. apply Hn. rewrite <- count_selection_of, Hnil. reflexivity.
Qed.

(** The trace of a camera whose processing succeeds. *)
Lemma process_camera_view_trace (host : Host) (config : CameraConfig) (s s' : State) :
  process_camera_view host config s = (s', Ok true) ->
  exists mats,
    Forall material_event mats
    /\ trace s' = trace s
                  ++ [SetSceneCamera (name config); OpModeSet EDIT; SelectFaces]
                  ++ mats
                  ++ [SetActiveMaterialIndex (material_index config);
                      OpMaterialSlotAssign; UVProject].
Proof.
  intros H. unfold process_camera_view in H. apply try_except_false_true in H.
  unfold bind at 1 in H. unfold get_cameras in H.
  destruct (dict_get (name config) (cameras s)) as [camera |]; [| discriminate].
  apply bind_ok_inv in H as (s1 & u1 & H1 & H). injection H1 as <- _.
  apply bind_ok_inv in H as (s2 & u2 & H2 & H). injection H2 as <- _.
  apply bind_ok_inv in H as (s3 & u3 & H3 & H).
  apply mode_set_inv in H3 as (obj0 & Hm0 & Hm3 & Ht3 & _). cbn in Hm0, Ht3.
  apply bind_ok_inv in H as (s4 & n & H4 & H).
  apply select_faces_inv in H4 as (obj3 & obj4 & Hm3' & Hsel & Hm4 & Ht4).
  destruct (Z.eqb_spec n 0) as [| Hn]; [discriminate |].
  destruct (selected_count_nonzero _ _ _ _ Hsel Hn) as [Hmode4 Hne4].
  apply bind_ok_inv in H as (s5 & mat & H5 & H).
  destruct (keeps_setup_material host (mesh_view s4) _ _ _ s4 s5 (Ok mat) eq_refl H5)
    as (Hv5 & mats & Ht5 & Hmats).
  apply bind_ok_inv in H as (s6 & u6 & H6 & H).
  apply set_active_material_index_inv in H6 as (obj5 & Hm5 & Hm6 & Ht6).
  apply bind_ok_inv in H as (s7 & u7 & H7 & H).
  apply material_slot_assign_inv in H7 as (obj6 & Hm6' & Hm7 & Ht7).
  apply bind_ok_inv in H as (s8 & b & H8 & H). injection H as <-.
  assert (Hview : obj_view obj5 = obj_view obj4).
  { unfold mesh_view in Hv5. rewrite Hm5, Hm4 in Hv5. cbn in Hv5. congruence. }
  rewrite Hm6 in Hm6'. injection Hm6' as <-.
  unfold obj_view in Hview. injection Hview as Hmode5 _ Hdata5.
  apply (project_from_view_manual_trace host camera s7 s8 _ b Hm7) in H8
    as [_ Ht8].
  - exists mats. split; [assumption |].
    rewrite Ht8, Ht7, Ht6, Ht5, Ht4, Ht3. cbn. rewrite <- !app_assoc. reflexivity.
  - cbn. exact (eq_trans Hmode5 Hmode4).
  - intros Hnil. apply filter_select_assign in Hnil. cbn in Hnil.
    rewrite Hdata5 in Hnil. contradiction.
Qed.

(** ** The mesh object stays in the scene *)

Lemma stays_same {A : Type} (f : State -> Result A) : stays (fun s => (s, f s)).
Proof. intros s s' r H. injection H as <- _. auto. Qed.

Lemma stays_ret {A : Type} (a : A) : stays (ret a).
Proof. exact (stays_same (fun _ => Ok a)). Qed.

Lemma stays_lift {A : Type} (r0 : Result A) : stays (lift r0).
Proof. exact (stays_same (fun _ => r0)). Qed.

Lemma stays_bind {A B : Type} (m : M A) (k : A -> M B) :
  stays m -> (forall a, stays (k a)) -> stays (bind m k).
Proof.
  intros Hm Hk s s' r H Hs. unfold bind in H.
  destruct (m s) as [s1 [a | e]] eqn:E.
  - exact (Hk a _ _ _ H (Hm _ _ _ E Hs)).
  - injection H as <- _. exact (Hm _ _ _ E Hs).
Qed.

Lemma stays_try {A : Type} (m : M A) (handler : Exn -> M A) :
  stays m -> (forall e, stays (handler e)) -> stays (try_except m handler).
Proof.
  intros Hm Hh s s' r H Hs. unfold try_except in H.
  destruct (m s) as [s1 [a | e]] eqn:E.
  - injection H as <- _. exact (Hm _ _ _ E Hs).
  - exact (Hh e _ _ _ H (Hm _ _ _ E Hs)).
Qed.

Lemma stays_record (e : Event) : stays (record e).
Proof. intros s s' r H. injection H as <- _. auto. Qed.

Lemma stays_host_call (host : Host) (e : Event) : stays (host_call host e).
Proof.
  intros s s' r H. unfold host_call in H. destruct (raises host e _).
  - injection H as <- _. auto.
  - exact (stays_record e _ _ _ H).
Qed.

Lemma stays_put_obj (obj : Object) : stays (put_obj obj).
Proof. intros s s' r H _. injection H as <- _. discriminate. Qed.

Lemma stays_put_images (l : list string) : stays (put_images l).
Proof. intros s s' r H. injection H as <- _. auto. Qed.

Lemma stays_put_scene_camera (c : Camera) : stays (put_scene_camera c).
Proof. intros s s' r H. injection H as <- _. auto. Qed.

Lemma stays_get_obj : stays get_obj.
Proof.
  intros s s' r H Hs. unfold get_obj in H.
  destruct (scene_mesh s) eqn:E; injection H as <- _; congruence.
Qed.

Lemma stays_get_images : stays get_images.
Proof. exact (stays_same (fun s => Ok (images s))). Qed.

Lemma stays_get_cameras : stays get_cameras.
Proof. exact (stays_same (fun s => Ok (cameras s))). Qed.

Lemma stays_mode_set (host : Host) (m : Mode) : stays (mode_set host m).
Proof.
  intros s s' r H Hs. unfold mode_set in H. destruct (scene_mesh s) as [obj |] eqn:E.
  - apply (stays_bind _ _ (stays_host_call host (OpModeSet m))
                      (fun _ => stays_put_obj (set_mode m obj)) s s' r H).
    congruence.
  - injection H as <- _. congruence.
Qed.

Lemma stays_set_slot_material (k : nat) (mat : Material) : stays (set_slot_material k mat).
Proof.
  apply stays_bind; [apply stays_get_obj | intros obj; apply stays_put_obj].
Qed.

Lemma stays_grow_slots (rounds : nat) (slots : list (option Material)) (i : Z) :
  stays (grow_slots rounds slots i).
Proof.
  revert slots. induction rounds as [| rounds IH]; intros slots; cbn.
  - apply stays_ret.
  - destruct (Z.of_nat (List.length slots) <=? i)%Z; [| apply stays_ret].
    apply stays_bind; [apply stays_record | intros _; apply IH].
Qed.

Lemma stays_setup_material (host : Host) (i : Z) (path mname : string) :
  stays (setup_material_with_texture host i path mname).
Proof.
  unfold setup_material_with_texture.
  apply stays_bind; [apply stays_get_obj |]. intros obj.
  apply stays_bind; [apply stays_grow_slots |]. intros slots.
  apply stays_bind; [apply stays_put_obj |]. intros _.
  apply stays_bind; [apply stays_lift |]. intros k.
  apply stays_bind.
  { destruct (nth k slots None).
    - apply stays_set_slot_material.
    - apply stays_bind; [apply stays_host_call |].
      intros _. apply stays_set_slot_material. }
  intros _. apply stays_bind; [apply stays_record |]. intros _.
  apply stays_bind; [apply stays_set_slot_material |]. intros _.
  apply stays_bind.
  { apply stays_try; [| intros _; apply stays_ret].
    apply stays_bind; [apply stays_get_images |]. intros imgs.
    apply stays_bind.
    - destruct (existsb _ imgs); [apply stays_ret |].
      apply stays_bind; [apply stays_host_call |].
      intros _. apply stays_put_images.
    - intros _. apply stays_set_slot_material. }
  intros _. apply stays_bind; [apply stays_get_obj |]. intros obj'.
  destruct (nth k (material_slots obj') None); apply stays_ret.
Qed.

Lemma stays_write_uvs (inv : Matrix) (persp : option (float * float)) :
  stays (write_uvs inv persp).
Proof.
  intros s s' r H Hs. unfold write_uvs in H. destruct (scene_mesh s) as [obj |] eqn:E.
  - destruct (for_each _ _) as [fs r0]. injection H as <- _. discriminate.
  - injection H as <- _. congruence.
Qed.

Lemma stays_project (host : Host) (camera : Camera) :
  stays (project_from_view_manual host camera).
Proof.
  unfold project_from_view_manual.
  apply stays_bind; [apply stays_get_obj |]. intros obj.
  apply stays_bind.
  { destruct (negb _); [apply stays_mode_set | apply stays_ret]. }
  intros _. apply stays_bind; [apply stays_get_obj |]. intros obj1.
  apply stays_bind; [apply stays_lift |]. intros bm.
  apply stays_bind; [apply stays_put_obj |]. intros _.
  apply stays_bind; [apply stays_lift |]. intros inv.
  destruct (filter select (faces bm)); [apply stays_ret |].
  apply stays_bind; [apply stays_lift |]. intros persp.
  apply stays_bind; [apply stays_record |]. intros _.
  apply stays_bind; [apply stays_write_uvs | intros _; apply stays_ret].
Qed.

Lemma stays_select_faces (p : SelectionParams) : stays (select_faces p).
Proof.
  unfold select_faces.
  apply stays_bind; [apply stays_get_obj |]. intros obj.
  apply stays_bind; [apply stays_record |]. intros _.
  destruct (select_faces_by_criteria obj p) as [obj' r0].
  apply stays_bind; [apply stays_put_obj | intros _; apply stays_lift].
Qed.

Lemma stays_process_camera_view (host : Host) (config : CameraConfig) :
  stays (process_camera_view host config).
Proof.
  unfold process_camera_view.
  apply stays_try; [| intros _; apply stays_ret].
  apply stays_bind; [apply stays_get_cameras |]. intros d.
  destruct (dict_get (name config) d) as [camera |]; [| apply stays_ret].
  apply stays_bind; [apply stays_record |]. intros _.
  apply stays_bind; [apply stays_put_scene_camera |]. intros _.
  apply stays_bind; [apply stays_mode_set |]. intros _.
  apply stays_bind; [apply stays_select_faces |]. intros n.
  destruct (n =? 0)%Z; [apply stays_ret |].
  apply stays_bind; [apply stays_setup_material |]. intros _.
  apply stays_bind.
  { apply stays_bind; [apply stays_get_obj |]. intros obj.
    apply stays_bind; [apply stays_record | intros _; apply stays_put_obj]. }
  intros _. apply stays_bind.
  { apply stays_bind; [apply stays_get_obj |]. intros obj.
    apply stays_bind; [apply stays_host_call | intros _; apply stays_put_obj]. }
  intros _. apply stays_bind; [apply stays_project | intros _; apply stays_ret].
Qed.

Lemma process_camera_view_returns (host : Host) (config : CameraConfig) (s : State) :
  exists b, process_camera_view host config s
            = (fst (process_camera_view host config s), Ok b).
Proof.
  destruct (try_except_returns
              (d <- get_cameras ;;
               match dict_get (name config) d with
               | None => ret false
               | Some camera =>
                   record (SetSceneCamera (name config)) ;;;
                   put_scene_camera camera ;;;
                   mode_set host EDIT ;;;
                   selected_count <- select_faces (selection_params config) ;;
                   if (selected_count =? 0)%Z then ret false
                   else
                     setup_material_with_texture
                       host (material_index config) (texture_path config)
                       (DEFAULT_MATERIAL_BASENAME ++ "_" ++ name config)%string ;;;
                     set_active_material_index (material_index config) ;;;
                     material_slot_assign host ;;;
                     project_from_view_manual host camera ;;;
                     ret true
               end) false s) as (s' & b & H).
  exists b. unfold process_camera_view. rewrite H. reflexivity.
Qed.

Lemma process_cameras_all (host : Host) (cs : list CameraConfig) (s : State) :
  process_cameras host cs s = (after_cameras host cs s, Ok tt).
Proof.
  revert s. induction cs as [| config rest IH]; intros s; cbn [process_cameras after_cameras].
  - reflexivity.
  - destruct (process_camera_view_returns host config s) as [b Hb].
    rewrite (bind_ok _ _ _ _ _ Hb). apply IH.
Qed.

Lemma after_cameras_has_mesh (host : Host) (cs : list CameraConfig) (s : State) :
  scene_mesh s <> None -> scene_mesh (after_cameras host cs s) <> None.
Proof.
  revert s. induction cs as [| config rest IH]; intros s Hs; cbn; [assumption |].
  apply IH. destruct (process_camera_view host config s) as [s1 r] eqn:E.
  exact (stays_process_camera_view host config _ _ _ E Hs).
Qed.

(** ** Order of steps in a trace *)

Lemma before_split (a b : Event) (l1 l2 l3 : list Event) :
  before a b (l1 ++ a :: l2 ++ b :: l3).
Proof.
  exists (List.length l1), (List.length l1 + S (List.length l2))%nat.
  split; [| split; [| lia]].
  - rewrite nth_error_app2 by lia. now rewrite Nat.sub_diag.
  - rewrite nth_error_app2 by lia.
    replace (List.length l1 + S (List.length l2) - List.length l1)%nat
      with (S (List.length l2)) by lia.
    cbn. rewrite nth_error_app2 by lia. now rewrite Nat.sub_diag.
Qed.

Lemma not_before_last (a b : Event) (l : list Event) :
  ~ In a l -> ~ before a b (l ++ [a]).
Proof.
  intros Hnot (i & j & Hi & Hj & Hlt).
  destruct (Nat.lt_ge_cases i (List.length l)) as [Hlo | Hhi].
  - rewrite nth_error_app1 in Hi by assumption.
    apply nth_error_In in Hi. contradiction.
  - assert (Hnone : nth_error (l ++ [a]) j = None).
    { apply nth_error_None. rewrite length_app. cbn. lia. }
    congruence.
Qed.

Lemma new_events_app (s s' : State) (l : list Event) :
  trace s' = trace s ++ l -> new_events s s' = l.
Proof.
  intros H. unfold new_events. rewrite H.
  rewrite skipn_app, Nat.sub_diag, skipn_all. reflexivity.
Qed.

Lemma material_event_not_project (mats : list Event) :
  Forall material_event mats -> ~ In UVProject mats.
Proof.
  intros H Hin. rewrite Forall_forall in H. exact (H _ Hin).
Qed.

(** Order facts for a trace of the shape a successful camera leaves. *)
Lemma camera_trace_order (n : string) (i : Z) (mats : list Event) :
  Forall material_event mats ->
  let t := [SetSceneCamera n; OpModeSet EDIT; SelectFaces] ++ mats
           ++ [SetActiveMaterialIndex i; OpMaterialSlotAssign; UVProject] in
  before SelectFaces OpMaterialSlotAssign t
  /\ before OpMaterialSlotAssign UVProject t
  /\ ~ before UVProject OpMaterialSlotAssign t.
Proof.
  intros Hm t. subst t. split; [| split].
  - replace ([SetSceneCamera n; OpModeSet EDIT; SelectFaces] ++ mats
             ++ [SetActiveMaterialIndex i; OpMaterialSlotAssign; UVProject])
      with ([SetSceneCamera n; OpModeSet EDIT] ++ SelectFaces
            :: (mats ++ [SetActiveMaterialIndex i]) ++ OpMaterialSlotAssign :: [UVProject])
      by (cbn; rewrite <- !app_assoc; reflexivity).
    apply before_split.
  - replace ([SetSceneCamera n; OpModeSet EDIT; SelectFaces] ++ mats
             ++ [SetActiveMaterialIndex i; OpMaterialSlotAssign; UVProject])
      with (([SetSceneCamera n; OpModeSet EDIT; SelectFaces] ++ mats
             ++ [SetActiveMaterialIndex i]) ++ OpMaterialSlotAssign :: [] ++ UVProject :: [])
      by (cbn; rewrite <- !app_assoc; reflexivity).
    apply before_split.
  - replace ([SetSceneCamera n; OpModeSet EDIT; SelectFaces] ++ mats
             ++ [SetActiveMaterialIndex i; OpMaterialSlotAssign; UVProject])
      with (([SetSceneCamera n; OpModeSet EDIT; SelectFaces] ++ mats
             ++ [SetActiveMaterialIndex i; OpMaterialSlotAssign]) ++ [UVProject])
      by (cbn; rewrite <- !app_assoc; reflexivity).
    apply not_before_last. intros Hin.
    cbn in Hin. destruct Hin as [H | [H | [H | Hin]]]; try discriminate.
    apply in_app_or in Hin as [Hin | Hin].
    + exact (material_event_not_project mats Hm Hin).
    + cbn in Hin. destruct Hin as [H | [H | []]]; discriminate.
Qed.

(** ** The example run, step by step *)

Lemma ex_setup_scene :
  setup_scene ex_host ex_mapper ex_state0 = (ex_state1, Ok (Some ex_imported)).
Proof. reflexivity. Qed.

Lemma ex_select_eq (layers : list string) (slots : list (option Material)) (a : Z) :
  select_faces_by_criteria (mkObject EDIT identity ex_mesh layers slots a)
                           (ex_params "max_coord" 1.5 1)
  = (mkObject EDIT identity (mkBMesh (verts ex_mesh) ex_selected_faces) layers slots a,
     Ok 1%Z).
Proof.
  rewrite select_faces_by_criteria_eq. cbn [mode].
  rewrite (criterion_max _ _ 0); [| cbn; lia | reflexivity | exact ex_maximum].
  set (passes := fun face : BMFace => _).
  assert (H0 : passes ex_top = true).
  { apply andb_true_iff. split.
    - apply near_max_iff. apply (ex_top_near_max 1.5). lra.
    - apply normal_passes_iff. right; left. geom. split; [lia | lra]. }
  assert (H1 : passes ex_bottom = false).
  { apply andb_false_iff. left. apply not_true_is_false. intros H.
    apply near_max_iff in H.
    specialize (H (vtx 0 0 (-2)) (or_introl eq_refl)). geom. lra. }
  assert (H2 : passes ex_side = false).
  { apply andb_false_iff. right. apply not_true_is_false. intros H.
    apply normal_passes_iff in H. unfold normal_filter in H. geom.
    destruct H as [H | [[_ H] | [_ H]]]; [discriminate | lra | lra]. }
  unfold set_faces, selection_of, count_passing. cbn.
  rewrite H0, H1, H2. reflexivity.
Qed.

Lemma ex_camera_success :
  snd (process_camera_view ex_host ex_config ex_state1) = Ok true.
Proof.
  unfold process_camera_view, try_except.
  cbn -[select_faces_by_criteria project_from_view_manual setup_material_with_texture].
  unfold bind at 1. unfold select_faces, bind at 1, get_obj.
  cbn -[select_faces_by_criteria project_from_view_manual setup_material_with_texture].
  change (set_mode EDIT ex_imported)
    with (mkObject EDIT identity ex_mesh [DEFAULT_UV_MAP_NAME] [] 0).
  rewrite ex_select_eq.
  cbv -[project_from_view_manual IZR ex_camera ex_selected_faces vtx identity].
  erewrite project_from_view_manual_persp; [reflexivity | reflexivity | reflexivity | | |].
  - exact default_camera_perspective.
  - apply inverted_translation.
  - exists (set_select true ex_top). split; [now left | reflexivity].
Qed.

Lemma ex_setup_scene_export_fails :
  setup_scene ex_host_export_fails ex_mapper ex_state0
  = (ex_state1, Ok (Some ex_imported)).
Proof. reflexivity. Qed.

(** ** The driver *)

Lemma validate_each_false (host : Host) (cs : list CameraConfig) :
  validate_each host cs = false
  <-> exists config, In config cs /\ path_exists host (texture_path config) = false.
Proof.
  induction cs as [| config rest IH]; cbn.
  - split; [discriminate | intros (c & [] & _)].
  - unfold validate. destruct (path_exists host (texture_path config)) eqn:E; cbn.
    + rewrite IH. split.
      * intros (c & Hin & Hc). eauto.
      * intros (c & [<- | Hin] & Hc); [congruence | eauto].
    + split; [eauto | reflexivity].
Qed.

Lemma validate_configs_false (host : Host) (self : TextureMapper) :
  validate_configs host self = false
  <-> path_exists host (input_ply self) = false
      \/ exists config,
           In config (configs self) /\ path_exists host (texture_path config) = false.
Proof.
  unfold validate_configs. destruct (path_exists host (input_ply self)); cbn.
  - rewrite validate_each_false. split; [auto | intros [H | H]; [discriminate | exact H]].
  - split; auto.
Qed.

Lemma setup_scene_has_mesh (host : Host) (self : TextureMapper) (s s1 : State) (obj : Object) :
  setup_scene host self s = (s1, Ok (Some obj)) -> scene_mesh s1 <> None.
Proof.
  unfold setup_scene, try_except.
  match goal with |- context [match ?body s with _ => _ end] =>
    destruct (body s) as [s' [a | e]] eqn:E end; [| discriminate].
  intros H. injection H as <- ->.
  repeat (apply bind_ok_inv in E as (? & ? & _ & E)).
  match type of E with
  | context [scene_mesh ?s2] => destruct (scene_mesh s2) as [mesh_obj |] eqn:Hm
  end; [| discriminate].
  destruct (uv_layers mesh_obj).
  - apply bind_ok_inv in E as (s2 & u & H1 & E).
    apply bind_ok_inv in E as (s3 & u' & H2 & E).
    injection E as <- _. injection H2 as <- _. discriminate.
  - injection E as <- _. congruence.
Qed.

(** A run reports success only if the exporter did not raise. *)
Lemma process_true_exported (host : Host) (self : TextureMapper) (s s' : State) :
  process host self s = (s', Ok true) ->
  validate_configs host self = true
  /\ exists n, raises host (OpExportGltf (output_glb self)) n = false.
Proof.
  intros H. unfold process in H. apply try_except_false_true in H.
  destruct (validate_configs host self); cbn [negb] in H; [| discriminate].
  split; [reflexivity |].
  apply bind_ok_inv in H as (s1 & mesh_obj & H1 & H).
  destruct mesh_obj as [mesh_obj |]; [| discriminate].
  apply bind_ok_inv in H as (s2 & u2 & H2 & H).
  apply bind_ok_inv in H as (s3 & u3 & H3 & H).
  apply bind_ok_inv in H as (s4 & u4 & H4 & H).
  apply host_call_inv in H4 as [Hr _]. eauto.
Qed.

Lemma process_returns (host : Host) (self : TextureMapper) (s : State) :
  exists s' b, process host self s = (s', Ok b).
Proof. unfold process. apply try_except_returns. Qed.

Lemma export_raises_exit_code (host : Host) (self : TextureMapper) (s : State) :
  (forall n, raises host (OpExportGltf (output_glb self)) n = true) ->
  snd (main host self s) = 1%Z.
Proof.
  intros Hr. unfold main. destruct (process_returns host self s) as (s' & b & H).
  rewrite H. destruct b; [| reflexivity].
  apply process_true_exported in H as (_ & n & Hn). rewrite Hr in Hn. discriminate.
Qed.

(** ** Claims on the pipeline driver *)

(** C4, as the code has it.  For every camera whose processing runs to its
    end, the steps are taken in the order: selection, then binding (material
    setup, then the assignment of the material slot to the selected faces),
    then projection.  Projection comes after the binding, not before it. *)
Theorem camera_steps_select_bind_project
        (host : Host) (config : CameraConfig) (s s' : State) :
  process_camera_view host config s = (s', Ok true) ->
  exists mats,
    Forall material_event mats
    /\ new_events s s'
       = [SetSceneCamera (name config); OpModeSet EDIT; SelectFaces]
         ++ mats
         ++ [SetActiveMaterialIndex (material_index config);
             OpMaterialSlotAssign; UVProject]
    /\ before SelectFaces OpMaterialSlotAssign (new_events s s')
    /\ before OpMaterialSlotAssign UVProject (new_events s s')
    /\ ~ before UVProject OpMaterialSlotAssign (new_events s s').
Proof.
  intros H. apply process_camera_view_trace in H as (mats & Hm & Ht).
  exists mats. split; [assumption |].
  rewrite (new_events_app _ _ _ Ht). split; [reflexivity |].
  apply camera_trace_order. assumption.
Qed.

Lemma camera_steps_select_bind_project_witness :
  before OpMaterialSlotAssign UVProject
         (new_events ex_state1 (fst (process_camera_view ex_host ex_config ex_state1))).
Proof.
  destruct (process_camera_view ex_host ex_config ex_state1) as [s' r] eqn:E.
  assert (Hr : r = Ok true).
  { change r with (snd (s', r)). rewrite <- E. exact ex_camera_success. }
  subst r.
  destruct (camera_steps_select_bind_project ex_host ex_config ex_state1 s' E)
    as (mats & _ & _ & _ & Hb & _).
  exact Hb.
Defined.

(** C4 as stated fails: in the example run the camera is processed to its
    end, and the projection is not taken before the slot assignment. *)
Lemma select_project_bind_counterexample :
  snd (process_camera_view ex_host ex_config ex_state1) = Ok true
  /\ ~ select_project_bind
         (new_events ex_state1 (fst (process_camera_view ex_host ex_config ex_state1))).
Proof.
  split; [exact ex_camera_success |].
  destruct (process_camera_view ex_host ex_config ex_state1) as [s' r] eqn:E.
  assert (Hr : r = Ok true).
  { change r with (snd (s', r)). rewrite <- E. exact ex_camera_success. }
  subst r. cbn [fst].
  apply process_camera_view_trace in E as (mats & Hm & Ht).
  rewrite (new_events_app _ _ _ Ht).
  intros [_ Hb]. revert Hb. apply camera_trace_order. assumption.
Qed.

(** C5. If the input mesh file does not exist, or the texture of some
    configured camera does not exist, the run ends with exit code 1 and the
    state is the one it started from: no host call was made, nothing was
    deleted, imported or created, and the mesh was not touched. *)
Theorem validation_failure_aborts_unchanged
        (host : Host) (self : TextureMapper) (s : State) :
  path_exists host (input_ply self) = false
  \/ (exists config,
        In config (configs self) /\ path_exists host (texture_path config) = false) ->
  validate_configs host self = false
  /\ process host self s = (s, Ok false)
  /\ main host self s = (s, 1%Z).
Proof.
  intros H. apply validate_configs_false in H.
  split; [assumption |].
  unfold main, process, try_except. rewrite H. cbn. auto.
Qed.

Lemma validation_failure_aborts_unchanged_witness :
  main ex_host_no_texture ex_mapper ex_state0 = (ex_state0, 1%Z)
  /\ trace (fst (main ex_host_no_texture ex_mapper ex_state0)) = [].
Proof.
  destruct (validation_failure_aborts_unchanged ex_host_no_texture ex_mapper ex_state0)
    as (_ & _ & Hmain).
  - right. exists ex_config. split; [now left | reflexivity].
  - rewrite Hmain. split; reflexivity.
Defined.

(** A host on which the assignment of the material slot raises lets no
    camera succeed: the exception is caught and the camera returns
    [False]. *)
Lemma assign_raises_camera_fails
      (host : Host) (config : CameraConfig) (s : State) :
  (forall n, raises host OpMaterialSlotAssign n = true) ->
  snd (process_camera_view host config s) = Ok false.
Proof.
  intros Hr. destruct (process_camera_view_returns host config s) as (b & H).
  rewrite H. cbn [snd]. destruct b; [exfalso | reflexivity].
  unfold process_camera_view in H. apply try_except_false_true in H.
  unfold bind at 1 in H. unfold get_cameras in H.
  destruct (dict_get (name config) (cameras s)) as [camera |]; [| discriminate].
  apply bind_ok_inv in H as (s1 & u1 & H1 & H).
  apply bind_ok_inv in H as (s2 & u2 & H2 & H).
  apply bind_ok_inv in H as (s3 & u3 & H3 & H).
  apply bind_ok_inv in H as (s4 & n & H4 & H).
  destruct (n =? 0)%Z; [discriminate |].
  apply bind_ok_inv in H as (s5 & mat & H5 & H).
  apply bind_ok_inv in H as (s6 & u6 & H6 & H).
  apply bind_ok_inv in H as (s7 & u7 & H7 & H).
  unfold material_slot_assign in H7.
  apply bind_ok_inv in H7 as (s6' & obj & _ & H7).
  apply bind_ok_inv in H7 as (s6'' & u & H7 & _).
  apply host_call_inv in H7 as [H7 _]. rewrite Hr in H7. discriminate.
Qed.

(** A camera whose selection is empty stops right after the selection. *)
Lemma process_camera_view_empty_selection
      (host : Host) (config : CameraConfig) (s : State) (obj obj' : Object)
      (camera : Camera) :
  dict_get (name config) (cameras s) = Some camera ->
  scene_mesh s = Some obj ->
  (forall N, raises host (OpModeSet EDIT) N = false) ->
  select_faces_by_criteria (set_mode EDIT obj) (selection_params config) = (obj', Ok 0%Z) ->
  process_camera_view host config s
  = (mkState (Some obj') (Some camera) (images s) (cameras s)
             (trace s ++ [SetSceneCamera (name config); OpModeSet EDIT; SelectFaces]),
     Ok false).
Proof.
  intros Hcam Hmesh Hr Hsel. destruct s as [m sc im cams tr]. cbn in Hcam, Hmesh. subst m.
  unfold process_camera_view, try_except.
  unfold bind at 1. unfold get_cameras. cbn [cameras]. rewrite Hcam.
  unfold bind at 1. unfold record at 1. cbn [scene_mesh scene_camera images cameras trace].
  unfold bind at 1. unfold put_scene_camera at 1.
  cbn [scene_mesh scene_camera images cameras trace].
  unfold bind at 1. unfold mode_set at 1. cbn [scene_mesh].
  unfold bind at 1. unfold host_call at 1. rewrite Hr.
  unfold record at 1, put_obj, put_mesh. cbn [scene_mesh scene_camera images cameras trace].
  unfold bind at 1. unfold select_faces, bind at 1, get_obj. cbn [scene_mesh].
  unfold bind at 1, record at 1. cbn [scene_mesh scene_camera images cameras trace].
  rewrite Hsel. unfold bind, put_obj, put_mesh, lift. cbn.
  rewrite <- !app_assoc. reflexivity.
Qed.

(** In the example with two cameras, the first one selects no face. *)
Lemma ex_skipped_camera :
  exists obj',
    process_camera_view ex_host_assign_fails ex_skipped_config ex_state2
    = (mkState (Some obj') (Some ex_side_camera) [] (cameras ex_state2)
               (trace ex_state2
                ++ [SetSceneCamera "Camera_Side"; OpModeSet EDIT; SelectFaces]),
       Ok false).
Proof.
  destruct (select_returns (set_mode EDIT ex_imported) (ex_params "custom" 1.5 1))
    as (passes & Hc & Hsel); [reflexivity | cbn; lia | right; split; discriminate |].
  unfold criterion in Hc. cbn in Hc. injection Hc as <-.
  rewrite count_passing_none in Hsel.
  eexists.
  apply (process_camera_view_empty_selection
           ex_host_assign_fails ex_skipped_config ex_state2 ex_imported _ ex_side_camera);
    [reflexivity | reflexivity | reflexivity | exact Hsel].
Qed.

Lemma ex_setup_scene_two :
  setup_scene ex_host_assign_fails ex_two_mapper ex_state0
  = (ex_state2, Ok (Some ex_imported)).
Proof. reflexivity. Qed.

(** C6, as the code has it.  If validation passes, the scene is set up, and
    the final switch to object mode and the exporter do not raise, then
    every configured camera is processed in turn, whatever each of them
    returned or raised, the export is reached, and the run ends with
    success and exit code 0. *)
Theorem camera_failures_do_not_abort
        (host : Host) (self : TextureMapper) (s s1 : State) (obj : Object) :
  validate_configs host self = true ->
  setup_scene host self s = (s1, Ok (Some obj)) ->
  (forall n, raises host (OpModeSet OBJECT) n = false) ->
  (forall n, raises host (OpExportGltf (output_glb self)) n = false) ->
  let s2 := after_cameras host (configs self) s1 in
  process_cameras host (configs self) s1 = (s2, Ok tt)
  /\ exists s3,
       process host self s = (s3, Ok true)
       /\ main host self s = (s3, 0%Z)
       /\ trace s3 = trace s2 ++ [OpModeSet OBJECT; OpExportGltf (output_glb self)].
Proof.
  intros Hv Hsetup Hmode Hexp s2.
  pose proof (process_cameras_all host (configs self) s1) as Hloop. fold s2 in Hloop.
  split; [exact Hloop |].
  assert (Hmesh : scene_mesh s2 <> None).
  { apply after_cameras_has_mesh. exact (setup_scene_has_mesh _ _ _ _ _ Hsetup). }
  destruct (scene_mesh s2) as [obj2 |] eqn:E2; [| contradiction].
  assert (Hp : exists s3,
             process host self s = (s3, Ok true)
             /\ trace s3 = trace s2 ++ [OpModeSet OBJECT; OpExportGltf (output_glb self)]).
  { unfold process, try_except. rewrite Hv. cbn [negb].
    rewrite (bind_ok _ _ _ _ _ Hsetup).
    rewrite (bind_ok _ _ _ _ _ Hloop).
    unfold bind at 1 2. unfold mode_set. rewrite E2.
    unfold bind, host_call. cbn. rewrite Hmode. cbn.
    rewrite Hexp. cbn. eexists. split; [reflexivity |].
    cbn. rewrite <- app_assoc. reflexivity. }
  destruct Hp as (s3 & Hp & Ht). exists s3.
  split; [exact Hp |]. split; [| exact Ht].
  unfold main. rewrite Hp. reflexivity.
Qed.

(** A run in which every camera fails: the first camera selects no face
    and returns [False] after the selection, the second one raises when the
    material slot is assigned.  The export is reached and the exit code
    is 0. *)
Lemma camera_failures_do_not_abort_witness :
  (exists obj',
     process_camera_view ex_host_assign_fails ex_skipped_config ex_state2
     = (mkState (Some obj') (Some ex_side_camera) [] (cameras ex_state2)
                (trace ex_state2
                 ++ [SetSceneCamera "Camera_Side"; OpModeSet EDIT; SelectFaces]),
        Ok false))
  /\ snd (process_camera_view
            ex_host_assign_fails ex_config
            (fst (process_camera_view ex_host_assign_fails ex_skipped_config ex_state2)))
     = Ok false
  /\ exists s3,
       main ex_host_assign_fails ex_two_mapper ex_state0 = (s3, 0%Z)
       /\ trace s3
          = trace (after_cameras ex_host_assign_fails (configs ex_two_mapper) ex_state2)
            ++ [OpModeSet OBJECT; OpExportGltf "output.glb"].
Proof.
  split; [exact ex_skipped_camera |].
  split; [apply assign_raises_camera_fails; reflexivity |].
  destruct (camera_failures_do_not_abort
              ex_host_assign_fails ex_two_mapper ex_state0 ex_state2 ex_imported)
    as (_ & s3 & _ & Hmain & Ht);
    [reflexivity | exact ex_setup_scene_two | reflexivity | reflexivity |].
  exists s3. split; assumption.
Defined.

(** C6 as stated fails: validation passes and the scene is set up, yet the
    run ends with exit code 1 when the exporter raises. *)
Lemma exit_code_zero_counterexample :
  validate_configs ex_host_export_fails ex_mapper = true
  /\ setup_scene ex_host_export_fails ex_mapper ex_state0
     = (ex_state1, Ok (Some ex_imported))
  /\ snd (main ex_host_export_fails ex_mapper ex_state0) = 1%Z.
Proof.
  split; [reflexivity |]. split; [exact ex_setup_scene_export_fails |].
  apply export_raises_exit_code. reflexivity.
Qed.

(** * Further properties of the code *)

(** ** FaceSelector.select_faces_by_criteria *)

Lemma criterion_flag_blind (obj : Object) (p : SelectionParams) (passes : BMFace -> bool) :
  criterion obj p = Ok passes -> flag_blind passes.
Proof.
  unfold criterion. destruct (py_position _ _) as [k | e]; [| discriminate].
  destruct (type p =? "max_coord")%string.
  - destruct (py_max _); [| discriminate]. intros H. injection H as <-.
    intros b face. reflexivity.
  - destruct (type p =? "min_coord")%string.
    + destruct (py_min _); [| discriminate]. intros H. injection H as <-.
      intros b face. reflexivity.
    + intros H. injection H as <-. intros b face. reflexivity.
Qed.

Lemma selection_of_twice (passes : BMFace -> bool) (fs : list BMFace) :
  flag_blind passes ->
  selection_of passes (selection_of passes fs) = selection_of passes fs.
Proof.
  intros Hb. unfold selection_of. rewrite map_map. apply map_ext.
  intros face. rewrite Hb. reflexivity.
Qed.

Lemma count_passing_selection_of (passes : BMFace -> bool) (fs : list BMFace) :
  flag_blind passes ->
  count_passing passes (selection_of passes fs) = count_passing passes fs.
Proof.
  intros Hb. unfold count_passing, selection_of. f_equal.
  induction fs as [| face rest IH]; cbn; [reflexivity |].
  rewrite Hb. destruct (passes face); cbn; congruence.
Qed.

(** X1. Selecting again with the same parameters changes nothing: the
    second call leaves the mesh as the first did and gives the same count or
    the same exception. *)
Theorem select_twice_same (obj : Object) (p : SelectionParams) :
  select_faces_by_criteria (fst (select_faces_by_criteria obj p)) p
  = select_faces_by_criteria obj p.
Proof.
  rewrite (select_faces_by_criteria_eq obj p).
  destruct (mode obj) eqn:Hm.
  - cbn [fst]. rewrite select_faces_by_criteria_eq, Hm. reflexivity.
  - destruct (criterion obj p) as [passes | e] eqn:Hc; cbn [fst].
    + set (fs := selection_of passes (faces (data obj))).
      rewrite (select_faces_by_criteria_eq (set_faces obj fs) p).
      change (mode (set_faces obj fs)) with (mode obj).
      change (criterion (set_faces obj fs) p) with (criterion obj p).
      change (faces (data (set_faces obj fs))) with fs.
      rewrite Hm, Hc. subst fs.
      pose proof (criterion_flag_blind _ _ _ Hc) as Hb.
      rewrite selection_of_twice, count_passing_selection_of by assumption.
      reflexivity.
    + set (fs := map (set_select false) (faces (data obj))).
      rewrite (select_faces_by_criteria_eq (set_faces obj fs) p).
      change (mode (set_faces obj fs)) with (mode obj).
      change (criterion (set_faces obj fs) p) with (criterion obj p).
      change (faces (data (set_faces obj fs))) with fs.
      rewrite Hm, Hc. subst fs. rewrite map_map. reflexivity.
Qed.

(** X2. No face is selected both with a positive and with a negative
    [normal_direction], the criteria being otherwise the same. *)
Theorem positive_negative_disjoint
        (obj : Object) (p : SelectionParams) (a b : Z) (i : nat) :
  (0 < a)%Z -> (b < 0)%Z ->
  selected_after (select_faces_by_criteria obj (with_normal_direction a p)) i ->
  ~ selected_after (select_faces_by_criteria obj (with_normal_direction b p)) i.
Proof.
  intros Ha Hb H1 H2.
  apply selected_after_iff in H1 as (_ & pa & fa & Hca & Hna & Hpa).
  apply selected_after_iff in H2 as (_ & pb & fb & Hcb & Hnb & Hpb).
  rewrite Hna in Hnb. injection Hnb as <-.
  unfold criterion in Hca, Hcb.
  cbn [with_normal_direction coord type epsilon normal_direction] in Hca, Hcb.
  destruct (py_position _ _) as [k | e]; [| discriminate].
  assert (Hn : normal_passes (matrix_world obj) k a fa = true ->
               normal_passes (matrix_world obj) k b fa = true -> False).
  { intros Hx Hy. apply normal_passes_iff in Hx, Hy.
    destruct Hx as [Hx | [[_ Hx] | [Hx _]]]; [lia | | lia].
    destruct Hy as [Hy | [[Hy _] | [_ Hy]]]; [lia | lia |]. lra. }
  destruct (type p =? "max_coord")%string.
  - destruct (py_max _); [| discriminate].
    injection Hca as <-. injection Hcb as <-.
    apply andb_true_iff in Hpa as [_ Hpa]. apply andb_true_iff in Hpb as [_ Hpb]. auto.
  - destruct (type p =? "min_coord")%string.
    + destruct (py_min _); [| discriminate].
      injection Hca as <-. injection Hcb as <-.
      apply andb_true_iff in Hpa as [_ Hpa]. apply andb_true_iff in Hpb as [_ Hpb]. auto.
    + injection Hca as <-. discriminate.
Qed.

Lemma positive_negative_disjoint_witness :
  selected_after (select_faces_by_criteria ex_obj (ex_params "max_coord" 3 1)) 0
  /\ ~ selected_after (select_faces_by_criteria ex_obj (ex_params "max_coord" 3 (-1))) 0.
Proof.
  assert (H : selected_after
                (select_faces_by_criteria ex_obj (ex_params "max_coord" 3 1)) 0)
    by (apply ex_top_selected; [lra | lia]).
  split; [exact H |].
  apply (positive_negative_disjoint ex_obj (ex_params "max_coord" 3 1) 1 (-1) 0);
    [lia | lia | exact H].
Defined.

(** X3. An axis index outside [-3 .. 2] makes the call raise [IndexError]
    whatever the selection type, also for [custom] and unknown types; the
    selection the mesh had is gone all the same, since the faces were
    deselected before the axis was looked up. *)
Theorem axis_out_of_range_raises (obj : Object) (p : SelectionParams) :
  mode obj = EDIT -> (coord p < -3 \/ 2 < coord p)%Z ->
  select_faces_by_criteria obj p
  = (set_faces obj (map (set_select false) (faces (data obj))), Raise IndexError).
Proof.
  intros Hm Hc. rewrite select_faces_by_criteria_eq, Hm. unfold criterion.
  assert (Hp : py_position (List.length axis_names) (coord p) = Raise IndexError).
  { unfold py_position. cbn [axis_names List.length].
    destruct ((0 <=? coord p) && (coord p <? Z.of_nat 3))%Z eqn:E1.
    - apply andb_true_iff in E1 as [H1 H2].
      apply Z.leb_le in H1. apply Z.ltb_lt in H2. lia.
    - destruct ((- Z.of_nat 3 <=? coord p) && (coord p <? 0))%Z eqn:E2; [| reflexivity].
      apply andb_true_iff in E2 as [H1 H2].
      apply Z.leb_le in H1. apply Z.ltb_lt in H2. lia. }
  rewrite Hp. reflexivity.
Qed.

Lemma axis_out_of_range_raises_witness :
  select_faces_by_criteria ex_obj (mkSelectionParams "custom" 3 1.5 1)
  = (set_faces ex_obj (map (set_select false) (faces (data ex_obj))), Raise IndexError).
Proof.
  apply (axis_out_of_range_raises ex_obj (mkSelectionParams "custom" 3 1.5 1));
    [reflexivity | cbn; lia].
Defined.

(** X4. With tolerance 0 a [max_coord] selection marks exactly the faces
    that pass the normal filter and have every vertex at the maximum itself,
    for faces whose vertices are vertices of the mesh. *)
Theorem zero_tolerance_selects_at_maximum
        (obj : Object) (p : SelectionParams) (top : float) (i : nat) (face : BMFace) :
  mode obj = EDIT -> (0 <= coord p <= 2)%Z -> type p = "max_coord"%string ->
  epsilon p = 0 ->
  is_maximum top (axis_coords obj (Z.to_nat (coord p))) ->
  nth_error (faces (data obj)) i = Some face -> face_in_mesh obj face ->
  (selected_after (select_faces_by_criteria obj p) i
   <-> (forall v, In v (face_verts face) ->
                  world_coord (matrix_world obj) (Z.to_nat (coord p)) v = top)
       /\ normal_filter (matrix_world obj) (Z.to_nat (coord p)) (normal_direction p) face).
Proof.
  intros Hm Hc Ht He Hmax Hnth Hin.
  rewrite (selected_after_max obj p top i Hm Hc Ht Hmax). rewrite He. split.
  - intros (face' & Hnth' & Hnear & Hnf). rewrite Hnth in Hnth'. injection Hnth' as <-.
    split; [| assumption]. intros v Hv.
    specialize (Hnear v Hv). destruct Hmax as [_ Hub].
    assert (world_coord (matrix_world obj) (Z.to_nat (coord p)) v <= top).
    { apply Hub. unfold axis_coords. apply in_map. apply Hin. assumption. }
    lra.
  - intros [Heq Hnf]. exists face. split; [assumption |]. split; [| assumption].
    intros v Hv. rewrite (Heq v Hv). lra.
Qed.

Lemma zero_tolerance_selects_at_maximum_witness :
  selected_after (select_faces_by_criteria ex_obj (ex_params "max_coord" 0 1)) 0
  /\ ~ selected_after (select_faces_by_criteria ex_obj (ex_params "max_coord" 0 0)) 2.
Proof.
  split.
  - apply (zero_tolerance_selects_at_maximum ex_obj (ex_params "max_coord" 0 1) 0 0 ex_top);
      try reflexivity; [cbn; lia | exact ex_maximum | |].
    + intros v Hv. cbn in Hv |- *. tauto.
    + split.
      * intros v Hv. cbn in Hv.
        repeat (destruct Hv as [<- | Hv]; [geom; lra |]). destruct Hv.
      * right; left. geom. split; [lia | lra].
  - intros H.
    apply (zero_tolerance_selects_at_maximum ex_obj (ex_params "max_coord" 0 0) 0 2 ex_side)
      in H; try reflexivity; [| cbn; lia | exact ex_maximum |].
    + destruct H as [H _]. specialize (H (vtx 0 0 (-2))).
      assert (Hv : In (vtx 0 0 (-2)) (face_verts ex_side)) by (cbn; tauto).
      specialize (H Hv). geom. lra.
    + intros v Hv. cbn in Hv |- *. tauto.
Defined.

(** X5. Whatever the call does (return or raise), it edits nothing but the
    selection flags of the faces: mode, transform, vertices, UV layers,
    material slots and active slot are the same, and so is every face once
    its flag is set aside. *)
Theorem select_edits_flags_only (obj : Object) (p : SelectionParams) :
  let obj' := fst (select_faces_by_criteria obj p) in
  mode obj' = mode obj
  /\ matrix_world obj' = matrix_world obj
  /\ verts (data obj') = verts (data obj)
  /\ uv_layers obj' = uv_layers obj
  /\ material_slots obj' = material_slots obj
  /\ active_material_index obj' = active_material_index obj
  /\ map (set_select false) (faces (data obj')) = map (set_select false) (faces (data obj)).
Proof.
  rewrite select_faces_by_criteria_eq. destruct (mode obj) eqn:Hm.
  - cbn. rewrite Hm. repeat split.
  - destruct (criterion obj p) as [passes | e]; cbn; rewrite ?Hm; repeat split.
    + apply selection_of_flags.
    + rewrite map_map. reflexivity.
Qed.

(** ** UVProjector.project_from_view_manual *)

Lemma project_face_with_uv (g : Vector -> float * float) (persp : option (float * float))
      (mw inv : Matrix) (face : BMFace) :
  (forall p, compute_uv persp p = Ok (g p)) ->
  project_face mw inv persp face = (face_with_uv g mw inv face, Ok tt).
Proof.
  intros Hg. unfold project_face, face_with_uv.
  destruct (select face); [| reflexivity].
  rewrite (for_each_total _ (fun l => set_uv (g (vert_view mw inv l)) l)).
  - reflexivity.
  - intros l _. unfold project_loop. now rewrite Hg.
Qed.

(** The call in closed form when no division can fail. *)
Lemma project_from_view_manual_total
      (host : Host) (camera : Camera) (s : State) (obj : Object) (inv : Matrix)
      (persp : option (float * float)) (g : Vector -> float * float) :
  view_params (cam_data camera) = Ok persp ->
  (forall p, compute_uv persp p = Ok (g p)) ->
  scene_mesh s = Some obj ->
  mode obj = EDIT \/ raises host (OpModeSet EDIT) (List.length (trace s)) = false ->
  inverted (cam_matrix_world camera) = Ok inv ->
  (exists face, In face (faces (data obj)) /\ select face = true) ->
  exists s' obj',
    project_from_view_manual host camera s = (s', Ok true)
    /\ scene_mesh s' = Some obj'
    /\ faces (data obj') = map (face_with_uv g (matrix_world obj) inv) (faces (data obj)).
Proof.
  intros Hvp Hg Hmesh Hmode Hinv (face & Hin & Hsel).
  assert (Hne : filter select (faces (data obj)) <> []).
  { intros Hnil. assert (Hc : In face (filter select (faces (data obj))))
      by (apply filter_In; auto). rewrite Hnil in Hc. destruct Hc. }
  destruct s as [m sc im cams tr]. cbn in Hmesh, Hmode. subst m.
  unfold project_from_view_manual, bind, get_obj, lift, from_edit_mesh. cbn.
  destruct (mode obj) eqn:Hm; cbn.
  - destruct Hmode as [Hmode | Hr]; [discriminate |].
    unfold mode_set, host_call, bind. cbn. rewrite Hr. cbn. rewrite Hinv.
    destruct (filter select (faces (data obj))) as [| f0 fs]; [contradiction |].
    rewrite Hvp. unfold write_uvs. cbn.
    rewrite (for_each_total _ (face_with_uv g (matrix_world obj) inv))
      by (intros a _; now apply project_face_with_uv).
    do 2 eexists. split; [reflexivity |]. split; reflexivity.
  - rewrite Hinv. rewrite ?Hm. cbn.
    destruct (filter select (faces (data obj))) as [| f0 fs]; [contradiction |].
    rewrite Hvp. unfold write_uvs. cbn.
    rewrite (for_each_total _ (face_with_uv g (matrix_world obj) inv))
      by (intros a _; now apply project_face_with_uv).
    do 2 eexists. split; [reflexivity |]. split; reflexivity.
Qed.

Lemma view_params_not_persp (cam : CameraData) :
  cam_type cam <> PERSP -> view_params cam = Ok None.
Proof.
  intros H. unfold view_params. destruct (cam_type cam); [contradiction | |]; reflexivity.
Qed.

(** X6. Under a camera that is not a perspective camera, every corner of a
    selected face is assigned [u = 0.5 + x / 10] and [v = 0.5 + y / 10] from
    its camera-space position, whatever its depth: there is no fallback
    behind the camera, and sensor and focal length play no part. *)
Theorem orthographic_uv
        (host : Host) (camera : Camera) (s : State) (obj : Object) (inv : Matrix)
        (i j : nat) (face : BMFace) (loop : BMLoop) :
  cam_type (cam_data camera) <> PERSP ->
  scene_mesh s = Some obj ->
  mode obj = EDIT \/ raises host (OpModeSet EDIT) (List.length (trace s)) = false ->
  inverted (cam_matrix_world camera) = Ok inv ->
  nth_error (faces (data obj)) i = Some face -> select face = true ->
  nth_error (loops face) j = Some loop ->
  exists s' obj' face' loop',
    project_from_view_manual host camera s = (s', Ok true)
    /\ scene_mesh s' = Some obj'
    /\ nth_error (faces (data obj')) i = Some face'
    /\ nth_error (loops face') j = Some loop'
    /\ vert loop' = vert loop
    /\ uv loop' = ortho_uv (vert_view (matrix_world obj) inv loop).
Proof.
  intros Hcam Hmesh Hmode Hinv Hi Hsel Hj.
  destruct (project_from_view_manual_total host camera s obj inv None ortho_uv)
    as (s' & obj' & Hrun & Hm' & Hfaces); try assumption.
  - now apply view_params_not_persp.
  - intros p. reflexivity.
  - exists face. split; [eapply nth_error_In; eassumption | assumption].
  - exists s', obj', (face_with_uv ortho_uv (matrix_world obj) inv face),
           (set_uv (ortho_uv (vert_view (matrix_world obj) inv loop)) loop).
    split; [exact Hrun |]. split; [exact Hm' |].
    split; [rewrite Hfaces, nth_error_map, Hi; reflexivity |].
    unfold face_with_uv. rewrite Hsel. cbn [loops set_loops].
    rewrite nth_error_map, Hj. cbn. auto.
Qed.

Lemma orthographic_uv_witness :
  exists s' obj' face' loop',
    project_from_view_manual
      ex_host (mkCamera "Ortho" (translation 0 0 10) (mkCameraData ORTHO 36 24 50))
      ex_wide_state = (s', Ok true)
    /\ scene_mesh s' = Some obj'
    /\ nth_error (faces (data obj')) 0 = Some face'
    /\ nth_error (loops face') 2 = Some loop'
    /\ uv loop' = (0.5, 0.5).
Proof.
  destruct (orthographic_uv
              ex_host (mkCamera "Ortho" (translation 0 0 10) (mkCameraData ORTHO 36 24 50))
              ex_wide_state ex_wide_obj (translation (- 0) (- 0) (- 10)) 0 2
              ex_wide (corner 0 0 20))
    as (s' & obj' & face' & loop' & Hrun & Hm & Hi & Hj & _ & Huv);
    try reflexivity.
  - discriminate.
  - now left.
  - apply inverted_translation.
  - exists s', obj', face', loop'. repeat (split; [assumption |]).
    rewrite Huv. unfold ortho_uv. geom. f_equal; lra.
Defined.

Lemma Forall2_refl {A : Type} (P : A -> A -> Prop) (l : list A) :
  (forall a, P a a) -> Forall2 P l l.
Proof. intros H. induction l; constructor; auto. Qed.

Lemma for_each_Forall2 {A : Type} (P : A -> A -> Prop) (body : A -> A * Result unit) :
  (forall a, P a a) ->
  (forall a a' r, body a = (a', r) -> P a a') ->
  forall l l' r, for_each body l = (l', r) -> Forall2 P l l'.
Proof.
  intros Hrefl Hbody. induction l as [| a rest IH]; intros l' r H; cbn in H.
  - injection H as <- _. constructor.
  - destruct (body a) as [a' [u | e]] eqn:E.
    + destruct (for_each body rest) as [rest' r'] eqn:E'. injection H as <- _.
      constructor; [exact (Hbody _ _ _ E) | exact (IH _ _ eq_refl)].
    + injection H as <- _. constructor; [exact (Hbody _ _ _ E) |].
      now apply Forall2_refl.
Qed.

Lemma Forall2_map_eq {A B : Type} (f : A -> B) (l l' : list A) :
  Forall2 (fun a a' => f a' = f a) l l' -> map f l' = map f l.
Proof. induction 1; cbn; congruence. Qed.

Lemma uv_only_refl (face : BMFace) : uv_only face face.
Proof. unfold uv_only. auto. Qed.

Lemma project_face_uv_only (mw inv : Matrix) (persp : option (float * float))
      (face face' : BMFace) (r : Result unit) :
  project_face mw inv persp face = (face', r) -> uv_only face face'.
Proof.
  unfold project_face. destruct (select face) eqn:Hsel.
  - destruct (for_each _ _) as [ls r0] eqn:E. intros H. injection H as <- _.
    unfold uv_only. cbn. repeat split; try (intros H0; congruence).
    apply Forall2_map_eq.
    apply (for_each_Forall2 (fun l l' => vert l' = vert l) _
             (fun _ => eq_refl)) in E; [exact E |].
    intros a a' r1. unfold project_loop.
    destruct (compute_uv _ _); intros H; injection H as <- _; reflexivity.
  - intros H. injection H as <- _. unfold uv_only. auto.
Qed.

Lemma project_from_view_manual_uv_only
        (host : Host) (camera : Camera) (s s' : State) (obj : Object) (r : Result bool) :
  scene_mesh s = Some obj ->
  project_from_view_manual host camera s = (s', r) ->
  exists obj',
    scene_mesh s' = Some obj'
    /\ matrix_world obj' = matrix_world obj
    /\ verts (data obj') = verts (data obj)
    /\ material_slots obj' = material_slots obj
    /\ images s' = images s
    /\ Forall2 uv_only (faces (data obj)) (faces (data obj')).
Proof.
  intros Hmesh. destruct s as [m sc im cams tr]. cbn in Hmesh. subst m.
  assert (Hsame : forall o, matrix_world o = matrix_world obj ->
                            verts (data o) = verts (data obj) ->
                            material_slots o = material_slots obj ->
                            faces (data o) = faces (data obj) ->
            exists obj', Some o = Some obj'
              /\ matrix_world obj' = matrix_world obj
              /\ verts (data obj') = verts (data obj)
              /\ material_slots obj' = material_slots obj
              /\ im = im
              /\ Forall2 uv_only (faces (data obj)) (faces (data obj'))).
  { intros o H1 H2 H3 H4. exists o. rewrite H4.
    repeat split; try assumption. apply Forall2_refl, uv_only_refl. }
  unfold project_from_view_manual, bind, get_obj, lift, from_edit_mesh. cbn.
  destruct (mode obj) eqn:Hm; cbn.
  - unfold mode_set, host_call, bind. cbn.
    destruct (raises host (OpModeSet EDIT) (List.length tr)); cbn.
    { intros H. injection H as <- _. cbn. now apply Hsame. }
    destruct (inverted (cam_matrix_world camera)) as [inv | e]; cbn.
    2:{ intros H. injection H as <- _. cbn. now apply Hsame. }
    destruct (filter select (faces (data obj))) as [| f0 fs]; cbn.
    { intros H. injection H as <- _. cbn. now apply Hsame. }
    destruct (view_params (cam_data camera)) as [persp | e]; cbn.
    2:{ intros H. injection H as <- _. cbn. now apply Hsame. }
    unfold write_uvs. cbn.
    destruct (for_each _ _) as [fs' r0] eqn:E. cbn.
    intros H. assert (Hs : scene_mesh s'
                           = Some (set_faces (verify host (set_mode EDIT obj)) fs')
                           /\ images s' = im).
    { destruct r0; injection H as <- _; cbn; auto. }
    destruct Hs as [Hs Hi]. eexists. split; [exact Hs |]. cbn.
    repeat split; try assumption.
    apply (for_each_Forall2 uv_only _ uv_only_refl) in E; [exact E |].
    intros a a' r1. apply project_face_uv_only.
  - rewrite ?Hm. cbn.
    destruct (inverted (cam_matrix_world camera)) as [inv | e]; cbn.
    2:{ intros H. injection H as <- _. cbn. now apply Hsame. }
    rewrite ?Hm. cbn.
    destruct (filter select (faces (data obj))) as [| f0 fs]; cbn.
    { intros H. injection H as <- _. cbn. now apply Hsame. }
    destruct (view_params (cam_data camera)) as [persp | e]; cbn.
    2:{ intros H. injection H as <- _. cbn. now apply Hsame. }
    unfold write_uvs. cbn.
    destruct (for_each _ _) as [fs' r0] eqn:E. cbn.
    intros H. assert (Hs : scene_mesh s' = Some (set_faces (verify host obj) fs')
                           /\ images s' = im).
    { destruct r0; injection H as <- _; cbn; auto. }
    destruct Hs as [Hs Hi]. eexists. split; [exact Hs |]. cbn.
    repeat split; try assumption.
    apply (for_each_Forall2 uv_only _ uv_only_refl) in E; [exact E |].
    intros a a' r1. apply project_face_uv_only.
Qed.

(** X7. Whatever the projection does (return [True] or [False], or raise
    half-way), it leaves the transform, the vertices and the material slots
    alone, and of every face it changes at most the UV pairs of its corners:
    normal, selection flag, material index and the vertices of the corners
    stay, and a face that is not selected is not touched at all. *)
Theorem projection_edits_uv_only
        (host : Host) (camera : Camera) (s s' : State) (obj : Object) (r : Result bool) :
  scene_mesh s = Some obj ->
  project_from_view_manual host camera s = (s', r) ->
  exists obj',
    scene_mesh s' = Some obj'
    /\ matrix_world obj' = matrix_world obj
    /\ verts (data obj') = verts (data obj)
    /\ material_slots obj' = material_slots obj
    /\ images s' = images s
    /\ Forall2 uv_only (faces (data obj)) (faces (data obj')).
Proof. apply project_from_view_manual_uv_only. Qed.

Lemma projection_edits_uv_only_witness :
  exists obj',
    scene_mesh (fst (project_from_view_manual ex_host ex_camera ex_wide_state)) = Some obj'
    /\ verts (data obj') = verts (data ex_wide_obj)
    /\ Forall2 uv_only (faces (data ex_wide_obj)) (faces (data obj')).
Proof.
  destruct (projection_edits_uv_only
              ex_host ex_camera ex_wide_state
              (fst (project_from_view_manual ex_host ex_camera ex_wide_state))
              ex_wide_obj
              (snd (project_from_view_manual ex_host ex_camera ex_wide_state)))
    as (obj' & Hm & _ & Hv & _ & _ & Hf).
  - reflexivity.
  - apply surjective_pairing.
  - exists obj'. auto.
Defined.

Lemma verify_has_layer (host : Host) (obj : Object) :
  uv_layers obj <> [] -> verify host obj = obj.
Proof.
  destruct obj as [md mw dt layers slots a]. unfold verify. cbn.
  destruct layers; [contradiction | reflexivity].
Qed.

(** X8. With no face selected and an invertible camera matrix, the
    projection returns [False]; no UV is written and no step is added to
    the trace.  All it can have changed is what [verify()] does on entry: a
    mesh without a UV layer has got one.  On a mesh that has a UV layer the
    state is the one the call started from. *)
Theorem projection_without_selection
        (host : Host) (camera : Camera) (s : State) (obj : Object) (inv : Matrix) :
  scene_mesh s = Some obj -> mode obj = EDIT ->
  inverted (cam_matrix_world camera) = Ok inv ->
  filter select (faces (data obj)) = [] ->
  project_from_view_manual host camera s
  = (mkState (Some (verify host obj)) (scene_camera s) (images s) (cameras s) (trace s),
     Ok false)
  /\ (uv_layers obj <> [] -> project_from_view_manual host camera s = (s, Ok false)).
Proof.
  intros Hmesh Hmode Hinv Hsel.
  destruct s as [m sc im cams tr]. cbn in Hmesh. subst m.
  assert (H : project_from_view_manual host camera (mkState (Some obj) sc im cams tr)
              = (mkState (Some (verify host obj)) sc im cams tr, Ok false)).
  { unfold project_from_view_manual, bind, get_obj, lift, from_edit_mesh. cbn.
    rewrite Hmode. cbn. rewrite Hinv. rewrite ?Hmode. cbn. rewrite Hsel. reflexivity. }
  split; [exact H |]. intros Hl. rewrite H, (verify_has_layer host obj Hl). reflexivity.
Qed.

Lemma projection_without_selection_witness :
  project_from_view_manual ex_host ex_camera ex_cleared_state
  = (mkState (Some (add_uv_layer "UVMap" ex_cleared_obj)) None [] [] [], Ok false)
  /\ project_from_view_manual
       ex_host ex_camera (mkState (Some (add_uv_layer "UV" ex_cleared_obj)) None [] [] [])
     = (mkState (Some (add_uv_layer "UV" ex_cleared_obj)) None [] [] [], Ok false).
Proof.
  split.
  - apply (projection_without_selection ex_host ex_camera ex_cleared_state
             ex_cleared_obj (translation (- 0) (- 0) (- 10)));
      try reflexivity.
    apply inverted_translation.
  - apply (projection_without_selection
             ex_host ex_camera
             (mkState (Some (add_uv_layer "UV" ex_cleared_obj)) None [] [] [])
             (add_uv_layer "UV" ex_cleared_obj) (translation (- 0) (- 0) (- 10)));
      try reflexivity.
    + apply inverted_translation.
    + discriminate.
Defined.



(** ** BlenderHelper.setup_material_with_texture *)

Lemma grow_slots_spec (material_index : Z) (rounds : nat)
      (slots : list (option Material)) (s : State) :
  rounds = missing_slots slots material_index ->
  grow_slots rounds slots material_index s
  = (add_events (repeat MaterialsAppend rounds) s, Ok (slots ++ repeat None rounds)).
Proof.
  unfold missing_slots. revert slots s.
  induction rounds as [| rounds IH]; intros slots s Hr; cbn [grow_slots repeat].
  - unfold ret, add_events. rewrite !app_nil_r. destruct s; reflexivity.
  - replace (Z.of_nat (List.length slots) <=? material_index)%Z with true
      by (symmetry; apply Z.leb_le; lia).
    unfold bind, record. rewrite IH.
    + unfold add_events. cbn. rewrite <- !app_assoc. reflexivity.
    + rewrite length_app. cbn [List.length]. lia.
Qed.

Lemma py_position_in_range (n : nat) (i : Z) :
  (0 <= i < Z.of_nat n)%Z -> py_position n i = Ok (Z.to_nat i).
Proof.
  intros H. unfold py_position.
  replace ((0 <=? i) && (i <? Z.of_nat n))%Z with true; [reflexivity |].
  symmetry. apply andb_true_iff. split; [apply Z.leb_le | apply Z.ltb_lt]; lia.
Qed.

Lemma grown_length (slots : list (option Material)) (i : Z) :
  (0 <= i)%Z ->
  (Z.to_nat i < List.length (slots ++ repeat None (missing_slots slots i)))%nat.
Proof.
  intros H. rewrite length_app, repeat_length. unfold missing_slots. lia.
Qed.

Lemma replace_nth_length {A : Type} (k : nat) (a : A) (l : list A) :
  List.length (replace_nth k a l) = List.length l.
Proof.
  revert k. induction l as [| b rest IH]; intros k; destruct k; cbn; auto.
Qed.

Lemma replace_nth_same {A : Type} (k : nat) (a d : A) (l : list A) :
  (k < List.length l)%nat -> nth k (replace_nth k a l) d = a.
Proof.
  revert k. induction l as [| b rest IH]; intros k H; destruct k; cbn in *;
    try lia; auto. apply IH. lia.
Qed.

Lemma replace_nth_other {A : Type} (k j : nat) (a d : A) (l : list A) :
  j <> k -> nth j (replace_nth k a l) d = nth j l d.
Proof.
  revert k j. induction l as [| b rest IH]; intros k j H; destruct k, j; cbn;
    try reflexivity; try congruence. apply IH. congruence.
Qed.

Lemma replace_nth_twice {A : Type} (k : nat) (a b : A) (l : list A) :
  replace_nth k a (replace_nth k b l) = replace_nth k a l.
Proof.
  revert k. induction l as [| c rest IH]; intros k; destruct k; cbn; congruence.
Qed.

Lemma existsb_path (path : string) (imgs : list string) :
  existsb (fun filepath => (filepath =? path)%string) imgs = true <-> In path imgs.
Proof.
  rewrite existsb_exists. split.
  - intros (x & Hin & Heq). apply String.eqb_eq in Heq. now subst.
  - intros H. exists path. split; [assumption | apply String.eqb_refl].
Qed.

Lemma not_in_repeat_append (e : Event) (n : nat) (l : list Event) :
  e <> MaterialsAppend -> ~ In e l -> ~ In e (repeat MaterialsAppend n ++ l).
Proof.
  intros He Hl Hin. apply in_app_or in Hin as [Hin | Hin]; [| contradiction].
  apply repeat_spec in Hin. contradiction.
Qed.

(** What a call that returns has done. *)
Lemma setup_material_outcome
      (host : Host) (idx : Z) (path mname : string) (s s' : State) (obj : Object)
      (mat : Material) :
  (0 <= idx)%Z -> scene_mesh s = Some obj ->
  setup_material_with_texture host idx path mname s = (s', Ok mat) ->
  exists obj',
    scene_mesh s' = Some obj'
    /\ material_slots obj'
       = replace_nth (Z.to_nat idx) (Some mat)
                     (material_slots obj
                      ++ repeat None (missing_slots (material_slots obj) idx))
    /\ mat_name mat = mname
    /\ ((In path (images s) /\ images s' = images s /\ mat_image mat = Some path
         /\ ~ In (ImagesLoad path) (new_events s s'))
        \/ (~ In path (images s) /\ images s' = images s ++ [path]
            /\ mat_image mat = Some path
            /\ exists N, raises host (ImagesLoad path) N = false)
        \/ (~ In path (images s) /\ images s' = images s /\ mat_image mat = None
            /\ exists N, raises host (ImagesLoad path) N = true)).
Proof.
  intros Hidx Hmesh H. destruct s as [m sc im cams tr]. cbn in Hmesh. subst m.
  unfold setup_material_with_texture in H.
  unfold bind at 1 in H. unfold get_obj in H. cbn [scene_mesh] in H.
  unfold bind at 1 in H.
  rewrite (grow_slots_spec idx) in H by reflexivity.
  fold (missing_slots (material_slots obj) idx) in H.
  pose proof (grown_length (material_slots obj) idx Hidx) as Hlen.
  cbn [images].
  set (n := missing_slots (material_slots obj) idx) in *.
  set (slots := material_slots obj ++ repeat None n) in *.
  unfold bind at 1 in H. unfold put_obj, put_mesh, add_events in H.
  cbn [scene_mesh scene_camera images cameras trace] in H.
  unfold bind at 1 in H. unfold lift at 1 in H.
  rewrite py_position_in_range in H by lia.
  set (k := Z.to_nat idx) in *.
  assert (Hin : existsb (fun filepath => (filepath =? path)%string) im = true
                <-> In path im) by apply existsb_path.
  clearbody slots k n.
  unfold bind, set_slot_material, record, host_call, try_except, get_obj, get_images,
    put_images, put_obj, put_mesh, ret in H.
  assert (Hyes : existsb (fun filepath => (filepath =? path)%string) im = true ->
                 In path im) by apply Hin.
  assert (Hno : existsb (fun filepath => (filepath =? path)%string) im = false ->
                ~ In path im) by (intros Hf Hc; apply Hin in Hc; congruence).
  clear Hin.
  assert (Hev : forall l, ~ In (ImagesLoad path) l ->
                  ~ In (ImagesLoad path)
                      (new_events (mkState (Some obj) sc im cams tr)
                                  (mkState (Some obj) sc im cams
                                           ((tr ++ repeat MaterialsAppend n) ++ l)))).
  { intros l Hl. erewrite new_events_app by (cbn; rewrite <- app_assoc; reflexivity).
    apply not_in_repeat_append; [discriminate | assumption]. }
  unfold new_events in Hev. cbn [trace] in Hev.
  destruct (nth k slots None) as [m0 |] eqn:Hk0; cbn in H.
  - destruct (existsb _ im) eqn:Hex; cbn in H.
    + rewrite ?replace_nth_twice, replace_nth_same in H by assumption.
      injection H as <- <-. eexists. split; [reflexivity |].
      split; [cbn; rewrite ?replace_nth_twice; reflexivity |]. split; [reflexivity |].
      left. split; [now apply Hyes |]. split; [reflexivity |]. split; [reflexivity |].
      unfold new_events. cbn [trace]. apply Hev. intros [Hc | []]. discriminate.
    + destruct (raises host (ImagesLoad path) _) eqn:Hr; cbn in H.
      * rewrite ?replace_nth_twice, replace_nth_same in H by assumption.
        injection H as <- <-. eexists. split; [reflexivity |].
        split; [cbn; rewrite ?replace_nth_twice; reflexivity |]. split; [reflexivity |].
        right; right. split; [now apply Hno |]. eauto.
      * rewrite ?replace_nth_twice, replace_nth_same in H by assumption.
        injection H as <- <-. eexists. split; [reflexivity |].
        split; [cbn; rewrite ?replace_nth_twice; reflexivity |]. split; [reflexivity |].
        right; left. split; [now apply Hno |]. eauto.
  - destruct (raises host (MaterialsNew mname) _); cbn in H; [discriminate |].
    destruct (existsb _ im) eqn:Hex; cbn in H.
    + rewrite ?replace_nth_twice, replace_nth_same in H by assumption.
      injection H as <- <-. eexists. split; [reflexivity |].
      split; [cbn; rewrite ?replace_nth_twice; reflexivity |]. split; [reflexivity |].
      left. split; [now apply Hyes |]. split; [reflexivity |]. split; [reflexivity |].
      unfold new_events. cbn [trace]. rewrite <- (app_assoc _ [_] [_]).
      apply Hev. intros [Hc | [Hc | []]]; discriminate.
    + destruct (raises host (ImagesLoad path) _) eqn:Hr; cbn in H.
      * rewrite ?replace_nth_twice, replace_nth_same in H by assumption.
        injection H as <- <-. eexists. split; [reflexivity |].
        split; [cbn; rewrite ?replace_nth_twice; reflexivity |]. split; [reflexivity |].
        right; right. split; [now apply Hno |]. eauto.
      * rewrite ?replace_nth_twice, replace_nth_same in H by assumption.
        injection H as <- <-. eexists. split; [reflexivity |].
        split; [cbn; rewrite ?replace_nth_twice; reflexivity |]. split; [reflexivity |].
        right; left. split; [now apply Hno |]. eauto.
Qed.

Lemma setup_material_returns
      (host : Host) (idx : Z) (path mname : string) (s : State) (obj : Object) :
  (0 <= idx)%Z -> scene_mesh s = Some obj ->
  (forall N, raises host (MaterialsNew mname) N = false) ->
  exists s' mat, setup_material_with_texture host idx path mname s = (s', Ok mat).
Proof.
  intros Hidx Hmesh Hnew.
  destruct (setup_material_with_texture host idx path mname s) as [s' [mat | e]] eqn:H;
    [eauto | exfalso].
  destruct s as [m sc im cams tr]. cbn in Hmesh. subst m.
  unfold setup_material_with_texture in H.
  unfold bind at 1 in H. unfold get_obj in H. cbn [scene_mesh] in H.
  unfold bind at 1 in H.
  rewrite (grow_slots_spec idx) in H by reflexivity.
  fold (missing_slots (material_slots obj) idx) in H.
  pose proof (grown_length (material_slots obj) idx Hidx) as Hlen.
  set (n := missing_slots (material_slots obj) idx) in *.
  set (slots := material_slots obj ++ repeat None n) in *.
  unfold bind at 1 in H. unfold put_obj, put_mesh, add_events in H.
  cbn [scene_mesh scene_camera images cameras trace] in H.
  unfold bind at 1 in H. unfold lift at 1 in H.
  rewrite py_position_in_range in H by lia.
  set (k := Z.to_nat idx) in *. clearbody slots k n.
  unfold bind, set_slot_material, record, host_call, try_except, get_obj, get_images,
    put_images, put_obj, put_mesh, ret in H.
  destruct (nth k slots None) as [m0 |] eqn:Hk0; cbn in H.
  - destruct (existsb _ im); cbn in H.
    + rewrite ?replace_nth_twice, replace_nth_same in H by assumption. discriminate.
    + destruct (raises host (ImagesLoad path) _); cbn in H;
        rewrite ?replace_nth_twice, replace_nth_same in H by assumption; discriminate.
  - rewrite Hnew in H. cbn in H.
    destruct (existsb _ im); cbn in H.
    + rewrite ?replace_nth_twice, replace_nth_same in H by assumption. discriminate.
    + destruct (raises host (ImagesLoad path) _); cbn in H;
        rewrite ?replace_nth_twice, replace_nth_same in H by assumption; discriminate.
Qed.

Lemma nth_grown (slots : list (option Material)) (n j : nat) :
  nth j (slots ++ repeat None n) None = nth j slots None.
Proof.
  destruct (Nat.lt_ge_cases j (List.length slots)) as [Hlt | Hge].
  - now apply app_nth1.
  - rewrite app_nth2 by assumption. rewrite (nth_overflow slots) by assumption.
    generalize (j - List.length slots)%nat. intros i. revert i.
    induction n as [| n IH]; intros i; destruct i; cbn; auto.
Qed.

(** X12. When [setup_material_with_texture] returns for a non-negative
    index, the object has exactly as many slots as it had, or [index + 1] if
    that is more; the slot at the index holds the returned material, which
    carries the requested name; every other slot is what it was, the added
    ones being empty. *)
Theorem material_slots_only_grow
        (host : Host) (idx : Z) (path mname : string) (s s' : State) (obj : Object)
        (mat : Material) :
  (0 <= idx)%Z -> scene_mesh s = Some obj ->
  setup_material_with_texture host idx path mname s = (s', Ok mat) ->
  exists obj',
    scene_mesh s' = Some obj'
    /\ List.length (material_slots obj')
       = Nat.max (List.length (material_slots obj)) (Z.to_nat idx + 1)
    /\ nth (Z.to_nat idx) (material_slots obj') None = Some mat
    /\ mat_name mat = mname
    /\ forall j, j <> Z.to_nat idx ->
                 nth j (material_slots obj') None = nth j (material_slots obj) None.
Proof.
  intros Hidx Hmesh H.
  destruct (setup_material_outcome _ _ _ _ _ _ _ _ Hidx Hmesh H)
    as (obj' & Hm' & Hslots & Hname & _).
  pose proof (grown_length (material_slots obj) idx Hidx) as Hlen.
  exists obj'. split; [assumption |]. rewrite Hslots. split; [| split; [| split]].
  - rewrite replace_nth_length, length_app, repeat_length. unfold missing_slots. lia.
  - now apply replace_nth_same.
  - assumption.
  - intros j Hj. rewrite replace_nth_other by assumption. apply nth_grown.
Qed.

Lemma material_slots_only_grow_witness :
  exists s' mat obj',
    setup_material_with_texture ex_host 3 "top.png" "Material_Top" ex_slots_state
    = (s', Ok mat)
    /\ scene_mesh s' = Some obj'
    /\ List.length (material_slots obj') = 4%nat
    /\ nth 1 (material_slots obj') None = Some ex_stone
    /\ nth 3 (material_slots obj') None = Some mat.
Proof.
  destruct (setup_material_returns ex_host 3 "top.png" "Material_Top"
              ex_slots_state ex_slots_obj) as (s' & mat & Hrun);
    [lia | reflexivity | reflexivity |].
  destruct (material_slots_only_grow ex_host 3 "top.png" "Material_Top"
              ex_slots_state s' ex_slots_obj mat)
    as (obj' & Hm & Hlen & Hnth & _ & Hother); [lia | reflexivity | exact Hrun |].
  exists s', mat, obj'. split; [exact Hrun |]. split; [exact Hm |].
  split; [exact Hlen |]. split; [| exact Hnth].
  rewrite (Hother 1%nat); [reflexivity | discriminate].
Defined.

(** X13. Images are looked up by file path: when the texture path is among
    the loaded images the call loads nothing and attaches the image to the
    material; in any case the list of loaded images only grows, and stays
    free of duplicates if it was. *)
Theorem texture_loaded_once
        (host : Host) (idx : Z) (path mname : string) (s s' : State) (obj : Object)
        (mat : Material) :
  (0 <= idx)%Z -> scene_mesh s = Some obj ->
  setup_material_with_texture host idx path mname s = (s', Ok mat) ->
  (In path (images s) ->
   images s' = images s /\ mat_image mat = Some path
   /\ ~ In (ImagesLoad path) (new_events s s'))
  /\ incl (images s) (images s')
  /\ (NoDup (images s) -> NoDup (images s')).
Proof.
  intros Hidx Hmesh H.
  destruct (setup_material_outcome _ _ _ _ _ _ _ _ Hidx Hmesh H)
    as (obj' & _ & _ & _ & Hcases).
  destruct Hcases as [(Hin & Him & Hmat & Hev) | [(Hout & Him & Hmat & _)
                                                  | (Hout & Him & Hmat & _)]].
  - rewrite Him. split; [auto |]. split; [apply incl_refl | auto].
  - rewrite Him. split; [contradiction |]. split; [apply incl_appl, incl_refl |].
    intros Hnd. apply NoDup_app; [assumption | repeat constructor; intros [] |].
    intros a Ha [<- | []]. contradiction.
  - rewrite Him. split; [contradiction |]. split; [apply incl_refl | auto].
Qed.

Lemma texture_loaded_once_witness :
  exists s' mat,
    setup_material_with_texture ex_host 0 "stone.png" "Material_Top" ex_slots_state
    = (s', Ok mat)
    /\ images s' = ["stone.png"%string]
    /\ mat_image mat = Some "stone.png"%string.
Proof.
  destruct (setup_material_returns ex_host 0 "stone.png" "Material_Top"
              ex_slots_state ex_slots_obj) as (s' & mat & Hrun);
    [lia | reflexivity | reflexivity |].
  destruct (texture_loaded_once ex_host 0 "stone.png" "Material_Top"
              ex_slots_state s' ex_slots_obj mat) as (Hreuse & _ & _);
    [lia | reflexivity | exact Hrun |].
  destruct Hreuse as (Him & Hmat & _); [now left |].
  exists s', mat. auto.
Defined.

(** X14. A texture that cannot be loaded does not make the call fail: if
    the path is not among the loaded images and loading raises, the call
    still returns the material (provided the material itself can be
    created), named as requested but without image, and the list of loaded
    images is unchanged. *)
Theorem texture_load_failure_absorbed
        (host : Host) (idx : Z) (path mname : string) (s : State) (obj : Object) :
  (0 <= idx)%Z -> scene_mesh s = Some obj ->
  (forall N, raises host (MaterialsNew mname) N = false) ->
  (forall N, raises host (ImagesLoad path) N = true) ->
  ~ In path (images s) ->
  exists s' mat,
    setup_material_with_texture host idx path mname s = (s', Ok mat)
    /\ mat_name mat = mname /\ mat_image mat = None
    /\ images s' = images s.
Proof.
  intros Hidx Hmesh Hnew Hload Hout.
  destruct (setup_material_returns host idx path mname s obj Hidx Hmesh Hnew)
    as (s' & mat & H).
  exists s', mat. split; [exact H |].
  destruct (setup_material_outcome _ _ _ _ _ _ _ _ Hidx Hmesh H)
    as (obj' & _ & _ & Hname & Hcases).
  split; [assumption |].
  destruct Hcases as [(Hin & _) | [(_ & _ & _ & N & HN) | (_ & Him & Hmat & _)]].
  - contradiction.
  - rewrite Hload in HN. discriminate.
  - auto.
Qed.

Lemma texture_load_failure_absorbed_witness :
  exists s' mat,
    setup_material_with_texture ex_host_no_image 0 "top.png" "Material_Top"
                                ex_slots_state = (s', Ok mat)
    /\ mat_image mat = None
    /\ images s' = ["stone.png"%string].
Proof.
  destruct (texture_load_failure_absorbed ex_host_no_image 0 "top.png" "Material_Top"
              ex_slots_state ex_slots_obj)
    as (s' & mat & Hrun & _ & Hmat & Him);
    [lia | reflexivity | reflexivity | reflexivity | |].
  - intros [H | []]. discriminate.
  - exists s', mat. auto.
Defined.

(** ** TextureMapper.setup_scene *)

Lemma dict_get_set_same {V : Type} (key : string) (value : V) (d : list (string * V)) :
  dict_get key (dict_set key value d) = Some value.
Proof.
  induction d as [| [k v] rest IH]; cbn.
  - now rewrite String.eqb_refl.
  - destruct (k =? key)%string eqn:E; cbn; rewrite E; [reflexivity | exact IH].
Qed.

Lemma dict_get_set_other {V : Type} (key key' : string) (value : V)
      (d : list (string * V)) :
  key <> key' -> dict_get key' (dict_set key value d) = dict_get key' d.
Proof.
  intros Hne. induction d as [| [k v] rest IH]; cbn.
  - destruct (String.eqb_spec key key'); [contradiction | reflexivity].
  - destruct (String.eqb_spec k key) as [-> | Hk]; cbn.
    + destruct (String.eqb_spec key key'); [contradiction | reflexivity].
    + destruct (k =? key')%string; [reflexivity | exact IH].
Qed.

Lemma registered_other (host : Host) (cs : list CameraConfig) (d : list (string * Camera))
      (key : string) :
  ~ In key (map name cs) -> dict_get key (registered host cs d) = dict_get key d.
Proof.
  unfold registered. revert d. induction cs as [| c rest IH]; intros d Hnot; cbn.
  - reflexivity.
  - rewrite IH by (intros H; apply Hnot; now right).
    apply dict_get_set_other. intros H. apply Hnot. now left.
Qed.

Lemma registered_last (host : Host) (l1 l2 : list CameraConfig) (c : CameraConfig)
      (d : list (string * Camera)) :
  ~ In (name c) (map name l2) ->
  dict_get (name c) (registered host (l1 ++ c :: l2) d)
  = Some (new_camera host (name c) (location c) (rotation c)).
Proof.
  intros Hnot. unfold registered. rewrite fold_left_app. cbn [fold_left].
  fold (registered host l2
          (dict_set (name c) (new_camera host (name c) (location c) (rotation c))
                    (fold_left
                       (fun d0 config =>
                          dict_set (name config)
                                   (new_camera host (name config) (location config)
                                               (rotation config)) d0) l1 d))).
  rewrite registered_other by assumption. apply dict_get_set_same.
Qed.

Lemma last_occurrence (cs : list CameraConfig) (key : string) :
  In key (map name cs) ->
  exists l1 c l2, cs = l1 ++ c :: l2 /\ name c = key /\ ~ In key (map name l2).
Proof.
  induction cs as [| a rest IH]; intros Hin; [destruct Hin |].
  destruct (in_dec string_dec key (map name rest)) as [Hlater | Hnot].
  - destruct (IH Hlater) as (l1 & c & l2 & -> & Hn & Hl2).
    exists (a :: l1), c, l2. auto.
  - destruct Hin as [Ha | Hin]; [| contradiction].
    exists [], a, rest. auto.
Qed.

Lemma add_cameras_inv (host : Host) (cs : list CameraConfig) (s s' : State) (u : unit) :
  add_cameras host cs s = (s', Ok u) ->
  scene_mesh s' = scene_mesh s /\ cameras s' = registered host cs (cameras s).
Proof.
  revert s. induction cs as [| c rest IH]; intros s H; cbn [add_cameras] in H.
  - injection H as <- _. auto.
  - apply bind_ok_inv in H as (s1 & cam & H1 & H).
    unfold add_camera in H1. apply bind_ok_inv in H1 as (s0 & u0 & H0 & H1).
    apply host_call_inv in H0 as [_ ->]. injection H1 as <- <-.
    apply bind_ok_inv in H as (s2 & d & H2 & H). injection H2 as <- <-.
    apply bind_ok_inv in H as (s3 & u3 & H3 & H). injection H3 as <- _.
    apply IH in H as [Hm Hc]. cbn in Hm, Hc. auto.
Qed.

(** What [setup_scene] has done when it returns an object. *)
Lemma setup_scene_inv (host : Host) (self : TextureMapper) (s s1 : State) (obj : Object) :
  setup_scene host self s = (s1, Ok (Some obj)) ->
  scene_mesh s1 = Some obj
  /\ cameras s1 = registered host (configs self) (cameras s)
  /\ exists imported,
       ply_mesh host (input_ply self) = Some imported
       /\ ((uv_layers imported <> [] /\ obj = imported)
           \/ (uv_layers imported = []
               /\ obj = add_uv_layer DEFAULT_UV_MAP_NAME imported)).
Proof.
  unfold setup_scene, try_except.
  match goal with |- context [match ?body s with _ => _ end] =>
    destruct (body s) as [s' [a | e]] eqn:E end; [| discriminate].
  intros H. injection H as <- ->.
  apply bind_ok_inv in E as (s2 & u2 & H2 & E). apply host_call_inv in H2 as [_ ->].
  apply bind_ok_inv in E as (s3 & u3 & H3 & E). apply host_call_inv in H3 as [_ ->].
  apply bind_ok_inv in E as (s4 & u4 & H4 & E). injection H4 as <- _.
  apply bind_ok_inv in E as (s5 & u5 & H5 & E). apply host_call_inv in H5 as [_ ->].
  apply bind_ok_inv in E as (s6 & u6 & H6 & E). injection H6 as <- _.
  apply bind_ok_inv in E as (s7 & u7 & H7 & E).
  apply add_cameras_inv in H7 as [Hm7 Hc7]. cbn in Hm7, Hc7.
  rewrite Hm7 in E.
  destruct (ply_mesh host (input_ply self)) as [imported |] eqn:Himp; [| discriminate].
  destruct (uv_layers imported) eqn:Huv.
  - apply bind_ok_inv in E as (s8 & u8 & H8 & E). apply host_call_inv in H8 as [_ ->].
    apply bind_ok_inv in E as (s9 & u9 & H9 & E). injection H9 as <- _.
    injection E as <- <-. cbn. split; [reflexivity |]. split; [assumption |].
    exists imported. split; [reflexivity |]. right. auto.
  - injection E as <- <-. split; [assumption |]. split; [assumption |].
    exists imported. split; [reflexivity |]. left. split; [congruence | reflexivity].
Qed.

(** X15. When [setup_scene] returns an object, every configured camera is
    registered under its name, so the later lookup by name cannot miss; when
    several configurations share a name, the camera of the last one is the
    one registered. *)
Theorem cameras_registered_by_name
        (host : Host) (self : TextureMapper) (s s1 : State) (obj : Object) :
  setup_scene host self s = (s1, Ok (Some obj)) ->
  (forall config, In config (configs self) ->
                  dict_get (name config) (cameras s1) <> None)
  /\ (forall l1 config l2,
        configs self = l1 ++ config :: l2 ->
        ~ In (name config) (map name l2) ->
        dict_get (name config) (cameras s1)
        = Some (new_camera host (name config) (location config) (rotation config))).
Proof.
  intros H. apply setup_scene_inv in H as (_ & Hc & _). rewrite Hc. split.
  - intros config Hin.
    destruct (last_occurrence (configs self) (name config)) as (l1 & c & l2 & Heq & Hn & Hl2).
    { now apply in_map. }
    rewrite Heq, <- Hn. rewrite registered_last by (rewrite Hn; assumption). discriminate.
  - intros l1 config l2 Heq Hl2. rewrite Heq. now apply registered_last.
Qed.

Lemma cameras_registered_by_name_witness :
  dict_get "Camera_Top" (cameras ex_state1) = Some ex_camera.
Proof.
  destruct (cameras_registered_by_name ex_host ex_mapper ex_state0 ex_state1 ex_imported)
    as [_ Hlast]; [exact ex_setup_scene |].
  exact (Hlast [] ex_config [] eq_refl (fun H => H)).
Defined.

(** X16. The object [setup_scene] returns is the mesh object now in the
    scene: the mesh the importer produced, with a UV layer named [UVMap]
    added when it had none; so it always has a UV layer. *)
Theorem setup_scene_returns_scene_mesh
        (host : Host) (self : TextureMapper) (s s1 : State) (obj : Object) :
  setup_scene host self s = (s1, Ok (Some obj)) ->
  scene_mesh s1 = Some obj
  /\ uv_layers obj <> []
  /\ exists imported,
       ply_mesh host (input_ply self) = Some imported
       /\ data obj = data imported
       /\ matrix_world obj = matrix_world imported
       /\ (uv_layers imported <> [] -> obj = imported)
       /\ (uv_layers imported = [] -> uv_layers obj = [DEFAULT_UV_MAP_NAME]).
Proof.
  intros H. apply setup_scene_inv in H as (Hm & _ & imported & Himp & Hcases).
  split; [assumption |].
  destruct Hcases as [[Huv ->] | [Huv ->]].
  - split; [assumption |]. exists imported. repeat split; auto. contradiction.
  - split; [cbn; rewrite Huv; discriminate |].
    exists imported. repeat split; auto.
    + contradiction.
    + intros _. cbn. now rewrite Huv.
Qed.

Lemma setup_scene_returns_scene_mesh_witness :
  scene_mesh ex_state1 = Some ex_imported /\ uv_layers ex_imported <> [].
Proof.
  destruct (setup_scene_returns_scene_mesh ex_host ex_mapper ex_state0 ex_state1 ex_imported)
    as (Hm & Huv & _); [exact ex_setup_scene |].
  split; assumption.
Defined.

(** *** Which events a computation can add *)

Lemma emits_same (Q : Event -> Prop) {A : Type} (f : State -> Result A) :
  emits Q (fun s => (s, f s)).
Proof.
  intros s s' r H. injection H as <- _. exists []. rewrite app_nil_r. auto.
Qed.

Lemma emits_bind (Q : Event -> Prop) {A B : Type} (m : M A) (k : A -> M B) :
  emits Q m -> (forall a, emits Q (k a)) -> emits Q (bind m k).
Proof.
  intros Hm Hk s s' r H. unfold bind in H.
  destruct (m s) as [s1 [a | e]] eqn:E.
  - destruct (Hm _ _ _ E) as (l1 & Ht1 & Hq1).
    destruct (Hk a _ _ _ H) as (l2 & Ht2 & Hq2).
    exists (l1 ++ l2). rewrite Ht2, Ht1, app_assoc.
    split; [reflexivity | now apply Forall_app].
  - injection H as <- _. exact (Hm _ _ _ E).
Qed.

Lemma emits_try (Q : Event -> Prop) {A : Type} (m : M A) (handler : Exn -> M A) :
  emits Q m -> (forall e, emits Q (handler e)) -> emits Q (try_except m handler).
Proof.
  intros Hm Hh s s' r H. unfold try_except in H.
  destruct (m s) as [s1 [a | e]] eqn:E.
  - injection H as <- _. exact (Hm _ _ _ E).
  - destruct (Hm _ _ _ E) as (l1 & Ht1 & Hq1).
    destruct (Hh e _ _ _ H) as (l2 & Ht2 & Hq2).
    exists (l1 ++ l2). rewrite Ht2, Ht1, app_assoc.
    split; [reflexivity | now apply Forall_app].
Qed.

Lemma emits_record (Q : Event -> Prop) (e : Event) : Q e -> emits Q (record e).
Proof. intros He s s' r H. injection H as <- _. exists [e]. cbn. auto. Qed.

Lemma emits_host_call (Q : Event -> Prop) (host : Host) (e : Event) :
  Q e -> emits Q (host_call host e).
Proof.
  intros He s s' r H. unfold host_call in H. destruct (raises host e _).
  - exact (emits_same Q (fun _ => Raise RuntimeError) _ _ _ H).
  - exact (emits_record Q e He _ _ _ H).
Qed.

Lemma emits_put_mesh (Q : Event -> Prop) (o : option Object) : emits Q (put_mesh o).
Proof. intros s s' r H. injection H as <- _. exists []. cbn. rewrite app_nil_r. auto. Qed.

Lemma emits_put_cameras (Q : Event -> Prop) (d : list (string * Camera)) :
  emits Q (put_cameras d).
Proof. intros s s' r H. injection H as <- _. exists []. cbn. rewrite app_nil_r. auto. Qed.

Lemma emits_add_cameras (host : Host) (cs : list CameraConfig) :
  emits setup_event (add_cameras host cs).
Proof.
  induction cs as [| c rest IH]; cbn [add_cameras].
  - exact (emits_same _ (fun _ => Ok tt)).
  - apply emits_bind.
    { apply emits_bind; [apply emits_host_call; exact I |].
      intros _. exact (emits_same _ (fun _ => Ok _)). }
    intros cam. apply emits_bind; [exact (emits_same _ (fun s => Ok (cameras s))) |].
    intros d. apply emits_bind; [apply emits_put_cameras | intros _; exact IH].
Qed.

Lemma emits_setup_scene (host : Host) (self : TextureMapper) :
  emits setup_event (setup_scene host self).
Proof.
  unfold setup_scene. apply emits_try; [| intros _; exact (emits_same _ (fun _ => Ok None))].
  apply emits_bind; [apply emits_host_call; exact I |]. intros _.
  apply emits_bind; [apply emits_host_call; exact I |]. intros _.
  apply emits_bind; [apply emits_put_mesh |]. intros _.
  apply emits_bind; [apply emits_host_call; exact I |]. intros _.
  apply emits_bind; [apply emits_put_mesh |]. intros _.
  apply emits_bind; [apply emits_add_cameras |]. intros _.
  intros s s' r H. destruct (scene_mesh s) as [mesh_obj |].
  - destruct (uv_layers mesh_obj).
    + revert H. apply emits_bind; [apply emits_host_call; exact I |]. intros _.
      apply emits_bind; [apply emits_put_mesh |]. intros _.
      exact (emits_same _ (fun _ => Ok _)).
    + exact (emits_same _ (fun _ => Ok (Some mesh_obj)) _ _ _ H).
  - exact (emits_same _ (fun _ => Ok None) _ _ _ H).
Qed.

Lemma add_cameras_keeps_mesh (host : Host) (cs : list CameraConfig) (s s' : State)
      (r : Result unit) :
  add_cameras host cs s = (s', r) -> scene_mesh s' = scene_mesh s.
Proof.
  revert s. induction cs as [| c rest IH]; intros s H; cbn [add_cameras] in H.
  - injection H as <- _. reflexivity.
  - cbv beta delta [bind add_camera host_call get_cameras put_cameras record ret] in H.
    destruct (raises host (OpCameraAdd (name c)) (List.length (trace s))).
    + injection H as <- _. reflexivity.
    + apply IH in H. exact H.
Qed.

(** Without an imported mesh, [setup_scene] returns [None]. *)
Lemma setup_scene_no_mesh (host : Host) (self : TextureMapper) (s : State) :
  ply_mesh host (input_ply self) = None ->
  snd (setup_scene host self s) = Ok None.
Proof.
  intros Himp. unfold setup_scene, try_except.
  match goal with |- context [match ?body s with _ => _ end] =>
    destruct (body s) as [s' [a | e]] eqn:E end; [| reflexivity].
  cbn. f_equal.
  apply bind_ok_inv in E as (s2 & u2 & H2 & E). apply host_call_inv in H2 as [_ ->].
  apply bind_ok_inv in E as (s3 & u3 & H3 & E). apply host_call_inv in H3 as [_ ->].
  apply bind_ok_inv in E as (s4 & u4 & H4 & E). injection H4 as <- _.
  apply bind_ok_inv in E as (s5 & u5 & H5 & E). apply host_call_inv in H5 as [_ ->].
  apply bind_ok_inv in E as (s6 & u6 & H6 & E). injection H6 as <- _.
  apply bind_ok_inv in E as (s7 & u7 & H7 & E).
  apply add_cameras_keeps_mesh in H7. cbn in H7. rewrite H7, Himp in E.
  injection E as _ <-. reflexivity.
Qed.

(** X17. When the importer yields no mesh object, the run ends with exit
    code 1 although validation passed; the only steps taken are those of
    the scene setup: no camera is processed and nothing is exported. *)
Theorem no_mesh_aborts_after_setup
        (host : Host) (self : TextureMapper) (s : State) :
  validate_configs host self = true ->
  ply_mesh host (input_ply self) = None ->
  snd (main host self s) = 1%Z
  /\ Forall setup_event (new_events s (fst (main host self s))).
Proof.
  intros Hv Himp. unfold main, process, try_except. rewrite Hv. cbn [negb].
  unfold bind.
  destruct (setup_scene host self s) as [s1 r] eqn:E.
  pose proof (setup_scene_no_mesh host self s Himp) as Hr. rewrite E in Hr. cbn in Hr.
  subst r. cbn. split; [reflexivity |].
  destruct (emits_setup_scene host self _ _ _ E) as (l & Ht & Hq).
  now rewrite (new_events_app _ _ _ Ht).
Qed.

Lemma no_mesh_aborts_after_setup_witness :
  snd (main ex_host_no_mesh ex_mapper ex_state0) = 1%Z
  /\ ~ In SelectFaces (new_events ex_state0 (fst (main ex_host_no_mesh ex_mapper ex_state0))).
Proof.
  destruct (no_mesh_aborts_after_setup ex_host_no_mesh ex_mapper ex_state0)
    as [Hcode Hev]; [reflexivity | reflexivity |].
  split; [exact Hcode |].
  intros Hin. rewrite Forall_forall in Hev. exact (Hev _ Hin).
Defined.

(** ** TextureMapper.process_camera_view *)

(** X18. A camera whose criteria select no face is skipped: the call
    returns [False] right after the selection; no material slot is created,
    no image is loaded and no UV is written, but the scene camera has been
    set, the mesh is in edit mode and its previous selection is gone. *)
Theorem empty_selection_skips_camera
        (host : Host) (config : CameraConfig) (s : State) (obj obj' : Object)
        (camera : Camera) :
  dict_get (name config) (cameras s) = Some camera ->
  scene_mesh s = Some obj ->
  (forall N, raises host (OpModeSet EDIT) N = false) ->
  select_faces_by_criteria (set_mode EDIT obj) (selection_params config) = (obj', Ok 0%Z) ->
  process_camera_view host config s
  = (mkState (Some obj') (Some camera) (images s) (cameras s)
             (trace s ++ [SetSceneCamera (name config); OpModeSet EDIT; SelectFaces]),
     Ok false).
Proof. apply process_camera_view_empty_selection. Qed.

Lemma empty_selection_skips_camera_witness :
  exists obj',
    process_camera_view
      ex_host
      (mkCameraConfig "Camera_Top" (mkVector 0 0 10) (mkVector 0 0 0)
                      (ex_params "custom" 1.5 1) 0 "top.png")
      ex_state1
    = (mkState (Some obj') (Some ex_camera) [] [("Camera_Top"%string, ex_camera)]
               (trace ex_state1 ++ [SetSceneCamera "Camera_Top"; OpModeSet EDIT; SelectFaces]),
       Ok false)
    /\ material_slots obj' = [].
Proof.
  destruct (select_returns (set_mode EDIT ex_imported) (ex_params "custom" 1.5 1))
    as (passes & Hc & Hsel); [reflexivity | cbn; lia | right; split; discriminate |].
  unfold criterion in Hc. cbn in Hc. injection Hc as <-.
  rewrite count_passing_none in Hsel.
  eexists. split.
  - apply (empty_selection_skips_camera
             ex_host
             (mkCameraConfig "Camera_Top" (mkVector 0 0 10) (mkVector 0 0 0)
                             (ex_params "custom" 1.5 1) 0 "top.png")
             ex_state1 ex_imported _ ex_camera);
      [reflexivity | reflexivity | reflexivity | exact Hsel].
  - reflexivity.
Defined.

Lemma Forall2_map_left {A B C : Type} (f : A -> B) (P : B -> C -> Prop)
      (l : list A) (l' : list C) :
  Forall2 P (map f l) l' -> Forall2 (fun a c => P (f a) c) l l'.
Proof.
  revert l'. induction l as [| a rest IH]; intros l' H; inversion H; subst;
    constructor; auto.
Qed.

Lemma Forall2_impl {A B : Type} (P Q : A -> B -> Prop) (l : list A) (l' : list B) :
  (forall a b, P a b -> Q a b) -> Forall2 P l l' -> Forall2 Q l l'.
Proof. intros H. induction 1; constructor; auto. Qed.

(** X19. After a camera has been processed to its end, every face it
    selected carries the camera's material index, and every face it did not
    select has the material index and the UVs it had before; the geometry is
    untouched.  So of two cameras that select the same face, the one
    processed last owns it. *)
Theorem camera_claims_selected_faces
      (host : Host) (config : CameraConfig) (s s' : State) (obj : Object) :
  scene_mesh s = Some obj ->
  process_camera_view host config s = (s', Ok true) ->
  exists obj',
    scene_mesh s' = Some obj'
    /\ Forall2 (camera_claims (material_index config))
               (faces (data obj)) (faces (data obj')).
Proof.
  intros Hmesh H. unfold process_camera_view in H. apply try_except_false_true in H.
  unfold bind at 1 in H. unfold get_cameras in H.
  destruct (dict_get (name config) (cameras s)) as [camera |]; [| discriminate].
  apply bind_ok_inv in H as (s1 & u1 & H1 & H). injection H1 as <- _.
  apply bind_ok_inv in H as (s2 & u2 & H2 & H). injection H2 as <- _.
  apply bind_ok_inv in H as (s3 & u3 & H3 & H).
  apply mode_set_inv in H3 as (obj0 & Hm0 & Hm3 & _ & _). cbn in Hm0.
  rewrite Hmesh in Hm0. injection Hm0 as <-.
  apply bind_ok_inv in H as (s4 & n & H4 & H).
  apply select_faces_inv in H4 as (obj3 & obj4 & Hm3' & Hsel & Hm4 & _).
  rewrite Hm3 in Hm3'. injection Hm3' as <-.
  destruct (Z.eqb_spec n 0) as [| Hn]; [discriminate |].
  rewrite select_faces_by_criteria_eq in Hsel. cbn [mode set_mode] in Hsel.
  destruct (criterion (set_mode EDIT obj) (selection_params config)) as [passes | e] eqn:Hc;
    [| discriminate].
  injection Hsel as <- _.
  pose proof (criterion_flag_blind _ _ _ Hc) as Hblind.
  apply bind_ok_inv in H as (s5 & mat & H5 & H).
  destruct (keeps_setup_material host (mesh_view s4) _ _ _ s4 s5 (Ok mat) eq_refl H5)
    as (Hv5 & _).
  apply bind_ok_inv in H as (s6 & u6 & H6 & H).
  apply set_active_material_index_inv in H6 as (obj5 & Hm5 & Hm6 & _).
  apply bind_ok_inv in H as (s7 & u7 & H7 & H).
  apply material_slot_assign_inv in H7 as (obj6 & Hm6' & Hm7 & _).
  rewrite Hm6 in Hm6'. injection Hm6' as <-.
  apply bind_ok_inv in H as (s8 & b & H8 & H). injection H as <-.
  assert (Hdata : data obj5
                  = mkBMesh (verts (data obj)) (selection_of passes (faces (data obj)))).
  { unfold mesh_view in Hv5. rewrite Hm5, Hm4 in Hv5. cbn in Hv5.
    injection Hv5 as _ _ Hd. exact Hd. }
  destruct (project_from_view_manual_uv_only host camera s7 s8 _ (Ok b) Hm7 H8)
    as (obj8 & Hm8 & _ & _ & _ & _ & Hf).
  exists obj8. split; [exact Hm8 |].
  unfold assign_material in Hf. cbn [data faces set_faces set_active] in Hf.
  rewrite Hdata in Hf. cbn [faces active_material_index] in Hf.
  unfold selection_of in Hf. rewrite map_map in Hf.
  apply Forall2_map_left in Hf.
  revert Hf. apply Forall2_impl. intros face face' (Hn1 & Hs1 & Hi1 & Hv1 & Hun).
  cbn [select set_select] in *.
  destruct (passes face) eqn:Hp; cbn in Hn1, Hs1, Hi1, Hv1, Hun.
  - unfold camera_claims. repeat split; try assumption; try congruence.
    all: intros Hf'; rewrite Hs1 in Hf'; discriminate.
  - specialize (Hun eq_refl). subst face'. unfold camera_claims. cbn.
    repeat split; try reflexivity. discriminate.
Qed.

Lemma camera_claims_selected_faces_witness :
  exists obj',
    scene_mesh (fst (process_camera_view ex_host ex_config ex_state1)) = Some obj'
    /\ Forall2 (camera_claims 0) (faces (data ex_imported)) (faces (data obj')).
Proof.
  destruct (process_camera_view ex_host ex_config ex_state1) as [s' r] eqn:E.
  assert (Hr : r = Ok true).
  { change r with (snd (s', r)). rewrite <- E. exact ex_camera_success. }
  subst r.
  exact (camera_claims_selected_faces ex_host ex_config ex_state1 s' ex_imported
           eq_refl E).
Defined.

(** ** TextureMapper.process and main *)

Lemma main_exit_zero (host : Host) (self : TextureMapper) (s s1 : State) (obj : Object) :
  validate_configs host self = true ->
  setup_scene host self s = (s1, Ok (Some obj)) ->
  (forall n, raises host (OpModeSet OBJECT) n = false) ->
  (forall n, raises host (OpExportGltf (output_glb self)) n = false) ->
  exists s3, main host self s = (s3, 0%Z).
Proof.
  intros Hv Hsetup Hmode Hexp.
  pose proof (process_cameras_all host (configs self) s1) as Hloop.
  assert (Hmesh : scene_mesh (after_cameras host (configs self) s1) <> None).
  { apply after_cameras_has_mesh. exact (setup_scene_has_mesh _ _ _ _ _ Hsetup). }
  destruct (scene_mesh (after_cameras host (configs self) s1)) as [obj2 |] eqn:E2;
    [| contradiction].
  unfold main, process, try_except. rewrite Hv. cbn [negb].
  rewrite (bind_ok _ _ _ _ _ Hsetup).
  rewrite (bind_ok _ _ _ _ _ Hloop).
  unfold bind at 1 2. unfold mode_set. rewrite E2.
  unfold bind, host_call. cbn. rewrite Hmode. cbn.
  rewrite Hexp. cbn. eexists. reflexivity.
Qed.

(** X20. The exit code is 0 only if validation passed, the scene was set
    up, every configured camera was processed in turn, and the switch to
    object mode and the export were the last two steps taken; the mesh is
    then in object mode. *)
Theorem exit_code_zero_means_exported
        (host : Host) (self : TextureMapper) (s s' : State) :
  main host self s = (s', 0%Z) ->
  validate_configs host self = true
  /\ exists s1 obj0 obj,
       setup_scene host self s = (s1, Ok (Some obj0))
       /\ trace s' = trace (after_cameras host (configs self) s1)
                     ++ [OpModeSet OBJECT; OpExportGltf (output_glb self)]
       /\ scene_mesh s' = Some obj /\ mode obj = OBJECT.
Proof.
  unfold main. destruct (process host self s) as [s2 [b | e]] eqn:H;
    [| intros Hc; discriminate].
  destruct b; intros Hc; [injection Hc as -> | discriminate].
  unfold process in H. apply try_except_false_true in H.
  destruct (validate_configs host self); cbn [negb] in H; [| discriminate].
  split; [reflexivity |].
  apply bind_ok_inv in H as (s1 & mesh_obj & H1 & H).
  destruct mesh_obj as [obj0 |]; [| discriminate].
  apply bind_ok_inv in H as (s3 & u3 & H3 & H).
  rewrite process_cameras_all in H3. injection H3 as <- _.
  apply bind_ok_inv in H as (s4 & u4 & H4 & H).
  apply mode_set_inv in H4 as (obj & Hm & Hm4 & Ht4 & _).
  apply bind_ok_inv in H as (s5 & u5 & H5 & H).
  apply host_call_inv in H5 as [_ ->]. injection H as <-.
  exists s1, obj0, (set_mode OBJECT obj). split; [exact H1 |].
  cbn. rewrite Ht4, <- app_assoc. auto.
Qed.

Lemma exit_code_zero_means_exported_witness :
  exists obj,
    scene_mesh (fst (main ex_host ex_mapper ex_state0)) = Some obj /\ mode obj = OBJECT.
Proof.
  destruct (main_exit_zero ex_host ex_mapper ex_state0 ex_state1 ex_imported)
    as (s3 & Hmain); try reflexivity.
  destruct (exit_code_zero_means_exported ex_host ex_mapper ex_state0 s3 Hmain)
    as (_ & s1 & obj0 & obj & _ & _ & Hm & Hmode).
  exists obj. rewrite Hmain. auto.
Defined.

(** ** LoggerSetup.setup *)

Lemma setup_has_handlers (can_open : string -> bool) (lvl : Z)
      (log_file : option string) (logger : Logger) :
  handlers (fst (setup can_open lvl log_file logger)) <> [].
Proof.
  unfold setup. destruct (handlers logger) as [| h rest] eqn:E.
  - destruct log_file as [filename |]; [| cbn; discriminate].
    destruct (truthy (Some filename)); [| cbn; discriminate].
    destruct (can_open filename); cbn; discriminate.
  - cbn. rewrite E. discriminate.
Qed.

(** X21. [setup] configures the logger at most once: after any call of
    it, whether it returned or the log file could not be opened, every
    later call returns the logger as it is, whatever level and log file it
    is given, and does not raise. *)
Theorem setup_configures_once
        (can_open : string -> bool) (lvl lvl' : Z) (log_file log_file' : option string)
        (logger : Logger) :
  setup can_open lvl' log_file' (fst (setup can_open lvl log_file logger))
  = (fst (setup can_open lvl log_file logger), Returns).
Proof.
  pose proof (setup_has_handlers can_open lvl log_file logger) as H.
  unfold setup at 1.
  destruct (handlers (fst (setup can_open lvl log_file logger))); [contradiction | reflexivity].
Qed.

(** X22. The script configures its logger when it is loaded, with level
    INFO and no log file.  On a logger that had no handler then, the call
    in [main] changes nothing, whatever [--verbose] and [--log] are: the
    level stays INFO, the only handler is the console handler, and no log
    file is opened. *)
Theorem verbose_and_log_ignored
        (can_open : string -> bool) (verbose : bool) (log : option string)
        (logger : Logger) :
  handlers logger = [] ->
  main_logger can_open verbose log (module_logger can_open logger)
  = (mkLogger INFO false
              [mkHandler StreamHandler INFO "%(asctime)s - %(levelname)s - %(message)s"],
     Returns).
Proof.
  intros H. unfold main_logger, module_logger, setup. rewrite H. cbn. reflexivity.
Qed.

Lemma verbose_and_log_ignored_witness :
  level (fst (main_logger (fun _ => true) true (Some "run.log"%string)
                          (module_logger (fun _ => true) ex_fresh_logger)))
  = INFO.
Proof.
  rewrite (verbose_and_log_ignored (fun _ => true) true (Some "run.log"%string)
             ex_fresh_logger eq_refl).
  reflexivity.
Defined.
